(** * Jetson translator: input layer, recording session, pipeline and controller

    A shallow embedding of the control core of the push-to-talk translator
    ([gpio_inputs.py], [language_selector.py], [audio_recorder.py],
    [translation_pipeline.py], [lcd_display.py], [app_controller.py],
    [audio_player.py]) and the properties of it that the specification
    states.

    Conventions of the embedding:
    - a Python [str] is the list of its code points;
    - a timestamp ([time.time()]) and a duration are integers, in
      microseconds, so that [0.5] s is [500000] and comparisons are exact;
    - a GPIO level is the integer [GPIO.input] returns;
    - every method is a computation over a [World]: the readings the
      hardware will deliver, the shared display object and the trace of the
      calls made to the outside (display driver, subprocess, collaborators);
    - the transcription, the translation and the synthesis are functions of
      their arguments, and the calls to the display driver, to the capture
      process and to the player return without raising;
    - [os.makedirs] raises for the names no file system takes, the empty
      path and a path that holds a NUL character; for any other path the
      file system is taken to let the directory be made;
    - Ctrl-C is delivered during the sleep that ends an iteration of the main
      loop;
    - [print] is not modelled. *)

From Stdlib Require Import ZArith String Ascii Bool Lia List.
Import ListNotations.
Open Scope Z_scope.

(* ------------------------------------------------------------------ *)
(** ** Python values *)

Definition str : Type := list N.

Module Py.

(** An ASCII literal of the source as a Python string. *)
Definition lit (s : string) : str := map N_of_ascii (list_ascii_of_string s).

(** Truth value of a sequence: empty is false. *)
Definition truthy {A : Type} (l : list A) : bool :=
  match l with [] => false | _ :: _ => true end.

Definition len {A : Type} (l : list A) : Z := Z.of_nat (length l).

(** Bound of a slice, as [slice.indices] normalises it. *)
Definition clamp (n i : Z) : Z :=
  if i <? 0 then Z.max 0 (n + i) else Z.min i n.

(** [l[lo:hi]] *)
Definition slice {A : Type} (lo hi : Z) (l : list A) : list A :=
  let a := clamp (len l) lo in
  let b := clamp (len l) hi in
  firstn (Z.to_nat (b - a)) (skipn (Z.to_nat a) l).

(** [l[:hi]] *)
Definition upto {A : Type} (hi : Z) (l : list A) : list A :=
  firstn (Z.to_nat (clamp (len l) hi)) l.

(** [l[i]], [None] standing for [IndexError]. *)
Definition getitem {A : Type} (l : list A) (i : Z) : option A :=
  if (0 <=? i) && (i <? len l) then nth_error l (Z.to_nat i)
  else if (- len l <=? i) && (i <? 0) then nth_error l (Z.to_nat (len l + i))
  else None.

(** [s.ljust(width)] *)
Definition ljust (width : Z) (s : str) : str :=
  s ++ repeat 32%N (Z.to_nat (width - len s)).

(** [os.path.join(a, b)] on POSIX. *)
Definition path_join (a b : str) : str :=
  match b with
  | 47%N :: _ => b
  | _ => match rev a with
         | [] => b
         | 47%N :: _ => a ++ b
         | _ => a ++ 47%N :: b
         end
  end.

(** U+2192, the arrow of the display header. *)
Definition arrow : N := 8594%N.

End Py.

(* ------------------------------------------------------------------ *)
(** ** The world the program runs in *)

(** The GPIO module handed to the constructors: its two level constants. *)
Record GPIO := { HIGH : Z; LOW : Z }.

(** [Jetson.GPIO], the module [main.py] passes. *)
Definition JetsonGPIO : GPIO := {| HIGH := 1; LOW := 0 |}.

(** One reading of the pins: level by pin number. *)
Definition Pins := Z -> Z.

(** The handle of the display driver ([RPLCD.i2c.CharLCD]). *)
Inductive CharLCD := CharLCDHandle.

(** [lcd_display.LCDDisplay]: one object, shared by the selector, the
    pipeline and the controller. *)
Record LCDDisplay := {
  cols : Z;
  rows : Z;
  scroll_interval_s : Z;
  lcd : option CharLCD;
  _scroll_text : str;
  _scroll_offset : Z;
  _scroll_last_time : Z
}.

(** What the program does to the outside, in order. *)
Inductive Event :=
| LcdWrite (line1 line2 : str)            (* LCDDisplay.write(line1, line2) *)
| HwClear                                 (* CharLCD.clear() *)
| HwCursor (row col : Z)                  (* CharLCD.cursor_pos = (row, col) *)
| HwWriteString (s : str)                 (* CharLCD.write_string(s) *)
| Sleep (us : Z)                          (* time.sleep *)
| Transcribe (wav_path : str)             (* transcribe_fn(wav_path) *)
| Translate (text src_lang tgt_lang : str)(* translate_fn(text, src, tgt) *)
| Synthesize (text lang_code : str)       (* tts.synthesize(text, lang) *)
| PlayWav (wav_path : str)                (* player.play_wav(wav) *)
| MakeDirs (path : str)                   (* os.makedirs(path, exist_ok=True) *)
| Popen (mic_device fmt : str) (rate : Z) (wav_path : str) (* arecord started *)
| SendSigint                              (* proc.send_signal(SIGINT) *)
| Wait (timeout : option Z)               (* proc.wait(timeout=...) *)
| Kill                                    (* proc.kill() *)
| GpioCleanup.                            (* gpio.cleanup() *)

Record World := {
  gpio_in : list Pins;     (* what the successive GPIO.input calls will see *)
  clock : list Z;          (* what the successive time.time() calls return *)
  now : Z;                 (* the last value of the clock *)
  exits_in_time : list bool; (* successive proc.wait(timeout): exited in time? *)
  sigint : list bool;      (* per sleep of the main loop: Ctrl-C delivered? *)
  display : LCDDisplay;
  trace : list Event
}.

Inductive exn :=
| RuntimeError (msg : string)
| ZeroDivisionError
| IndexError
| TypeError
| KeyboardInterrupt
| FileNotFoundError
| ValueError.

(** A call returns, raises, or is still waiting for a GPIO reading when the
    supplied readings end. *)
Inductive outcome (A : Type) :=
| Ok (a : A)
| Raise (e : exn)
| Blocked.
Arguments Ok {A} a.
Arguments Raise {A} e.
Arguments Blocked {A}.

(** A computation over a state [S]. *)
Definition St (S A : Type) : Type := S -> outcome A * S.

(** The methods of every object but the controller run over the world. *)
Definition M (A : Type) : Type := St World A.

Definition ret {S A : Type} (a : A) : St S A := fun s => (Ok a, s).

Definition bind {S A B : Type} (m : St S A) (k : A -> St S B) : St S B :=
  fun s =>
    match m s with
    | (Ok a, s1) => k a s1
    | (Raise e, s1) => (Raise e, s1)
    | (Blocked, s1) => (Blocked, s1)
    end.

Definition raise {S A : Type} (e : exn) : St S A := fun s => (Raise e, s).

Definition blocked {S A : Type} : St S A := fun s => (Blocked, s).

Declare Scope py_scope.
Delimit Scope py_scope with py.
Notation "x <- m ;; k" := (bind m (fun x => k))
  (at level 61, m at next level, right associativity) : py_scope.
Notation "' pat <- m ;; k" := (bind m (fun x => match x with pat => k end))
  (at level 61, pat pattern, m at next level, right associativity) : py_scope.
Notation "m ;; k" := (bind m (fun _ => k))
  (at level 61, right associativity) : py_scope.
Open Scope py_scope.

(** [try: body finally: cleanup]; a body that is still waiting never reaches
    its cleanup. *)
Definition try_finally {S A : Type} (body : St S A) (cleanup : St S unit) : St S A :=
  fun s =>
    match body s with
    | (Blocked, s1) => (Blocked, s1)
    | (r, s1) =>
        match cleanup s1 with
        | (Ok _, s2) => (r, s2)
        | (Raise e, s2) => (Raise e, s2)
        | (Blocked, s2) => (Blocked, s2)
        end
    end.

(** [try: body except KeyboardInterrupt: handler] *)
Definition except_KeyboardInterrupt {S A : Type} (body handler : St S A) : St S A :=
  fun s =>
    match body s with
    | (Raise KeyboardInterrupt, s1) => handler s1
    | rs => rs
    end.

(** [time.time()]: the next reading of the clock; the clock stands still when
    no further reading is scheduled. *)
Definition time_time : M Z :=
  fun w =>
    match clock w with
    | t :: rest =>
        (Ok t, {| gpio_in := gpio_in w; clock := rest; now := t;
                  exits_in_time := exits_in_time w; sigint := sigint w;
                  display := display w; trace := trace w |})
    | [] => (Ok (now w), w)
    end.

(** [gpio.input(pin)] *)
Definition gpio_input (pin : Z) : M Z :=
  fun w =>
    match gpio_in w with
    | p :: rest =>
        (Ok (p pin), {| gpio_in := rest; clock := clock w; now := now w;
                        exits_in_time := exits_in_time w; sigint := sigint w;
                        display := display w; trace := trace w |})
    | [] => (Blocked, w)
    end.

Definition emit (e : Event) : M unit :=
  fun w =>
    (Ok tt, {| gpio_in := gpio_in w; clock := clock w; now := now w;
               exits_in_time := exits_in_time w; sigint := sigint w;
               display := display w; trace := trace w ++ [e] |}).

Definition time_sleep (us : Z) : M unit := emit (Sleep us).

(** [os.makedirs(path, exist_ok=True)]: the empty path names no directory
    that could be made or found ([FileNotFoundError]), and a path that holds
    a NUL character is refused before the file system is asked
    ([ValueError: embedded null byte]). *)
Definition makedirs (path : str) : M unit :=
  if negb (Py.truthy path) then raise FileNotFoundError
  else if existsb (N.eqb 0) path then raise ValueError
  else emit (MakeDirs path).

(** The sleep of the main loop, where a pending Ctrl-C is delivered. *)
Definition interruptible_sleep (us : Z) : M unit :=
  fun w =>
    match sigint w with
    | true :: rest =>
        (Raise KeyboardInterrupt,
         {| gpio_in := gpio_in w; clock := clock w; now := now w;
            exits_in_time := exits_in_time w; sigint := rest;
            display := display w; trace := trace w ++ [Sleep us] |})
    | false :: rest =>
        (Ok tt,
         {| gpio_in := gpio_in w; clock := clock w; now := now w;
            exits_in_time := exits_in_time w; sigint := rest;
            display := display w; trace := trace w ++ [Sleep us] |})
    | [] => emit (Sleep us) w
    end.

(** [proc.wait(timeout=t)]: [true] when the process exited in time, [false]
    for [TimeoutExpired]; a process of which nothing is said exits. *)
Definition proc_wait (timeout : Z) : M bool :=
  fun w =>
    let w1 := {| gpio_in := gpio_in w; clock := clock w; now := now w;
                 exits_in_time := tl (exits_in_time w); sigint := sigint w;
                 display := display w; trace := trace w ++ [Wait (Some timeout)] |} in
    match exits_in_time w with
    | b :: _ => (Ok b, w1)
    | [] => (Ok true, w1)
    end.

Definition get_display : M LCDDisplay := fun w => (Ok (display w), w).

Definition set_display (d : LCDDisplay) : M unit :=
  fun w =>
    (Ok tt, {| gpio_in := gpio_in w; clock := clock w; now := now w;
               exits_in_time := exits_in_time w; sigint := sigint w;
               display := d; trace := trace w |}).

(** [a % b] *)
Definition py_mod {S : Type} (a b : Z) : St S Z :=
  if b =? 0 then raise ZeroDivisionError else ret (a mod b).

(** [l[i]] *)
Definition py_getitem {S A : Type} (l : list A) (i : Z) : St S A :=
  match Py.getitem l i with
  | Some x => ret x
  | None => raise IndexError
  end.

(** Every iteration of the loops of the program takes a GPIO reading, so a
    loop cannot make more iterations than there are readings left; this is
    the bound the loops are unrolled to. *)
Definition readings_left : M nat := fun w => (Ok (S (length (gpio_in w))), w).

(* ------------------------------------------------------------------ *)
(** ** lcd_display.py *)

Module LCD.

(** [LCDDisplay.write] *)
Definition write (line1 line2 : str) : M unit :=
  emit (LcdWrite line1 line2) ;;
  d <- get_display ;;
  match lcd d with
  | None => ret tt
  | Some _ =>
      emit HwClear ;;
      (if Py.truthy line1
       then emit (HwCursor 0 0) ;; emit (HwWriteString (Py.upto (cols d) line1))
       else ret tt) ;;
      (if (1 <? rows d) && Py.truthy line2
       then emit (HwCursor 1 0) ;; emit (HwWriteString (Py.upto (cols d) line2))
       else ret tt)
  end.

(** [LCDDisplay.set_scroll_text] *)
Definition set_scroll_text (text : str) : M unit :=
  d <- get_display ;;
  t <- time_time ;;
  set_display {| cols := cols d; rows := rows d;
                 scroll_interval_s := scroll_interval_s d; lcd := lcd d;
                 _scroll_text := text;
                 _scroll_offset := 0;
                 _scroll_last_time := t |}.

(** [LCDDisplay.clear_scroll] *)
Definition clear_scroll : M unit := set_scroll_text [].

(** [LCDDisplay.tick_scroll] *)
Definition tick_scroll (is_recording : bool) : M unit :=
  d <- get_display ;;
  match lcd d with
  | None => ret tt
  | Some _ =>
      if negb (Py.truthy (_scroll_text d)) then ret tt
      else if is_recording then ret tt
      else
        t <- time_time ;;
        if t - _scroll_last_time d <? scroll_interval_s d then ret tt
        else
          let padded := _scroll_text d ++ Py.lit "   " in
          let offset := if Py.len padded <=? _scroll_offset d
                        then 0 else _scroll_offset d in
          let window := Py.slice offset (offset + cols d) padded in
          let window := if Py.len window <? cols d
                        then Py.ljust (cols d) window else window in
          set_display {| cols := cols d; rows := rows d;
                         scroll_interval_s := scroll_interval_s d; lcd := lcd d;
                         _scroll_text := _scroll_text d;
                         _scroll_offset := offset + 1;
                         _scroll_last_time := t |} ;;
          emit (HwCursor 1 0) ;;
          emit (HwWriteString (repeat 32%N (Z.to_nat (cols d)))) ;;
          emit (HwCursor 1 0) ;;
          emit (HwWriteString window)
  end.

(** [LCDDisplay.shutdown] *)
Definition shutdown (line1 line2 : str) (hold_s : Z) : M unit :=
  d <- get_display ;;
  match lcd d with
  | None => ret tt
  | Some _ => write line1 line2 ;; time_sleep hold_s ;; emit HwClear
  end.

End LCD.

(* ------------------------------------------------------------------ *)
(** ** gpio_inputs.py *)

(** The two strings [DebouncedButton.poll] returns. *)
Inductive ButtonEvent := pressed | released.

Module DebouncedButton.

Record t := {
  pin : Z;
  gpio : GPIO;
  active_high : bool;
  debounce_s : Z;
  _raw_last : Z;
  _stable : Z;
  _raw_changed_t : Z
}.

Definition _is_pressed_level (b : t) (level : Z) : bool :=
  if active_high b then level =? HIGH (gpio b) else level =? LOW (gpio b).

(** [__init__] *)
Definition init (pin : Z) (gpio : GPIO) (active_high : bool) (debounce_s : Z) : M t :=
  initial <- gpio_input pin ;;
  t0 <- time_time ;;
  ret {| pin := pin; gpio := gpio; active_high := active_high;
         debounce_s := debounce_s;
         _raw_last := initial; _stable := initial; _raw_changed_t := t0 |}.

(** The body of [poll] once [now] and [raw] have been read. *)
Definition poll_at (now raw : Z) (b : t) : t * option ButtonEvent :=
  let b1 :=
    if negb (raw =? _raw_last b)
    then {| pin := pin b; gpio := gpio b; active_high := active_high b;
            debounce_s := debounce_s b;
            _raw_last := raw; _stable := _stable b; _raw_changed_t := now |}
    else b in
  if (debounce_s b1 <=? now - _raw_changed_t b1) && negb (raw =? _stable b1)
  then
    let b2 := {| pin := pin b1; gpio := gpio b1; active_high := active_high b1;
                 debounce_s := debounce_s b1;
                 _raw_last := _raw_last b1; _stable := raw;
                 _raw_changed_t := _raw_changed_t b1 |} in
    (b2, Some (if _is_pressed_level b2 (_stable b2) then pressed else released))
  else (b1, None).

(** [poll] *)
Definition poll (b : t) : M (t * option ButtonEvent) :=
  now <- time_time ;;
  raw <- gpio_input (pin b) ;;
  ret (poll_at now raw b).

End DebouncedButton.

Module LongPressDetector.

Record t := {
  pin : Z;
  gpio : GPIO;
  long_press_s : Z;
  active_high : bool;
  debounce_s : Z;
  _raw_last : Z;
  _stable : Z;
  _raw_changed_t : Z;
  _press_start_t : option Z;
  _fired : bool
}.

Definition _is_pressed_level (d : t) (level : Z) : bool :=
  if active_high d then level =? HIGH (gpio d) else level =? LOW (gpio d).

(** [__init__] *)
Definition init (pin : Z) (gpio : GPIO) (long_press_s : Z) (active_high : bool)
    (debounce_s : Z) : M t :=
  initial <- gpio_input pin ;;
  t0 <- time_time ;;
  ret {| pin := pin; gpio := gpio; long_press_s := long_press_s;
         active_high := active_high; debounce_s := debounce_s;
         _raw_last := initial; _stable := initial; _raw_changed_t := t0;
         _press_start_t := None; _fired := false |}.

Definition with_raw (raw now : Z) (d : t) : t :=
  {| pin := pin d; gpio := gpio d; long_press_s := long_press_s d;
     active_high := active_high d; debounce_s := debounce_s d;
     _raw_last := raw; _stable := _stable d; _raw_changed_t := now;
     _press_start_t := _press_start_t d; _fired := _fired d |}.

Definition with_stable (raw : Z) (d : t) : t :=
  {| pin := pin d; gpio := gpio d; long_press_s := long_press_s d;
     active_high := active_high d; debounce_s := debounce_s d;
     _raw_last := _raw_last d; _stable := raw; _raw_changed_t := _raw_changed_t d;
     _press_start_t := _press_start_t d; _fired := _fired d |}.

Definition with_hold (start : option Z) (fired : bool) (d : t) : t :=
  {| pin := pin d; gpio := gpio d; long_press_s := long_press_s d;
     active_high := active_high d; debounce_s := debounce_s d;
     _raw_last := _raw_last d; _stable := _stable d;
     _raw_changed_t := _raw_changed_t d;
     _press_start_t := start; _fired := fired |}.

(** The first half of [poll]: the raw edge and the debounced stable state,
    with the hold timer set or dropped on a debounced edge. *)
Definition debounce_at (now raw : Z) (d : t) : t :=
  let d1 := if negb (raw =? _raw_last d) then with_raw raw now d else d in
  if (debounce_s d1 <=? now - _raw_changed_t d1) && negb (raw =? _stable d1)
  then
    let prev := _stable d1 in
    let d2 := with_stable raw d1 in
    let d3 :=
      if _is_pressed_level d2 (_stable d2) && negb (_is_pressed_level d2 prev)
      then with_hold (Some now) false d2 else d2 in
    if negb (_is_pressed_level d3 (_stable d3)) && _is_pressed_level d3 prev
    then with_hold None false d3 else d3
  else d1.

(** The body of [poll] once [now] and [raw] have been read. *)
Definition poll_at (now raw : Z) (enabled : bool) (d : t) : t * bool :=
  let d1 := debounce_at now raw d in
  if negb enabled then (with_hold None false d1, false)
  else
    match _press_start_t d1 with
    | Some start =>
        if negb (_fired d1) && _is_pressed_level d1 (_stable d1)
           && (long_press_s d1 <=? now - start)
        then (with_hold (_press_start_t d1) true d1, true)
        else (d1, false)
    | None => (d1, false)
    end.

(** [poll] *)
Definition poll (d : t) (enabled : bool) : M (t * bool) :=
  now <- time_time ;;
  raw <- gpio_input (pin d) ;;
  ret (poll_at now raw enabled d).

End LongPressDetector.

(* ------------------------------------------------------------------ *)
(** ** language_selector.py *)

Module LanguageSelector.

Record t := {
  gpio : GPIO;
  clk_pin : Z;
  dt_pin : Z;
  sw_pin : Z;
  debounce_s : Z;
  poll_s : Z;
  sw_active_low : bool
}.

Definition _sw_pressed (s : t) (level : Z) : bool :=
  if sw_active_low s then level =? LOW (gpio s) else level =? HIGH (gpio s).

(** The local variables of [select_one] that live across an iteration of
    its loop. *)
Record locals := {
  index : Z;
  name : str;
  code : str;
  last_clk : Z;
  last_sw : Z
}.

(** The loop that waits, for at most half a second, for the switch to be
    released before the selection starts. *)
Fixpoint settle (fuel : nat) (s : t) (start_settle : Z) : M unit :=
  match fuel with
  | O => blocked
  | S fuel' =>
      sw <- gpio_input (sw_pin s) ;;
      if _sw_pressed s sw then
        t <- time_time ;;
        if t - start_settle <? 500000
        then time_sleep 10000 ;; settle fuel' s start_settle
        else ret tt
      else ret tt
  end.

(** The loop that waits for the release after a press. *)
Fixpoint wait_release (fuel : nat) (s : t) : M unit :=
  match fuel with
  | O => blocked
  | S fuel' =>
      sw <- gpio_input (sw_pin s) ;;
      if _sw_pressed s sw
      then time_sleep 10000 ;; wait_release fuel' s
      else ret tt
  end.

(** The rotation part of an iteration: a CLK edge moves the index. *)
Definition rotate (prompt_line1 : str) (options : list (str * str))
    (l : locals) (clk dt : Z) : M locals :=
  if negb (clk =? last_clk l) then
    index' <- (if negb (dt =? clk)
               then py_mod (index l + 1) (Py.len options)
               else py_mod (index l - 1) (Py.len options)) ;;
    ' (name', code') <- py_getitem options index' ;;
    LCD.write prompt_line1 name' ;;
    time_sleep 10000 ;;
    ret {| index := index'; name := name'; code := code';
           last_clk := clk; last_sw := last_sw l |}
  else ret l.

(** One iteration of the [while True] of [select_one]: either the locals
    for the next iteration or the value returned. *)
Definition iteration (s : t) (prompt_line1 : str) (options : list (str * str))
    (l : locals) : M (locals + str * str) :=
  clk <- gpio_input (clk_pin s) ;;
  dt <- gpio_input (dt_pin s) ;;
  sw <- gpio_input (sw_pin s) ;;
  l1 <- rotate prompt_line1 options l clk dt ;;
  if negb (sw =? last_sw l1) then
    time_sleep (debounce_s s) ;;
    sw2 <- gpio_input (sw_pin s) ;;
    if negb (sw2 =? last_sw l1) then
      let l2 := {| index := index l1; name := name l1; code := code l1;
                   last_clk := last_clk l1; last_sw := sw2 |} in
      if _sw_pressed s sw2 then
        fuel <- readings_left ;;
        wait_release fuel s ;;
        ret (inr (name l2, code l2))
      else time_sleep (poll_s s) ;; ret (inl l2)
    else time_sleep (poll_s s) ;; ret (inl l1)
  else time_sleep (poll_s s) ;; ret (inl l1).

Fixpoint loop (fuel : nat) (s : t) (prompt_line1 : str)
    (options : list (str * str)) (l : locals) : M (str * str) :=
  match fuel with
  | O => blocked
  | S fuel' =>
      r <- iteration s prompt_line1 options l ;;
      match r with
      | inl l' => loop fuel' s prompt_line1 options l'
      | inr selected => ret selected
      end
  end.

(** [select_one] *)
Definition select_one (s : t) (prompt_line1 : str) (options : list (str * str))
    (initial_index : Z) : M (str * str) :=
  LCD.clear_scroll ;;
  index0 <- py_mod initial_index (Py.len options) ;;
  ' (name0, code0) <- py_getitem options index0 ;;
  LCD.write prompt_line1 name0 ;;
  last_clk0 <- gpio_input (clk_pin s) ;;
  start_settle <- time_time ;;
  fuel <- readings_left ;;
  settle fuel s start_settle ;;
  last_sw0 <- gpio_input (sw_pin s) ;;
  fuel <- readings_left ;;
  loop fuel s prompt_line1 options
    {| index := index0; name := name0; code := code0;
       last_clk := last_clk0; last_sw := last_sw0 |}.

(** [select_pair]: [(lang_a_to_b, lang_b_to_a, name_1, name_2)] *)
Definition select_pair (s : t) (choices : list (str * str)) (initial_index : Z)
    : M ((str * str) * (str * str) * str * str) :=
  ' (name_1, code_1) <- select_one s (Py.lit "Select Lang 1:") choices initial_index ;;
  ' (name_2, code_2) <- select_one s (Py.lit "Select Lang 2:") choices initial_index ;;
  let lang_a_to_b := (code_1, code_2) in
  let lang_b_to_a := (code_2, code_1) in
  ret (lang_a_to_b, lang_b_to_a, name_1, name_2).

End LanguageSelector.

(* ------------------------------------------------------------------ *)
(** ** audio_recorder.py *)

(** The handle [subprocess.Popen] returns for the capture process. *)
Inductive Process := ArecordProcess.

Module AudioRecorder.

Record t := {
  mic_device : str;
  rate : Z;
  fmt : str;
  out_dir : str;
  filename : str;
  _proc : option Process;
  _t0 : option Z
}.

Definition is_recording (r : t) : bool :=
  match _proc r with Some _ => true | None => false end.

Definition wav_path (r : t) : str := Py.path_join (out_dir r) (filename r).

Definition with_session (proc : option Process) (t0 : option Z) (r : t) : t :=
  {| mic_device := mic_device r; rate := rate r; fmt := fmt r;
     out_dir := out_dir r; filename := filename r;
     _proc := proc; _t0 := t0 |}.

(** [start] *)
Definition start (r : t) : M t :=
  match _proc r with
  | Some _ => ret r
  | None =>
      makedirs (out_dir r) ;;
      t0 <- time_time ;;
      emit (Popen (mic_device r) (fmt r) (rate r) (wav_path r)) ;;
      ret (with_session (Some ArecordProcess) (Some t0) r)
  end.

(** [stop]: the recorder afterwards and the duration returned. *)
Definition stop (r : t) (timeout_s : Z) : M (t * Z) :=
  match _proc r with
  | None => ret (r, 0)
  | Some _ =>
      emit SendSigint ;;
      exited <- proc_wait timeout_s ;;
      (if exited then ret tt else emit Kill ;; emit (Wait None)) ;;
      dur <- match _t0 r with
             | Some t0 =>
                 if t0 =? 0 then ret 0
                 else t <- time_time ;; ret (t - t0)
             | None => ret 0
             end ;;
      ret (with_session None None r, dur)
  end.

(** The default of [timeout_s], three seconds. *)
Definition default_timeout_s : Z := 3000000.

End AudioRecorder.

(* ------------------------------------------------------------------ *)
(** ** translation_pipeline.py *)

Module TranslationPipeline.

(** The collaborators are functions of their arguments; the player only
    leaves its call in the trace. *)
Record t := {
  transcribe_fn : str -> str;
  translate_fn : str -> str -> str -> str;
  tts : str -> str -> option str;
  lcd_cols : Z
}.

(** [process] *)
Definition process (p : t) (wav_path src_lang tgt_lang : str)
    : M (option str * option str) :=
  LCD.write (Py.lit "Transcribing...") [] ;;
  emit (Transcribe wav_path) ;;
  let text := transcribe_fn p wav_path in
  if negb (Py.truthy text) then
    LCD.clear_scroll ;;
    LCD.write (Py.lit "No speech") (Py.lit "Try again") ;;
    ret (None, None)
  else
    LCD.write (Py.lit "Translating...") [] ;;
    emit (Translate text src_lang tgt_lang) ;;
    let out := translate_fn p text src_lang tgt_lang in
    let header := Py.upto 3 src_lang ++ Py.arrow :: Py.upto 3 tgt_lang in
    LCD.set_scroll_text out ;;
    LCD.write header (Py.upto (lcd_cols p) out) ;;
    emit (Synthesize out tgt_lang) ;;
    let wav := tts p out tgt_lang in
    (match wav with
     | Some path => if Py.truthy path then emit (PlayWav path) else ret tt
     | None => ret tt
     end) ;;
    ret (Some text, Some out).

End TranslationPipeline.

(* ------------------------------------------------------------------ *)
(** ** app_controller.py *)

Module AppController.

Record t := {
  gpio : GPIO;
  recorder : AudioRecorder.t;
  pipeline : TranslationPipeline.t;
  btn_a : DebouncedButton.t;
  btn_b : DebouncedButton.t;
  lang_longpress : LongPressDetector.t;
  selector : LanguageSelector.t;
  lang_choices : list (str * str);
  pin_btn_a : Z;
  pin_btn_b : Z;
  mic_device : str;
  spk_device : str;
  rate_hz : Z;
  poll_s : Z;
  lang_a_to_b : option (str * str);
  lang_b_to_a : option (str * str);
  name_1 : option str;
  name_2 : option str
}.

(** The controller's methods change the controller and the world; what
    has been assigned to [self] is kept when a call raises. *)
Definition AppM (A : Type) : Type := St (t * World) A.

Definition lift {A : Type} (m : M A) : AppM A :=
  fun s => match m (snd s) with (r, w1) => (r, (fst s, w1)) end.

Definition self : AppM t := fun s => (Ok (fst s), s).

Definition assign (f : t -> t) : AppM unit :=
  fun s => (Ok tt, (f (fst s), snd s)).

Definition with_recorder (r : AudioRecorder.t) (a : t) : t :=
  {| gpio := gpio a; recorder := r; pipeline := pipeline a;
     btn_a := btn_a a; btn_b := btn_b a; lang_longpress := lang_longpress a;
     selector := selector a; lang_choices := lang_choices a;
     pin_btn_a := pin_btn_a a; pin_btn_b := pin_btn_b a;
     mic_device := mic_device a; spk_device := spk_device a;
     rate_hz := rate_hz a; poll_s := poll_s a;
     lang_a_to_b := lang_a_to_b a; lang_b_to_a := lang_b_to_a a;
     name_1 := name_1 a; name_2 := name_2 a |}.

Definition with_btn_a (b : DebouncedButton.t) (a : t) : t :=
  {| gpio := gpio a; recorder := recorder a; pipeline := pipeline a;
     btn_a := b; btn_b := btn_b a; lang_longpress := lang_longpress a;
     selector := selector a; lang_choices := lang_choices a;
     pin_btn_a := pin_btn_a a; pin_btn_b := pin_btn_b a;
     mic_device := mic_device a; spk_device := spk_device a;
     rate_hz := rate_hz a; poll_s := poll_s a;
     lang_a_to_b := lang_a_to_b a; lang_b_to_a := lang_b_to_a a;
     name_1 := name_1 a; name_2 := name_2 a |}.

Definition with_btn_b (b : DebouncedButton.t) (a : t) : t :=
  {| gpio := gpio a; recorder := recorder a; pipeline := pipeline a;
     btn_a := btn_a a; btn_b := b; lang_longpress := lang_longpress a;
     selector := selector a; lang_choices := lang_choices a;
     pin_btn_a := pin_btn_a a; pin_btn_b := pin_btn_b a;
     mic_device := mic_device a; spk_device := spk_device a;
     rate_hz := rate_hz a; poll_s := poll_s a;
     lang_a_to_b := lang_a_to_b a; lang_b_to_a := lang_b_to_a a;
     name_1 := name_1 a; name_2 := name_2 a |}.

Definition with_lang_longpress (d : LongPressDetector.t) (a : t) : t :=
  {| gpio := gpio a; recorder := recorder a; pipeline := pipeline a;
     btn_a := btn_a a; btn_b := btn_b a; lang_longpress := d;
     selector := selector a; lang_choices := lang_choices a;
     pin_btn_a := pin_btn_a a; pin_btn_b := pin_btn_b a;
     mic_device := mic_device a; spk_device := spk_device a;
     rate_hz := rate_hz a; poll_s := poll_s a;
     lang_a_to_b := lang_a_to_b a; lang_b_to_a := lang_b_to_a a;
     name_1 := name_1 a; name_2 := name_2 a |}.

(** The assignment of the four results of [select_pair], at once. *)
Definition with_languages (sel : (str * str) * (str * str) * str * str) (a : t) : t :=
  match sel with
  | (a_to_b, b_to_a, n1, n2) =>
      {| gpio := gpio a; recorder := recorder a; pipeline := pipeline a;
         btn_a := btn_a a; btn_b := btn_b a; lang_longpress := lang_longpress a;
         selector := selector a; lang_choices := lang_choices a;
         pin_btn_a := pin_btn_a a; pin_btn_b := pin_btn_b a;
         mic_device := mic_device a; spk_device := spk_device a;
         rate_hz := rate_hz a; poll_s := poll_s a;
         lang_a_to_b := Some a_to_b; lang_b_to_a := Some b_to_a;
         name_1 := Some n1; name_2 := Some n2 |}
  end.

(** [*pair] in a call: unpacking [None] raises. *)
Definition unpack (pair : option (str * str)) : AppM (str * str) :=
  match pair with
  | Some p => ret p
  | None => raise TypeError
  end.

(** [select_languages_startup] *)
Definition select_languages_startup : AppM unit :=
  a <- self ;;
  sel <- lift (LanguageSelector.select_pair (selector a) (lang_choices a) 0) ;;
  assign (with_languages sel).

(** [reselect_languages] *)
Definition reselect_languages : AppM unit :=
  lift (LCD.write (Py.lit "Change langs") (Py.lit "Rotate + press")) ;;
  a <- self ;;
  sel <- lift (LanguageSelector.select_pair (selector a) (lang_choices a) 0) ;;
  assign (with_languages sel) ;;
  lift (LCD.write (Py.lit "Ready") (Py.lit "Hold button")).

(** [start_record] *)
Definition start_record : AppM unit :=
  a <- self ;;
  if AudioRecorder.is_recording (recorder a) then ret tt
  else
    r <- lift (AudioRecorder.start (recorder a)) ;;
    assign (with_recorder r) ;;
    lift LCD.clear_scroll ;;
    lift (LCD.write (Py.lit "Recording...") []).

(** [stop_record] *)
Definition stop_record (src_lang tgt_lang : str) : AppM unit :=
  a <- self ;;
  if negb (AudioRecorder.is_recording (recorder a)) then ret tt
  else
    ' (r, _) <- lift (AudioRecorder.stop (recorder a) AudioRecorder.default_timeout_s) ;;
    assign (with_recorder r) ;;
    a <- self ;;
    lift (TranslationPipeline.process (pipeline a)
            (AudioRecorder.wav_path (recorder a)) src_lang tgt_lang) ;;
    ret tt.

(** [show_ready] *)
Definition show_ready : AppM unit :=
  lift (LCD.write (Py.lit "Ready") (Py.lit "Hold button")).

(** What the loop does with the event of one button. *)
Definition on_button (ev : option ButtonEvent) (langs : t -> option (str * str))
    : AppM unit :=
  match ev with
  | Some pressed => start_record
  | Some released =>
      a <- self ;;
      ' (src_lang, tgt_lang) <- unpack (langs a) ;;
      stop_record src_lang tgt_lang
  | None => ret tt
  end.

(** The long-press part of an iteration: the detector is polled, enabled
    only when not recording, and a fire re-enters the selection. *)
Definition poll_longpress : AppM unit :=
  a <- self ;;
  ' (d, fire) <- lift (LongPressDetector.poll (lang_longpress a)
                         (negb (AudioRecorder.is_recording (recorder a)))) ;;
  assign (with_lang_longpress d) ;;
  if fire then reselect_languages else ret tt.

(** One iteration of the main loop. *)
Definition iteration : AppM unit :=
  a <- self ;;
  ' (b, ev_a) <- lift (DebouncedButton.poll (btn_a a)) ;;
  assign (with_btn_a b) ;;
  on_button ev_a lang_a_to_b ;;
  a <- self ;;
  ' (b, ev_b) <- lift (DebouncedButton.poll (btn_b a)) ;;
  assign (with_btn_b b) ;;
  on_button ev_b lang_b_to_a ;;
  poll_longpress ;;
  a <- self ;;
  lift (LCD.tick_scroll (AudioRecorder.is_recording (recorder a))) ;;
  lift (interruptible_sleep (poll_s a)).

Fixpoint main_loop (fuel : nat) : AppM unit :=
  match fuel with
  | O => blocked
  | S fuel' => iteration ;; main_loop fuel'
  end.

(** The [finally] of [run]. *)
Definition cleanup : AppM unit :=
  a <- self ;;
  (if AudioRecorder.is_recording (recorder a) then
     ' (src_lang, tgt_lang) <- unpack (lang_a_to_b a) ;;
     stop_record src_lang tgt_lang
   else ret tt) ;;
  lift (emit GpioCleanup) ;;
  lift (LCD.shutdown (Py.lit "Shutting down") [] 5000000).

Definition not_selected : exn :=
  RuntimeError "Languages not selected. Call select_languages_startup() before run().".

(** [run] *)
Definition run : AppM unit :=
  a <- self ;;
  match lang_a_to_b a, lang_b_to_a a with
  | Some _, Some _ =>
      show_ready ;;
      try_finally
        (except_KeyboardInterrupt
           (fuel <- lift readings_left ;; main_loop fuel)
           (ret tt))
        cleanup
  | _, _ => raise not_selected
  end.

End AppController.

(* ------------------------------------------------------------------ *)
(** ** Runs of the pollers *)

(** A sample is what one call of [poll] reads: the clock and the pin. *)
Definition sample : Type := Z * Z.

(** The event [poll] reports for a debounced transition to [level]. *)
Definition event_of (b : DebouncedButton.t) (level : Z) : ButtonEvent :=
  if DebouncedButton._is_pressed_level b level then pressed else released.

(** A button polled at each sample in turn: the button afterwards and what
    each call returned. *)
Fixpoint button_polls (b : DebouncedButton.t) (samples : list sample)
    : DebouncedButton.t * list (option ButtonEvent) :=
  match samples with
  | [] => (b, [])
  | (t, raw) :: rest =>
      let r := DebouncedButton.poll_at t raw b in
      let out := button_polls (fst r) rest in
      (fst out, snd r :: snd out)
  end.

(** [n] calls of [DebouncedButton.poll] in a row, on the world: the button
    afterwards and what each call returned. *)
Fixpoint poll_times (n : nat) (b : DebouncedButton.t)
    : M (DebouncedButton.t * list (option ButtonEvent)) :=
  match n with
  | O => ret (b, [])
  | S n' =>
      r <- DebouncedButton.poll b ;;
      out <- poll_times n' (fst r) ;;
      ret (fst out, snd r :: snd out)
  end.

(** What the next [n] calls of [time.time()] return, from the readings
    scheduled and the last value of the clock. *)
Fixpoint clock_readings (n : nat) (scheduled : list Z) (last : Z) : list Z :=
  match n with
  | O => []
  | S n' =>
      match scheduled with
      | t :: rest => t :: clock_readings n' rest t
      | [] => last :: clock_readings n' [] last
      end
  end.

(** The samples that [n] polls of [pin] take from a world: each the clock
    reading and the level of the pin at that call. *)
Definition samples_of (pin : Z) (n : nat) (w : World) : list sample :=
  combine (clock_readings n (clock w) (now w))
          (map (fun p : Pins => p pin) (firstn n (gpio_in w))).

(** The start of the current run of equal raw levels in a history of
    samples: a sample whose level differs from the one before it starts a
    new run. *)
Definition run_start (first : sample) (samples : list sample) : sample :=
  fold_left (fun acc s => if snd s =? snd acc then acc else s) samples first.

(** How many calls reported a transition. *)
Definition reports (evs : list (option ButtonEvent)) : nat :=
  length (filter (fun e => match e with Some _ => true | None => false end) evs).

(** The debounced edge a call of [LongPressDetector.poll] sees: the stable
    level entering or leaving the pressed level. *)
Definition debounced_edge (t raw : Z) (d : LongPressDetector.t) : option ButtonEvent :=
  let d1 := LongPressDetector.debounce_at t raw d in
  let before := LongPressDetector._is_pressed_level d (LongPressDetector._stable d) in
  let after := LongPressDetector._is_pressed_level d (LongPressDetector._stable d1) in
  if after && negb before then Some pressed
  else if negb after && before then Some released
  else None.

(** A detector polled at each sample, with the [enabled] passed: the detector
    afterwards and, per call, its time, the debounced edge it saw and the
    value it returned. *)
Fixpoint longpress_polls (d : LongPressDetector.t) (samples : list (sample * bool))
    : LongPressDetector.t * list (Z * option ButtonEvent * bool) :=
  match samples with
  | [] => (d, [])
  | ((t, raw), enabled) :: rest =>
      let r := LongPressDetector.poll_at t raw enabled d in
      let out := longpress_polls (fst r) rest in
      (fst out, (t, debounced_edge t raw d, snd r) :: snd out)
  end.

(** The call's time, edge and result, by name. *)
Definition poll_time (p : Z * option ButtonEvent * bool) : Z := fst (fst p).
Definition poll_edge (p : Z * option ButtonEvent * bool) : option ButtonEvent := snd (fst p).
Definition poll_fired (p : Z * option ButtonEvent * bool) : bool := snd p.

(** A detector whose hold can no longer fire: the debounced level is the
    pressed one and the hold has fired or has no timer. *)
Definition spent (d : LongPressDetector.t) : Prop :=
  LongPressDetector._is_pressed_level d (LongPressDetector._stable d) = true
  /\ (LongPressDetector._fired d = true \/ LongPressDetector._press_start_t d = None).

(** A detector without a hold timer. *)
Definition unarmed (d : LongPressDetector.t) : Prop :=
  LongPressDetector._press_start_t d = None.

(** The constructor arguments of two detectors agree. *)
Definition same_config (d d' : LongPressDetector.t) : Prop :=
  LongPressDetector.pin d' = LongPressDetector.pin d
  /\ LongPressDetector.gpio d' = LongPressDetector.gpio d
  /\ LongPressDetector.long_press_s d' = LongPressDetector.long_press_s d
  /\ LongPressDetector.active_high d' = LongPressDetector.active_high d
  /\ LongPressDetector.debounce_s d' = LongPressDetector.debounce_s d.

(** The calls made to the four collaborators of the pipeline, among the
    events of a trace. *)
Definition collaborator_calls (evs : list Event) : list Event :=
  filter (fun e => match e with
                   | Transcribe _ | Translate _ _ _ | Synthesize _ _ | PlayWav _ => true
                   | _ => false
                   end) evs.

(** The calls of [LCDDisplay.write], among the events of a trace. *)
Definition lcd_writes (evs : list Event) : list Event :=
  filter (fun e => match e with LcdWrite _ _ => true | _ => false end) evs.

(** The calls of the playback collaborator, among the events of a trace. *)
Definition playbacks (evs : list Event) : list Event :=
  filter (fun e => match e with PlayWav _ => true | _ => false end) evs.

(** The calls of the pipeline's collaborators after the transcription, for a
    translation [out] and a synthesis result [wav]. *)
Definition calls_after_transcription (text src_lang tgt_lang out : str)
    (wav : option str) : list Event :=
  [Translate text src_lang tgt_lang; Synthesize out tgt_lang]
  ++ match wav with
     | Some path => if Py.truthy path then [PlayWav path] else []
     | None => []
     end.

(** ** What a call can do to the world *)

(** From [w] to [w'] the trace has only grown and GPIO readings have only
    been consumed. *)
Definition evolves (w w' : World) : Prop :=
  (exists evs, trace w' = trace w ++ evs)
  /\ (exists used, gpio_in w = used ++ gpio_in w').

(** A computation that only lets the world evolve, and raises nothing but
    what [allowed] allows; [proj] finds the world in the state. *)
Definition tame {S A : Type} (proj : S -> World) (allowed : exn -> Prop)
    (m : St S A) : Prop :=
  forall s,
    evolves (proj s) (proj (snd (m s)))
    /\ forall e, fst (m s) = Raise e -> allowed e.

(** Any exception but [RuntimeError]. *)
Definition not_runtime (e : exn) : Prop := forall msg, e <> RuntimeError msg.

(** No exception at all. *)
Definition never (e : exn) : Prop := False.

(** The world of a state that is the world. *)
Definition the_world (w : World) : World := w.

(** The world of a state of the controller. *)
Definition app_world (s : AppController.t * World) : World := snd s.

(** The world with [evs] added to its trace. *)
Definition log (evs : list Event) (w : World) : World :=
  {| gpio_in := gpio_in w; clock := clock w; now := now w;
     exits_in_time := exits_in_time w; sigint := sigint w;
     display := display w; trace := trace w ++ evs |}.

(** The calls [LCDDisplay.write] makes to the driver of display [d]. *)
Definition lcd_hw (d : LCDDisplay) (line1 line2 : str) : list Event :=
  match lcd d with
  | None => []
  | Some _ =>
      HwClear
      :: (if Py.truthy line1
          then [HwCursor 0 0; HwWriteString (Py.upto (cols d) line1)] else [])
      ++ (if (1 <? rows d) && Py.truthy line2
          then [HwCursor 1 0; HwWriteString (Py.upto (cols d) line2)] else [])
  end.

(** The world with [pins] as the GPIO readings still to come. *)
Definition feed (pins : list Pins) (w : World) : World :=
  {| gpio_in := pins; clock := clock w; now := now w;
     exits_in_time := exits_in_time w; sigint := sigint w;
     display := display w; trace := trace w |}.

(** ** The selection loop *)

(** The locals of [select_one] are consistent with the options: the index is
    within the list and the name and code are those of the option at the
    index. *)
Definition in_options (options : list (str * str)) (l : LanguageSelector.locals) : Prop :=
  0 <= LanguageSelector.index l < Py.len options
  /\ nth_error options (Z.to_nat (LanguageSelector.index l))
     = Some (LanguageSelector.name l, LanguageSelector.code l).

(** The readings of one selection without rotation: [idle] throughout the
    start of [select_one] and [n] iterations of its loop, then the switch
    [pushed] for the two readings of the debounce and [idle] again. *)
Definition one_press (n : nat) (idle pushed : Pins) : list Pins :=
  repeat idle 3 ++ repeat idle (3 * n) ++ [idle; idle; pushed; pushed; idle].

(** No rotation: every reading still to come shows the CLK pin at level
    [c]. *)
Definition clk_at (s : LanguageSelector.t) (c : Z) (w : World) : Prop :=
  Forall (fun p : Pins => p (LanguageSelector.clk_pin s) = c) (gpio_in w).

(** The index of [l] is [i] and its name and code are those of [x]. *)
Definition points_at (i : Z) (x : str * str) (l : LanguageSelector.locals) : Prop :=
  LanguageSelector.index l = i
  /\ (LanguageSelector.name l, LanguageSelector.code l) = x.

(** ** What the controller keeps *)

(** The selection the controller holds: both pairs and both names. *)
Definition languages (a : AppController.t)
    : option (str * str) * option (str * str) * option str * option str :=
  (AppController.lang_a_to_b a, AppController.lang_b_to_a a,
   AppController.name_1 a, AppController.name_2 a).

(** A method of the controller that leaves [f] of the controller as it was,
    however it ends. *)
Definition keeps {X A : Type} (f : AppController.t -> X) (m : AppController.AppM A)
    : Prop :=
  forall s, f (fst (snd (m s))) = f (fst s).

(** A method after which the controller is recording only if the languages
    are those it started with. *)
Definition no_reselection_while_recording {A : Type} (m : AppController.AppM A) : Prop :=
  forall s,
    AudioRecorder.is_recording (AppController.recorder (fst (snd (m s)))) = true ->
    languages (fst (snd (m s))) = languages (fst s).

(** ** The recording session *)

(** A recorder holds a start time exactly when it holds a process. *)
Definition session_consistent (r : AudioRecorder.t) : Prop :=
  AudioRecorder._proc r = None <-> AudioRecorder._t0 r = None.

(** ** The display *)

(** The strings handed to the driver's [write_string], among the events of
    a trace. *)
Definition hw_strings (evs : list Event) : list str :=
  flat_map (fun e => match e with HwWriteString s => [s] | _ => [] end) evs.

(** [s] is the beginning of [line]. *)
Definition prefix_of (line s : str) : Prop := s = firstn (length s) line.

(** What [tick_scroll] scrolls through: the scroll text and three spaces. *)
Definition padded (d : LCDDisplay) : str := _scroll_text d ++ Py.lit "   ".

(** The scroll offset lies within the padded text. *)
Definition scroll_offset_ok (d : LCDDisplay) : Prop :=
  0 <= _scroll_offset d <= Py.len (padded d).

(** The character at position [i] of [s], a space beyond its end. *)
Definition char_at (s : str) (i : Z) : N := nth (Z.to_nat i) s 32%N.

(** ** The order of the reports *)

(** The transitions reported by a run of polls, in order. *)
Definition reported (evs : list (option ButtonEvent)) : list ButtonEvent :=
  flat_map (fun e => match e with Some x => [x] | None => [] end) evs.

(** The level read is one of the two levels of the GPIO module. *)
Definition binary (gpio : GPIO) (level : Z) : Prop :=
  level = HIGH gpio \/ level = LOW gpio.

(** ** The long press *)

(** The first element of [ts] on which [due] holds, marked among them. *)
Fixpoint first_only (due : Z -> bool) (ts : list Z) : list bool :=
  match ts with
  | [] => []
  | t :: rest =>
      if due t then true :: map (fun _ => false) rest
      else false :: first_only due rest
  end.

(** The switch stays at the accepted level and every call is enabled. *)
Definition held_steady (d : LongPressDetector.t) (samples : list (sample * bool)) : Prop :=
  Forall (fun s => snd (fst s) = LongPressDetector._stable d /\ snd s = true) samples.

(** The debouncing half of a detector, as a button on the same pin. *)
Definition as_button (d : LongPressDetector.t) : DebouncedButton.t :=
  {| DebouncedButton.pin := LongPressDetector.pin d;
     DebouncedButton.gpio := LongPressDetector.gpio d;
     DebouncedButton.active_high := LongPressDetector.active_high d;
     DebouncedButton.debounce_s := LongPressDetector.debounce_s d;
     DebouncedButton._raw_last := LongPressDetector._raw_last d;
     DebouncedButton._stable := LongPressDetector._stable d;
     DebouncedButton._raw_changed_t := LongPressDetector._raw_changed_t d |}.

(** ** The switch of the selector *)

(** Every reading still to come shows the switch at level [c]. *)
Definition sw_stays_at (s : LanguageSelector.t) (c : Z) (w : World) : Prop :=
  Forall (fun p : Pins => p (LanguageSelector.sw_pin s) = c) (gpio_in w).

(** No reading still to come shows the switch pressed. *)
Definition sw_never_pressed (s : LanguageSelector.t) (w : World) : Prop :=
  Forall (fun p : Pins =>
            LanguageSelector._sw_pressed s (p (LanguageSelector.sw_pin s)) = false)
         (gpio_in w).

(** The readings consumed between [before] and [after] end with one that
    shows the switch pressed, readings that show it still pressed, and one
    that shows it released. *)
Definition press_then_release (s : LanguageSelector.t) (before after : list Pins) : Prop :=
  exists used p_press waits p_release,
    before = used ++ p_press :: waits ++ p_release :: after
    /\ LanguageSelector._sw_pressed s (p_press (LanguageSelector.sw_pin s)) = true
    /\ Forall (fun p : Pins =>
                 LanguageSelector._sw_pressed s (p (LanguageSelector.sw_pin s)) = true)
              waits
    /\ LanguageSelector._sw_pressed s (p_release (LanguageSelector.sw_pin s)) = false.

(** ** Captures and driver calls over a run *)

(** A call to the driver of the display. *)
Definition driver_call (e : Event) : bool :=
  match e with
  | HwClear | HwCursor _ _ | HwWriteString _ => true
  | _ => false
  end.

(** The start of a capture, or the signal that ends one. *)
Definition capture_event (e : Event) : bool :=
  match e with
  | Popen _ _ _ _ | SendSigint => true
  | _ => false
  end.

(** The captures of a trace, read from a state in which one runs or none
    does: a capture is started only when none runs and signalled only when
    one runs.  The result is whether one runs at the end; there is none for
    a trace that starts a second capture or signals none. *)
Fixpoint sessions (recording : bool) (evs : list Event) : option bool :=
  match evs with
  | [] => Some recording
  | Popen _ _ _ _ :: rest => if recording then None else sessions true rest
  | SendSigint :: rest => if recording then sessions false rest else None
  | _ :: rest => sessions recording rest
  end.

(** What every object but the recorder does to the world: the display
    keeps its driver or its lack of one, no capture is started or
    signalled, and the driver is called only if there is one. *)
Definition polite {A : Type} (m : M A) : Prop :=
  forall w,
    lcd (display (snd (m w))) = lcd (display w)
    /\ exists evs,
         trace (snd (m w)) = trace w ++ evs
         /\ Forall (fun e => capture_event e = false
                             /\ (lcd (display w) = None -> driver_call e = false))
                   evs.

(** Both language pairs are set. *)
Definition selected (a : AppController.t) : Prop :=
  AppController.lang_a_to_b a <> None /\ AppController.lang_b_to_a a <> None.

(** The controller's recorder is recording. *)
Definition recording (a : AppController.t) : bool :=
  AudioRecorder.is_recording (AppController.recorder a).

(** What a method of the controller does from state [s]: the display keeps
    its driver or its lack of one; languages once selected stay selected;
    the captures of the events it adds are in order, from whether the
    controller was recording to whether it is; and without a driver there is
    no call to one. *)
Definition orderly_at {A : Type} (m : AppController.AppM A)
    (s : AppController.t * World) : Prop :=
  let s' := snd (m s) in
  lcd (display (snd s')) = lcd (display (snd s))
  /\ (selected (fst s) -> selected (fst s'))
  /\ exists evs,
       trace (snd s') = trace (snd s) ++ evs
       /\ sessions (recording (fst s)) evs = Some (recording (fst s'))
       /\ (lcd (display (snd s)) = None ->
           Forall (fun e => driver_call e = false) evs).

(* ------------------------------------------------------------------ *)
(** ** The configuration of [main.py] *)

(** Button A: pin 29, active high, a window of 50 ms; idle low. *)
Definition button_a0 : DebouncedButton.t :=
  {| DebouncedButton.pin := 29; DebouncedButton.gpio := JetsonGPIO;
     DebouncedButton.active_high := true; DebouncedButton.debounce_s := 50000;
     DebouncedButton._raw_last := 0; DebouncedButton._stable := 0;
     DebouncedButton._raw_changed_t := 0 |}.

(** The level of button A's pin, all other pins low. *)
Definition pins_a (level : Z) : Pins := fun pin => if pin =? 29 then level else 0.

(** The long-press detector on the encoder switch: pin 7, active low, a
    window of 50 ms and a hold of 2 s; idle high. *)
Definition longpress0 : LongPressDetector.t :=
  {| LongPressDetector.pin := 7; LongPressDetector.gpio := JetsonGPIO;
     LongPressDetector.long_press_s := 2000000;
     LongPressDetector.active_high := false;
     LongPressDetector.debounce_s := 50000;
     LongPressDetector._raw_last := 1; LongPressDetector._stable := 1;
     LongPressDetector._raw_changed_t := 0;
     LongPressDetector._press_start_t := None;
     LongPressDetector._fired := false |}.

(** The detector once the switch has been seen pressed, at 160 ms. *)
Definition longpress_armed : LongPressDetector.t :=
  fst (longpress_polls longpress0 [((100000, 0), true); ((160000, 0), true)]).

(** The switch released and pressed again: a release seen at 3.1 s and a
    press seen at 4.1 s. *)
Definition release_and_press : list (sample * bool) :=
  [((3000000, 1), true); ((3100000, 1), true);
   ((4000000, 0), true); ((4100000, 0), true)].

(** The 16x2 display, present and with nothing to scroll. *)
Definition lcd0 : LCDDisplay :=
  {| cols := 16; rows := 2; scroll_interval_s := 2000000;
     lcd := Some CharLCDHandle;
     _scroll_text := []; _scroll_offset := 0; _scroll_last_time := 0 |}.

(** A world in which nothing happens. *)
Definition world0 : World :=
  {| gpio_in := []; clock := []; now := 0; exits_in_time := []; sigint := [];
     display := lcd0; trace := [] |}.

(** The recorder, idle. *)
Definition recorder0 : AudioRecorder.t :=
  {| AudioRecorder.mic_device := Py.lit "plughw:CARD=Device,DEV=0";
     AudioRecorder.rate := 16000;
     AudioRecorder.fmt := Py.lit "S16_LE";
     AudioRecorder.out_dir := Py.lit "audio_files";
     AudioRecorder.filename := Py.lit "speech.wav";
     AudioRecorder._proc := None; AudioRecorder._t0 := None |}.

(** The recorder, recording since 1 s. *)
Definition recorder_busy : AudioRecorder.t :=
  AudioRecorder.with_session (Some ArecordProcess) (Some 1000000) recorder0.

(** A recorder told to write into the directory of the empty name. *)
Definition recorder_nowhere : AudioRecorder.t :=
  {| AudioRecorder.mic_device := Py.lit "plughw:CARD=Device,DEV=0";
     AudioRecorder.rate := 16000;
     AudioRecorder.fmt := Py.lit "S16_LE";
     AudioRecorder.out_dir := [];
     AudioRecorder.filename := Py.lit "speech.wav";
     AudioRecorder._proc := None; AudioRecorder._t0 := None |}.

(** A recorder told to write into a directory whose name is one NUL. *)
Definition recorder_nul : AudioRecorder.t :=
  {| AudioRecorder.mic_device := Py.lit "plughw:CARD=Device,DEV=0";
     AudioRecorder.rate := 16000;
     AudioRecorder.fmt := Py.lit "S16_LE";
     AudioRecorder.out_dir := [0%N];
     AudioRecorder.filename := Py.lit "speech.wav";
     AudioRecorder._proc := None; AudioRecorder._t0 := None |}.

(** A world whose capture process ignores SIGINT. *)
Definition world_hung : World :=
  {| gpio_in := []; clock := [4500000]; now := 0; exits_in_time := [false];
     sigint := []; display := lcd0; trace := [] |}.

(** A pipeline whose transcription hears "hello", whose translation answers
    "ciao", and whose synthesis returns the path given. *)
Definition pipeline_with (wav : option str) : TranslationPipeline.t :=
  {| TranslationPipeline.transcribe_fn := fun _ => Py.lit "hello";
     TranslationPipeline.translate_fn := fun _ _ _ => Py.lit "ciao";
     TranslationPipeline.tts := fun _ _ => wav;
     TranslationPipeline.lcd_cols := 16 |}.

(** The selector on the encoder: CLK 32, DT 33, SW 7 (active low). *)
Definition selector0 : LanguageSelector.t :=
  {| LanguageSelector.gpio := JetsonGPIO;
     LanguageSelector.clk_pin := 32; LanguageSelector.dt_pin := 33;
     LanguageSelector.sw_pin := 7;
     LanguageSelector.debounce_s := 50000; LanguageSelector.poll_s := 5000;
     LanguageSelector.sw_active_low := true |}.

(** [LANG_CHOICES] *)
Definition choices0 : list (str * str) :=
  [(Py.lit "English", Py.lit "eng_Latn");
   (Py.lit "Italian", Py.lit "ita_Latn");
   (Py.lit "Spanish", Py.lit "spa_Latn");
   (Py.lit "Portuguese", Py.lit "por_Latn");
   (Py.lit "French", Py.lit "fra_Latn")].

(** All pins high: encoder at rest, switch released. *)
Definition pins_idle : Pins := fun _ => 1.

(** The switch pushed. *)
Definition pins_pushed : Pins := fun pin => if pin =? 7 then 0 else 1.

(** CLK fallen with DT still high, and CLK fallen with DT low. *)
Definition pins_clk_first : Pins := fun pin => if pin =? 32 then 0 else 1.
Definition pins_dt_first : Pins :=
  fun pin => if (pin =? 32) || (pin =? 33) then 0 else 1.

(** The locals of a selection that stands on French, the last option. *)
Definition locals_french : LanguageSelector.locals :=
  {| LanguageSelector.index := 4;
     LanguageSelector.name := Py.lit "French";
     LanguageSelector.code := Py.lit "fra_Latn";
     LanguageSelector.last_clk := 1; LanguageSelector.last_sw := 1 |}.

(** The world with the given GPIO readings to come. *)
Definition world_reading (pins : list Pins) : World := feed pins world0.

(** Two presses without rotation, the first after one idle iteration. *)
Definition two_presses : list Pins :=
  one_press 1 pins_idle pins_pushed ++ one_press 0 pins_idle pins_pushed.

(** Button B: pin 31. *)
Definition button_b0 : DebouncedButton.t :=
  {| DebouncedButton.pin := 31; DebouncedButton.gpio := JetsonGPIO;
     DebouncedButton.active_high := true; DebouncedButton.debounce_s := 50000;
     DebouncedButton._raw_last := 0; DebouncedButton._stable := 0;
     DebouncedButton._raw_changed_t := 0 |}.

(** The controller as [build_controller] returns it: no language selected. *)
Definition app0 : AppController.t :=
  {| AppController.gpio := JetsonGPIO;
     AppController.recorder := recorder0;
     AppController.pipeline := pipeline_with (Some (Py.lit "out.wav"));
     AppController.btn_a := button_a0;
     AppController.btn_b := button_b0;
     AppController.lang_longpress := longpress0;
     AppController.selector := selector0;
     AppController.lang_choices := choices0;
     AppController.pin_btn_a := 29;
     AppController.pin_btn_b := 31;
     AppController.mic_device := Py.lit "plughw:CARD=Device,DEV=0";
     AppController.spk_device := Py.lit "plughw:CARD=Audio,DEV=0";
     AppController.rate_hz := 16000;
     AppController.poll_s := 5000;
     AppController.lang_a_to_b := None;
     AppController.lang_b_to_a := None;
     AppController.name_1 := None;
     AppController.name_2 := None |}.

(** The controller with English and Italian selected, recording, and with
    the encoder switch held since 160 ms. *)
Definition app_recording : AppController.t :=
  AppController.with_lang_longpress longpress_armed
    (AppController.with_recorder recorder_busy
       (AppController.with_languages
          ((Py.lit "eng_Latn", Py.lit "ita_Latn"),
           (Py.lit "ita_Latn", Py.lit "eng_Latn"),
           Py.lit "English", Py.lit "Italian")
          app0)).

(** Five seconds on the clock, all buttons idle and the switch still held. *)
Definition world_held : World :=
  {| gpio_in := [pins_pushed; pins_pushed; pins_pushed]; clock := [5000000; 5000000; 5000000];
     now := 0; exits_in_time := []; sigint := []; display := lcd0; trace := [] |}.

(** A world whose clock reads 4.5 s and then 7.7 s. *)
Definition world_session : World :=
  {| gpio_in := []; clock := [4500000; 7700000]; now := 0; exits_in_time := [];
     sigint := []; display := lcd0; trace := [] |}.

(** The display scrolling "ciao", drawn last at 1 s with the offset at the
    end of the padded text; and a world whose clock then reads 3.5 s. *)
Definition lcd_scrolling : LCDDisplay :=
  {| cols := 16; rows := 2; scroll_interval_s := 2000000;
     lcd := Some CharLCDHandle;
     _scroll_text := Py.lit "ciao"; _scroll_offset := 7;
     _scroll_last_time := 1000000 |}.

Definition world_scrolling : World :=
  {| gpio_in := []; clock := [3500000]; now := 0; exits_in_time := [];
     sigint := []; display := lcd_scrolling; trace := [] |}.

(** The controller with no language to choose from. *)
Definition app_no_choices : AppController.t :=
  {| AppController.gpio := JetsonGPIO;
     AppController.recorder := recorder0;
     AppController.pipeline := pipeline_with (Some (Py.lit "out.wav"));
     AppController.btn_a := button_a0;
     AppController.btn_b := button_b0;
     AppController.lang_longpress := longpress0;
     AppController.selector := selector0;
     AppController.lang_choices := [];
     AppController.pin_btn_a := 29;
     AppController.pin_btn_b := 31;
     AppController.mic_device := Py.lit "plughw:CARD=Device,DEV=0";
     AppController.spk_device := Py.lit "plughw:CARD=Audio,DEV=0";
     AppController.rate_hz := 16000;
     AppController.poll_s := 5000;
     AppController.lang_a_to_b := None;
     AppController.lang_b_to_a := None;
     AppController.name_1 := None;
     AppController.name_2 := None |}.

(** The controller with English and Italian selected, idle. *)
Definition app_selected : AppController.t :=
  AppController.with_languages
    ((Py.lit "eng_Latn", Py.lit "ita_Latn"),
     (Py.lit "ita_Latn", Py.lit "eng_Latn"),
     Py.lit "English", Py.lit "Italian")
    app0.

(** A world without a display: the readings of one iteration of the main
    loop with everything at rest, and Ctrl-C at its sleep. *)
Definition world_no_display : World :=
  {| gpio_in := [pins_idle; pins_idle; pins_idle]; clock := [];
     now := 0; exits_in_time := []; sigint := [true];
     display := {| cols := 16; rows := 2; scroll_interval_s := 2000000;
                   lcd := None;
                   _scroll_text := []; _scroll_offset := 0;
                   _scroll_last_time := 0 |};
     trace := [] |}.

(** Button A held (pin 29 high) and Ctrl-C at the first sleep, with a
    display. *)
Definition pins_a_held : Pins := fun pin => if pin =? 29 then 1 else if pin =? 7 then 1 else 0.

Definition world_interrupted : World :=
  {| gpio_in := [pins_idle; pins_idle; pins_idle]; clock := [];
     now := 0; exits_in_time := []; sigint := [true];
     display := lcd0; trace := [] |}.

(** Button A pressed with a bounce of 2 ms and held: six readings of its pin
    and the clock at each. *)
Definition world_bounce : World :=
  {| gpio_in := map pins_a [1; 0; 1; 1; 1; 1];
     clock := [100000; 101000; 102000; 103000; 160000; 170000];
     now := 0; exits_in_time := []; sigint := []; display := lcd0; trace := [] |}.

(* ------------------------------------------------------------------ *)
(** ** audio_player.py *)

(** The string methods the player uses, on strings as lists of code
    points. *)
Module PyStr.

Definition eqb (a b : str) : bool :=
  if list_eq_dec N.eq_dec a b then true else false.

(** The line boundaries of [str.splitlines]: LF, VT, FF, CR, FS, GS, RS,
    NEL, LS and PS. *)
Definition is_linebreak (c : N) : bool :=
  match c with
  | 10%N | 11%N | 12%N | 13%N | 28%N | 29%N | 30%N | 133%N | 8232%N | 8233%N => true
  | _ => false
  end.

(** [s.splitlines()], with the line read so far in [cur], reversed: the
    boundaries are dropped, CR LF is one boundary, and there is no empty
    last line. *)
Fixpoint splitlines_from (cur : str) (s : str) : list str :=
  match s with
  | [] => match cur with [] => [] | _ :: _ => [rev cur] end
  | c :: rest =>
      if is_linebreak c then
        rev cur
        :: match c, rest with
           | 13%N, 10%N :: rest' => splitlines_from [] rest'
           | _, _ => splitlines_from [] rest
           end
      else splitlines_from (c :: cur) rest
  end.

Definition splitlines (s : str) : list str := splitlines_from [] s.

(** [s.split(sep)] for a separator of one character, with the part read so
    far in [cur], reversed. *)
Fixpoint split_from (sep : N) (cur : str) (s : str) : list str :=
  match s with
  | [] => [rev cur]
  | c :: rest =>
      if N.eqb c sep then rev cur :: split_from sep [] rest
      else split_from sep (c :: cur) rest
  end.

Definition split (sep : N) (s : str) : list str := split_from sep [] s.

(** [s.startswith(a)] *)
Fixpoint startswith (a s : str) : bool :=
  match a, s with
  | [], _ => true
  | _ :: _, [] => false
  | x :: a', y :: s' => N.eqb x y && startswith a' s'
  end.

(** [a in s] *)
Fixpoint contains (a s : str) : bool :=
  startswith a s
  || match s with
     | [] => false
     | _ :: s' => contains a s'
     end.

End PyStr.

Module AudioPlayer.

Record t := {
  spk_device : option str;
  pulse_sink : option str
}.

(** [__init__]: an empty device name counts as none. *)
Definition init (spk_device pulse_sink : option str) : t :=
  {| spk_device := match spk_device with
                   | Some d => if Py.truthy d then Some d else None
                   | None => None
                   end;
     pulse_sink := pulse_sink |}.

(** The names of the sinks in the output of [pactl list short sinks]: the
    second tab-separated field of every line that has one. *)
Definition sink_names (stdout : str) : list str :=
  flat_map (fun line => match PyStr.split 9%N line with
                        | _ :: name :: _ => [name]
                        | _ => []
                        end)
           (PyStr.splitlines stdout).

(** [_resolve_pulse_sink].  [pactl] is what running [pactl list short
    sinks] gives, its return code and its output, or [None] when the
    program cannot be started and [subprocess.run] raises; the result is
    [None] when the call raises. *)
Definition _resolve_pulse_sink (p : t) (pactl : option (Z * str)) : option (option str) :=
  match pulse_sink p with
  | None => Some None
  | Some want =>
      if negb (Py.truthy want) then Some None
      else
        match pactl with
        | None => None
        | Some (returncode, stdout) =>
            if negb (returncode =? 0) then Some None
            else
              let sinks := sink_names stdout in
              if existsb (PyStr.eqb want) sinks then Some (Some want)
              else Some (find (PyStr.contains want) sinks)
        end
  end.

(** [spk_device == "pulse"] *)
Definition is_pulse (p : t) : bool :=
  match spk_device p with
  | Some d => PyStr.eqb d (Py.lit "pulse")
  | None => false
  end.

(** [play_wav], up to the call of the command: the command line, and the
    value [play_wav] assigns to [PULSE_SINK] in its copy of the environment,
    if it assigns one.  [pasuspender] is whether [shutil.which] finds that
    program; the result is [None] when [_resolve_pulse_sink] raises. *)
Definition play_wav (p : t) (wav_path : str) (pactl : option (Z * str))
    (pasuspender : bool) : option (list str * option str) :=
  match (if is_pulse p then _resolve_pulse_sink p pactl else Some None) with
  | None => None
  | Some resolved =>
      let env := match resolved with
                 | Some sink => if Py.truthy sink then Some sink else None
                 | None => None
                 end in
      let cmd := [Py.lit "aplay"] in
      let cmd := match spk_device p with
                 | Some d => if Py.truthy d then cmd ++ [Py.lit "-D"; d] else cmd
                 | None => cmd
                 end in
      let cmd := cmd ++ [wav_path] in
      let cmd := if pasuspender && negb (is_pulse p)
                 then [Py.lit "pasuspender"; Py.lit "--"] ++ cmd else cmd in
      Some (cmd, env)
  end.

End AudioPlayer.

(** ** The listing of the sinks *)

(** A character that ends no line and separates no field. *)
Definition plain_char (c : N) : bool :=
  negb (PyStr.is_linebreak c) && negb (N.eqb c 9%N).

(** One sink as [pactl list short sinks] prints it: its index, its name and
    the rest of the line, separated by tabs. *)
Record SinkRow := { row_index : str; row_name : str; row_rest : str }.

Definition well_formed (r : SinkRow) : Prop :=
  forallb plain_char (row_index r) = true
  /\ forallb plain_char (row_name r) = true
  /\ forallb (fun c => negb (PyStr.is_linebreak c)) (row_rest r) = true.

Definition print_row (r : SinkRow) : str :=
  row_index r ++ 9%N :: row_name r ++ 9%N :: row_rest r ++ [10%N].

Definition print_sinks (rows : list SinkRow) : str :=
  flat_map print_row rows.

(** [a] occurs in [s]. *)
Definition occurs_in (a s : str) : Prop := exists pre post, s = pre ++ a ++ post.

(** The player of [main.py]'s configuration for PulseAudio, and a listing of
    two sinks. *)
Definition player_pulse : AudioPlayer.t :=
  AudioPlayer.init (Some (Py.lit "pulse")) (Some (Py.lit "usb")).

Definition two_sinks : list SinkRow :=
  [{| row_index := Py.lit "0"; row_name := Py.lit "alsa_output.platform-sound";
      row_rest := Py.lit "module-alsa-card.c" |};
   {| row_index := Py.lit "1"; row_name := Py.lit "alsa_output.usb-speaker";
      row_rest := Py.lit "module-alsa-card.c" |}].

(* ------------------------------------------------------------------ *)
(** * Properties *)

(** Case analysis on the integer tests of a goal, innermost first, reusing
    the outcome of a test wherever it occurs again. *)
Ltac case_tests :=
  repeat (cbn;
    match goal with
    | E : (?a =? ?b) = _ |- context [?a =? ?b] => rewrite E
    | E : (?a <=? ?b) = _ |- context [?a <=? ?b] => rewrite E
    | E : (?a <? ?b) = _ |- context [?a <? ?b] => rewrite E
    | |- context [?a =? ?b] =>
        lazymatch a with context [if _ then _ else _] => fail | _ => idtac end;
        destruct (a =? b) eqn:?
    | |- context [?a <=? ?b] =>
        lazymatch b with context [if _ then _ else _] => fail | _ => idtac end;
        destruct (a <=? b) eqn:?
    | |- context [?a <? ?b] =>
        lazymatch b with context [if _ then _ else _] => fail | _ => idtac end;
        destruct (a <? b) eqn:?
    end).

(** ** The debounced button *)

Section Button.

Import DebouncedButton.

Lemma button_poll_at_config (b : t) (now raw : Z) :
  let b' := fst (poll_at now raw b) in
  pin b' = pin b /\ gpio b' = gpio b /\ active_high b' = active_high b
  /\ debounce_s b' = debounce_s b.
Proof.
  unfold poll_at.
  destruct (negb (raw =? _raw_last b)); cbn;
    match goal with |- context [if ?c then _ else _] => destruct c end;
    cbn; auto.
Qed.

(** What one call does, case by case. *)
Lemma button_poll_at_cases (b : t) (now raw : Z) :
  let since := if raw =? _raw_last b then _raw_changed_t b else now in
  let b' := fst (poll_at now raw b) in
  _raw_last b' = raw /\ _raw_changed_t b' = since
  /\ ((debounce_s b <= now - since /\ raw <> _stable b
       /\ snd (poll_at now raw b) = Some (event_of b raw) /\ _stable b' = raw)
      \/ (~ (debounce_s b <= now - since /\ raw <> _stable b)
          /\ snd (poll_at now raw b) = None /\ _stable b' = _stable b)).
Proof.
  unfold poll_at, event_of, _is_pressed_level.
  destruct (Z.eqb_spec raw (_raw_last b)) as [E | E]; cbn;
    [ rewrite <- E | ];
    match goal with |- context [(?x <=? ?y) && negb (?u =? ?v)] =>
      destruct (Z.leb_spec x y); destruct (Z.eqb_spec u v) end;
    cbn; repeat split; auto; try (right; repeat split; auto; lia);
    left; repeat split; auto.
Qed.

Lemma button_polls_app (b : t) (l1 l2 : list sample) :
  button_polls b (l1 ++ l2)
  = (fst (button_polls (fst (button_polls b l1)) l2),
     snd (button_polls b l1) ++ snd (button_polls (fst (button_polls b l1)) l2)).
Proof.
  revert b. induction l1 as [| [t raw] l1 IH]; intros b; cbn.
  - now destruct (button_polls b l2).
  - now rewrite IH.
Qed.

Lemma button_polls_config (b : t) (samples : list sample) :
  debounce_s (fst (button_polls b samples)) = debounce_s b.
Proof.
  revert b. induction samples as [| [now raw] rest IH]; intros b; cbn; auto.
  rewrite IH. apply (button_poll_at_config b now raw).
Qed.

Lemma run_start_snoc (first s : sample) (samples : list sample) :
  run_start first (samples ++ [s])
  = if snd s =? snd (run_start first samples)
    then run_start first samples else s.
Proof. unfold run_start. now rewrite fold_left_app. Qed.

Lemma run_start_avoids (r0 : Z) (samples : list sample) (first : sample) :
  snd first <> r0 -> Forall (fun s => snd s <> r0) samples ->
  snd (run_start first samples) <> r0.
Proof.
  unfold run_start. revert first.
  induction samples as [| s rest IH]; intros first Hf H; cbn; auto.
  apply Forall_cons_iff in H. destruct H as [Hh Ht].
  apply IH; auto. now destruct (snd s =? snd first).
Qed.

(** The button's record of the last raw change is the start of the current
    run of equal levels in the history of its samples. *)
Lemma button_polls_run_start (b : t) (samples : list sample) :
  let b' := fst (button_polls b samples) in
  (_raw_changed_t b', _raw_last b')
  = run_start (_raw_changed_t b, _raw_last b) samples.
Proof.
  revert b. induction samples as [| [now raw] rest IH]; intros b; cbn; auto.
  cbn in IH. rewrite IH.
  destruct (button_poll_at_cases b now raw) as (Hl & Hc & _).
  rewrite Hl, Hc. unfold run_start. cbn.
  destruct (Z.eqb_spec raw (_raw_last b)) as [-> | _]; reflexivity.
Qed.

(** A call that changes the raw level reports nothing when the window is
    positive. *)
Lemma poll_at_change_silent (b : t) (now raw : Z) :
  0 < debounce_s b -> raw <> _raw_last b ->
  snd (poll_at now raw b) = None /\ _stable (fst (poll_at now raw b)) = _stable b.
Proof.
  intros Hd Hr.
  destruct (button_poll_at_cases b now raw) as (_ & _ & [(Hw & _) | (_ & Hn & Hs)]); auto.
  rewrite (proj2 (Z.eqb_neq _ _) Hr) in Hw. lia.
Qed.

(** A level read during less than the window reports nothing. *)
Lemma poll_at_young_silent (b : t) (now raw : Z) :
  raw = _raw_last b -> now - _raw_changed_t b < debounce_s b ->
  snd (poll_at now raw b) = None /\ _stable (fst (poll_at now raw b)) = _stable b.
Proof.
  intros Hr Hy.
  destruct (button_poll_at_cases b now raw) as (_ & _ & [(Hw & _) | (_ & Hn & Hs)]); auto.
  rewrite Hr, Z.eqb_refl in Hw. lia.
Qed.

(** The accepted level read again reports nothing. *)
Lemma poll_at_stable_silent (b : t) (now raw : Z) :
  raw = _stable b ->
  snd (poll_at now raw b) = None /\ _stable (fst (poll_at now raw b)) = _stable b.
Proof.
  intros Hr.
  destruct (button_poll_at_cases b now raw) as (_ & _ & [(_ & Hw & _) | (_ & Hn & Hs)]); auto.
  contradiction.
Qed.

Lemma reports_silent (evs : list (option ButtonEvent)) :
  Forall (fun e => e = None) evs -> reports evs = 0%nat.
Proof.
  unfold reports. induction 1 as [| e evs He _ IH]; cbn; auto.
  now rewrite He.
Qed.

(** While the accepted level is read, nothing is reported. *)
Lemma settled_silent (samples : list sample) (b : t) :
  Forall (fun s => snd s = _stable b) samples ->
  Forall (fun e => e = None) (snd (button_polls b samples))
  /\ _stable (fst (button_polls b samples)) = _stable b.
Proof.
  revert b. induction samples as [| [now raw] rest IH]; intros b H; cbn.
  - auto.
  - apply Forall_cons_iff in H. destruct H as [Hh Ht]. cbn in Hh.
    destruct (poll_at_stable_silent b now raw Hh) as (Hn & Hs).
    destruct (IH (fst (poll_at now raw b))) as (IH1 & IH2).
    + now rewrite Hs.
    + split; [constructor; auto | congruence].
Qed.

(** Once the level has settled, at most one transition is reported, and it
    is the transition to the settled level. *)
Lemma settled_once (level : Z) (samples : list sample) (b : t) :
  Forall (fun s => snd s = level) samples ->
  (reports (snd (button_polls b samples)) <= 1)%nat
  /\ Forall (fun e => e = None \/ e = Some (event_of b level))
            (snd (button_polls b samples)).
Proof.
  revert b. induction samples as [| [now raw] rest IH]; intros b H; cbn.
  - auto.
  - apply Forall_cons_iff in H. destruct H as [Hh Ht]. cbn in Hh. subst raw.
    assert (Hev : forall b', event_of (fst (poll_at now level b)) b' = event_of b b').
    { intros b'. unfold event_of, _is_pressed_level.
      destruct (button_poll_at_config b now level) as (_ & -> & -> & _). reflexivity. }
    destruct (button_poll_at_cases b now level) as (_ & _ & [(_ & _ & He & Hs) | (_ & Hn & Hs)]).
    + (* reported now: the level is accepted, and the rest is silent *)
      rewrite He. unfold reports. cbn.
      destruct (settled_silent rest (fst (poll_at now level b))) as (Hq & _).
      { rewrite Hs. exact Ht. }
      split.
      * fold (reports (snd (button_polls (fst (poll_at now level b)) rest))).
        rewrite (reports_silent _ Hq). lia.
      * constructor; [now right |].
        eapply Forall_impl; [| exact Hq]. intros e ->. now left.
    + rewrite Hn. unfold reports. cbn.
      destruct (IH (fst (poll_at now level b)) Ht) as (IH1 & IH2).
      split; [exact IH1 |].
      constructor; [now left |].
      eapply Forall_impl; [| exact IH2]. intros e [-> | ->]; [now left | right].
      now rewrite Hev.
Qed.

(** Samples that all fall within one window after [t0] report nothing,
    provided the pending raw level, if any, is not older than [t0]. *)
Lemma window_silent (t0 : Z) (samples : list sample) (b : t) :
  _raw_last b = _stable b \/ t0 <= _raw_changed_t b ->
  Forall (fun s => t0 <= fst s < t0 + debounce_s b) samples ->
  let r := button_polls b samples in
  Forall (fun e => e = None) (snd r)
  /\ _stable (fst r) = _stable b
  /\ (_raw_last (fst r) = _stable b \/ t0 <= _raw_changed_t (fst r)).
Proof.
  revert b. induction samples as [| [now raw] rest IH]; intros b Hb H; cbn.
  - auto.
  - apply Forall_cons_iff in H. destruct H as [Hh Ht]. cbn in Hh.
    destruct (button_poll_at_cases b now raw) as (Hl & Hc & _).
    destruct (button_poll_at_config b now raw) as (_ & _ & _ & Hd).
    assert (Hq : snd (poll_at now raw b) = None
                 /\ _stable (fst (poll_at now raw b)) = _stable b).
    { destruct (Z.eq_dec raw (_raw_last b)) as [E | E].
      - destruct Hb as [Hb | Hb].
        + apply poll_at_stable_silent. congruence.
        + apply poll_at_young_silent; [exact E | lia].
      - apply poll_at_change_silent; [lia | exact E]. }
    destruct Hq as (Hn & Hs).
    destruct (IH (fst (poll_at now raw b))) as (IH1 & IH2 & IH3).
    + rewrite Hl, Hc, Hs.
      destruct (Z.eqb_spec raw (_raw_last b)) as [E | E].
      * destruct Hb as [Hb | Hb]; [left; congruence | now right].
      * right. lia.
    + now rewrite Hd.
    + rewrite Hs in IH2, IH3. repeat split; auto.
Qed.

End Button.

(** When a poll at a sample reports, after any polls before it. *)
Lemma button_poll_at_reports (b : DebouncedButton.t) (samples : list sample)
    (t raw : Z) :
  let b' := fst (button_polls b samples) in
  let since :=
    fst (run_start (DebouncedButton._raw_changed_t b, DebouncedButton._raw_last b)
           (samples ++ [(t, raw)])) in
  let r := DebouncedButton.poll_at t raw b' in
  (snd r <> None <->
   DebouncedButton.debounce_s b <= t - since /\ raw <> DebouncedButton._stable b')
  /\ (snd r <> None ->
      snd r = Some (event_of b raw) /\ DebouncedButton._stable (fst r) = raw)
  /\ (snd r = None ->
      DebouncedButton._stable (fst r) = DebouncedButton._stable b').
Proof.
  intros b' since r.
  assert (Hsince : since = if raw =? DebouncedButton._raw_last b'
                           then DebouncedButton._raw_changed_t b' else t).
  { subst since. rewrite run_start_snoc.
    rewrite <- (button_polls_run_start b samples). fold b'. cbn.
    now destruct (raw =? DebouncedButton._raw_last b'). }
  assert (Hd : DebouncedButton.debounce_s b' = DebouncedButton.debounce_s b)
    by apply button_polls_config.
  assert (Hev : event_of b' raw = event_of b raw).
  { unfold event_of, DebouncedButton._is_pressed_level. subst b'.
    clear. revert b. induction samples as [| [t' raw'] rest IH]; intros b; cbn; auto.
    rewrite IH. now destruct (button_poll_at_config b t' raw') as (_ & -> & -> & _). }
  destruct (button_poll_at_cases b' t raw) as (_ & _ & H). fold r in H.
  rewrite <- Hsince, Hd, Hev in H.
  destruct H as [(H1 & H2 & H3 & H4) | (H1 & H2 & H3)].
  + rewrite H3. repeat split; auto; congruence.
  + rewrite H2. repeat split; auto; try congruence; tauto.
Qed.

(** One call of [poll]: the clock is read, then the pin, and the rest is
    [poll_at] of the two readings. *)
Lemma button_poll_run (b : DebouncedButton.t) (w : World) (p : Pins)
    (rest : list Pins) :
  gpio_in w = p :: rest ->
  exists w1,
    DebouncedButton.poll b w
    = (Ok (DebouncedButton.poll_at (hd (now w) (clock w))
             (p (DebouncedButton.pin b)) b), w1)
    /\ gpio_in w1 = rest /\ clock w1 = tl (clock w)
    /\ now w1 = hd (now w) (clock w)
    /\ display w1 = display w /\ trace w1 = trace w.
Proof.
  intros H. unfold DebouncedButton.poll, bind, time_time, gpio_input, ret.
  destruct (clock w) as [| t later] eqn:Ec; cbn; rewrite H; cbn;
    eexists; (split; [reflexivity |]); cbn; rewrite ?Ec; auto.
Qed.

(** With no reading of the pins left, [poll] is still waiting for one. *)
Lemma button_poll_blocked (b : DebouncedButton.t) (w : World) :
  gpio_in w = [] -> fst (DebouncedButton.poll b w) = Blocked.
Proof.
  intros H. unfold DebouncedButton.poll, bind, time_time, gpio_input, ret.
  destruct (clock w) as [| t later]; cbn; rewrite H; reflexivity.
Qed.

Lemma time_time_hd (w : World) : fst (time_time w) = Ok (hd (now w) (clock w)).
Proof. unfold time_time. now destruct (clock w). Qed.

(** Calls of [poll] in a row are [button_polls] over the samples the world
    supplies. *)
Lemma poll_times_run (n : nat) :
  forall (b : DebouncedButton.t) (w : World),
    (n <= length (gpio_in w))%nat ->
    exists w1,
      poll_times n b w
      = (Ok (button_polls b (samples_of (DebouncedButton.pin b) n w)), w1)
      /\ gpio_in w1 = skipn n (gpio_in w)
      /\ display w1 = display w /\ trace w1 = trace w.
Proof.
  induction n as [| n IH]; intros b w Hn.
  - exists w. cbn. auto.
  - destruct (gpio_in w) as [| p rest] eqn:Eg; [cbn in Hn; lia |].
    destruct (button_poll_run b w p rest Eg) as (w1 & Hrun & Hg & Hc & Hnow & Hd & Ht).
    set (t := hd (now w) (clock w)) in *.
    set (r := DebouncedButton.poll_at t (p (DebouncedButton.pin b)) b) in *.
    destruct (IH (fst r) w1) as (w2 & Hrest & Hg2 & Hd2 & Ht2).
    { rewrite Hg. cbn in Hn. lia. }
    assert (Hpin : DebouncedButton.pin (fst r) = DebouncedButton.pin b)
      by apply button_poll_at_config.
    assert (Hs : samples_of (DebouncedButton.pin b) (S n) w
                 = (t, p (DebouncedButton.pin b))
                   :: samples_of (DebouncedButton.pin b) n w1).
    { unfold samples_of. rewrite Eg, Hg, Hc, Hnow. subst t.
      destruct (clock w) as [| t0 later]; reflexivity. }
    exists w2. split; [| split; [| split]].
    + cbn [poll_times]. unfold bind at 1. rewrite Hrun.
      rewrite Hpin in Hrest. unfold bind at 1. rewrite Hrest.
      rewrite Hs. reflexivity.
    + rewrite Hg2, Hg. reflexivity.
    + congruence.
    + congruence.
Qed.

(** C1. A call of [DebouncedButton.poll] reads the clock and then the pin,
    and reports a transition exactly when the level it reads has been the raw
    level for at least [debounce_s] since the last raw change and differs
    from the accepted stable level, and the event is then the one of the
    level read; calls in a row do so at each sample the world supplies.  A
    misread that is gone again when the raw level is back reports nothing,
    whatever the time of the return; and a bounce within one window followed
    by a settled level reports at most one transition, the one to the settled
    level. *)
Theorem debounced_button_poll_spec :
  (forall (b : DebouncedButton.t) (w : World) (t : Z) (p : Pins) (rest : list Pins),
      fst (time_time w) = Ok t ->
      gpio_in w = p :: rest ->
      let raw := p (DebouncedButton.pin b) in
      let since := if raw =? DebouncedButton._raw_last b
                   then DebouncedButton._raw_changed_t b else t in
      exists r w',
        DebouncedButton.poll b w = (Ok r, w')
        /\ r = DebouncedButton.poll_at t raw b
        /\ (snd r <> None <->
            DebouncedButton.debounce_s b <= t - since
            /\ raw <> DebouncedButton._stable b)
        /\ (snd r <> None ->
            snd r = Some (event_of b raw) /\ DebouncedButton._stable (fst r) = raw)
        /\ (snd r = None ->
            DebouncedButton._stable (fst r) = DebouncedButton._stable b)
        /\ gpio_in w' = rest /\ clock w' = tl (clock w)
        /\ display w' = display w /\ trace w' = trace w)
  /\ (forall (b : DebouncedButton.t) (n : nat) (w : World),
        (n <= length (gpio_in w))%nat ->
        exists w',
          poll_times n b w
          = (Ok (button_polls b (samples_of (DebouncedButton.pin b) n w)), w'))
  /\ (forall (b : DebouncedButton.t) (samples : list sample) (t raw : Z),
      let b' := fst (button_polls b samples) in
      let since :=
        fst (run_start (DebouncedButton._raw_changed_t b, DebouncedButton._raw_last b)
               (samples ++ [(t, raw)])) in
      let r := DebouncedButton.poll_at t raw b' in
      (snd r <> None <->
       DebouncedButton.debounce_s b <= t - since /\ raw <> DebouncedButton._stable b')
      /\ (snd r <> None ->
          snd r = Some (event_of b raw) /\ DebouncedButton._stable (fst r) = raw)
      /\ (snd r = None ->
          DebouncedButton._stable (fst r) = DebouncedButton._stable b'))
  /\ (forall (b : DebouncedButton.t) (t1 r1 : Z) (more : list sample) (t2 : Z),
        Forall (fun s => snd s <> DebouncedButton._raw_last b
                         /\ t1 <= fst s < t1 + DebouncedButton.debounce_s b)
               ((t1, r1) :: more) ->
        let r := button_polls b (((t1, r1) :: more) ++ [(t2, DebouncedButton._raw_last b)]) in
        Forall (fun e => e = None) (snd r)
        /\ DebouncedButton._stable (fst r) = DebouncedButton._stable b)
  /\ (forall (b : DebouncedButton.t) (t0 level : Z) (bounce settled : list sample),
        DebouncedButton._raw_last b = DebouncedButton._stable b ->
        Forall (fun s => t0 <= fst s < t0 + DebouncedButton.debounce_s b) bounce ->
        Forall (fun s => snd s = level) settled ->
        let evs := snd (button_polls b (bounce ++ settled)) in
        (reports evs <= 1)%nat
        /\ Forall (fun e => e = None \/ e = Some (event_of b level)) evs
        /\ Forall (fun e => e = None) (firstn (length bounce) evs)).
Proof.
  split; [| split; [| split; [| split]]].
  - intros b w t p rest Ht Hg raw since.
    destruct (button_poll_run b w p rest Hg) as (w1 & Hrun & Hg1 & Hc & _ & Hd & Htr).
    rewrite time_time_hd in Ht.
    assert (Et : hd (now w) (clock w) = t) by congruence.
    rewrite Et in Hrun. fold raw in Hrun.
    exists (DebouncedButton.poll_at t raw b), w1.
    split; [exact Hrun |]. split; [reflexivity |].
    destruct (button_poll_at_cases b t raw) as (_ & _ & H). fold since in H.
    destruct H as [(H1 & H2 & H3 & H4) | (H1 & H2 & H3)].
    + rewrite H3. repeat split; auto; congruence.
    + rewrite H2. repeat split; auto; try congruence; tauto.
  - intros b n w Hn.
    destruct (poll_times_run n b w Hn) as (w1 & Hrun & _). now exists w1.
  - exact button_poll_at_reports.
  - intros b t1 r1 more t2 H r.
    apply Forall_cons_iff in H. destruct H as [(Hr1 & Hw1) Hmore]. cbn in Hr1, Hw1.
    subst r. cbn [app button_polls fst snd].
    destruct (poll_at_change_silent b t1 r1 ltac:(lia) Hr1) as (Hn1 & Hs1).
    destruct (button_poll_at_cases b t1 r1) as (Hl1 & Hc1 & _).
    destruct (button_poll_at_config b t1 r1) as (_ & _ & _ & Hd1).
    rewrite (proj2 (Z.eqb_neq _ _) Hr1) in Hc1.
    set (b1 := fst (DebouncedButton.poll_at t1 r1 b)) in *.
    rewrite button_polls_app. cbn [fst snd].
    destruct (window_silent t1 more b1) as (Hq & Hs & _).
    { right. lia. }
    { rewrite Hd1. eapply Forall_impl; [| exact Hmore]. cbn. tauto. }
    set (b2 := fst (button_polls b1 more)) in *.
    assert (Hlast : DebouncedButton._raw_last b2 <> DebouncedButton._raw_last b).
    { pose proof (button_polls_run_start b1 more) as Hrs. cbn in Hrs. fold b2 in Hrs.
      assert (G : snd (run_start (DebouncedButton._raw_changed_t b1,
                                  DebouncedButton._raw_last b1) more)
                  <> DebouncedButton._raw_last b).
      { apply run_start_avoids; [cbn; now rewrite Hl1 |].
        eapply Forall_impl; [| exact Hmore]. cbn. tauto. }
      rewrite <- Hrs in G. exact G. }
    assert (Hd2 : DebouncedButton.debounce_s b2 = DebouncedButton.debounce_s b).
    { subst b2. rewrite button_polls_config. exact Hd1. }
    destruct (poll_at_change_silent b2 t2 (DebouncedButton._raw_last b)
                ltac:(lia) ltac:(congruence)) as (Hn2 & Hs2).
    cbn. rewrite Hn1, Hn2. split.
    + constructor; auto. apply Forall_app. split; auto.
    + congruence.
  - intros b t0 level bounce settled Hb Hw Hl evs. subst evs.
    rewrite button_polls_app. cbn [snd].
    destruct (window_silent t0 bounce b (or_introl Hb) Hw) as (Hq & _ & _).
    set (b1 := fst (button_polls b bounce)) in *.
    destruct (settled_once level settled b1 Hl) as (Hone & Hto).
    assert (Hlen : length (snd (button_polls b bounce)) = length bounce).
    { clear. revert b. induction bounce as [| [t' r'] rest IH]; intros b; cbn; auto. }
    assert (Hev : event_of b1 level = event_of b level).
    { unfold event_of, DebouncedButton._is_pressed_level. subst b1.
      clear. revert b. induction bounce as [| [t' raw'] rest IH]; intros b; cbn; auto.
      rewrite IH. now destruct (button_poll_at_config b t' raw') as (_ & -> & -> & _). }
    repeat split.
    + unfold reports in *. rewrite filter_app, length_app.
      fold (reports (snd (button_polls b bounce))). rewrite (reports_silent _ Hq). lia.
    + apply Forall_app. split.
      * eapply Forall_impl; [| exact Hq]. intros e ->. now left.
      * rewrite <- Hev. exact Hto.
    + rewrite <- Hlen, firstn_app, Nat.sub_diag, firstn_all. cbn.
      now rewrite app_nil_r.
Qed.

Lemma debounced_button_poll_spec_witness :
  (* one call, and six in a row, on a press that bounces for 2 ms *)
  (exists w',
      DebouncedButton.poll button_a0 world_bounce
      = (Ok (DebouncedButton.poll_at 100000 1 button_a0), w')
      /\ gpio_in w' = map pins_a [0; 1; 1; 1; 1])
  /\ ((6 <= length (gpio_in world_bounce))%nat
      /\ exists b' w',
           poll_times 6%nat button_a0 world_bounce
           = (Ok (b', [None; None; None; None; Some pressed; None]), w'))
  (* a misread of 20 ms *)
  /\ (let glitch := [(100000, 1); (110000, 1)] in
      Forall (fun s => snd s <> 0 /\ 100000 <= fst s < 100000 + 50000) glitch
      /\ Forall (fun e => e = None)
           (snd (button_polls button_a0 (glitch ++ [(120000, 0)]))))
  (* a press that bounces for 2 ms and is held *)
  /\ (let bounce := [(100000, 1); (101000, 0); (102000, 1)] in
      let settled := [(103000, 1); (160000, 1); (170000, 1)] in
      Forall (fun s => 100000 <= fst s < 100000 + 50000) bounce
      /\ Forall (fun s => snd s = 1) settled
      /\ (reports (snd (button_polls button_a0 (bounce ++ settled))) <= 1)%nat
      /\ snd (button_polls button_a0 (bounce ++ settled))
         = [None; None; None; None; Some pressed; None]).
Proof.
  destruct debounced_button_poll_spec as (Hpoll & Htimes & _ & Hglitch & Hbounce).
  split; [| split; [| split]].
  - destruct (Hpoll button_a0 world_bounce 100000 (pins_a 1)
                (map pins_a [0; 1; 1; 1; 1]) eq_refl eq_refl)
      as (r & w' & Hrun & Hr & _ & _ & _ & Hg & _).
    exists w'. rewrite Hrun, Hr. split; [reflexivity | exact Hg].
  - assert (Hn : (6 <= length (gpio_in world_bounce))%nat) by (cbn; lia).
    split; [exact Hn |].
    destruct (Htimes button_a0 6%nat world_bounce Hn) as (w' & Hrun).
    exists (fst (button_polls button_a0 (samples_of 29 6%nat world_bounce))), w'.
    rewrite Hrun. reflexivity.
  - intros glitch.
    assert (H : Forall (fun s => snd s <> 0 /\ 100000 <= fst s < 100000 + 50000) glitch)
      by (repeat constructor; cbn; lia).
    split; [exact H |].
    exact (proj1 (Hglitch button_a0 100000 1 [(110000, 1)] 120000 H)).
  - intros bounce settled.
    assert (Hb : Forall (fun s => 100000 <= fst s < 100000 + 50000) bounce)
      by (repeat constructor; cbn; lia).
    assert (Hs : Forall (fun s => snd s = 1) settled)
      by (repeat constructor).
    split; [exact Hb |]. split; [exact Hs |]. split.
    + exact (proj1 (Hbounce button_a0 100000 1 bounce settled eq_refl Hb Hs)).
    + reflexivity.
Defined.

(** ** The long-press detector *)

Section LongPress.

Import LongPressDetector.

Lemma same_config_pressed (d d' : t) (level : Z) :
  same_config d d' -> _is_pressed_level d' level = _is_pressed_level d level.
Proof. intros (_ & Hg & _ & Ha & _). unfold _is_pressed_level. now rewrite Hg, Ha. Qed.

Lemma pressed_level_config (d d' : t) (level : Z) :
  active_high d' = active_high d -> gpio d' = gpio d ->
  _is_pressed_level d' level = _is_pressed_level d level.
Proof. intros Ha Hg. unfold _is_pressed_level. now rewrite Ha, Hg. Qed.

(** The first half of a call, with its tests put on the detector it
    starts from. *)
Lemma debounce_at_eq (d : t) (now raw : Z) :
  debounce_at now raw d
  = let d1 := if negb (raw =? _raw_last d) then with_raw raw now d else d in
    if (debounce_s d <=? now - _raw_changed_t d1) && negb (raw =? _stable d)
    then
      if _is_pressed_level d raw && negb (_is_pressed_level d (_stable d))
      then with_hold (Some now) false (with_stable raw d1)
      else if negb (_is_pressed_level d raw) && _is_pressed_level d (_stable d)
           then with_hold None false (with_stable raw d1)
           else with_stable raw d1
    else d1.
Proof.
  unfold debounce_at. cbv zeta.
  set (d1 := if negb (raw =? _raw_last d) then with_raw raw now d else d).
  assert (Hcfg : active_high d1 = active_high d /\ gpio d1 = gpio d
                 /\ debounce_s d1 = debounce_s d /\ _stable d1 = _stable d).
  { subst d1. destruct (negb (raw =? _raw_last d)); cbn; auto. }
  destruct Hcfg as (Ha & Hg & Hd & Hs). rewrite Hd, Hs.
  destruct ((debounce_s d <=? now - _raw_changed_t d1) && negb (raw =? _stable d));
    [| reflexivity].
  cbn [_stable with_stable].
  rewrite !(pressed_level_config d (with_stable raw d1)) by (cbn; assumption).
  destruct (_is_pressed_level d raw) eqn:E1;
    destruct (_is_pressed_level d (_stable d)) eqn:E2; cbn [andb negb];
    cbn [_stable with_stable with_hold];
    rewrite ?(pressed_level_config d (with_hold (Some now) false (with_stable raw d1)))
      by (cbn; assumption);
    rewrite ?(pressed_level_config d (with_stable raw d1)) by (cbn; assumption);
    rewrite ?E1, ?E2; reflexivity.
Qed.

(** The first half of a call, by the debounced edge it sees. *)
Lemma longpress_debounce_at_cases (d : t) (now raw : Z) :
  let d1 := debounce_at now raw d in
  same_config d d1
  /\ ((debounced_edge now raw d = Some pressed
       /\ _is_pressed_level d (_stable d) = false
       /\ _is_pressed_level d (_stable d1) = true
       /\ _press_start_t d1 = Some now /\ _fired d1 = false)
      \/ (debounced_edge now raw d = Some released
          /\ _is_pressed_level d (_stable d) = true
          /\ _is_pressed_level d (_stable d1) = false
          /\ _press_start_t d1 = None /\ _fired d1 = false)
      \/ (debounced_edge now raw d = None
          /\ _is_pressed_level d (_stable d1) = _is_pressed_level d (_stable d)
          /\ _press_start_t d1 = _press_start_t d /\ _fired d1 = _fired d)).
Proof.
  unfold debounced_edge. rewrite debounce_at_eq. cbv zeta.
  set (d0 := if negb (raw =? _raw_last d) then with_raw raw now d else d).
  assert (H0 : same_config d d0 /\ _stable d0 = _stable d
               /\ _press_start_t d0 = _press_start_t d /\ _fired d0 = _fired d).
  { subst d0. unfold same_config. destruct (negb (raw =? _raw_last d)); cbn; auto 10. }
  destruct H0 as (Hc & Hs & Hp & Hf).
  assert (Hc' : forall a b, same_config d (with_hold a b (with_stable raw d0))).
  { intros a b. unfold same_config in *. cbn. exact Hc. }
  assert (Hc'' : same_config d (with_stable raw d0)).
  { unfold same_config in *. cbn. exact Hc. }
  destruct ((debounce_s d <=? now - _raw_changed_t d0) && negb (raw =? _stable d)).
  - destruct (_is_pressed_level d raw) eqn:E1;
      destruct (_is_pressed_level d (_stable d)) eqn:E2; cbn [andb negb];
      cbn [_stable _press_start_t _fired with_stable with_hold];
      rewrite ?E1, ?E2; cbn [andb negb];
      (split; [auto |]); auto 10.
  - rewrite Hs, Hp, Hf.
    destruct (_is_pressed_level d (_stable d)); cbn [andb negb]; auto 10.
Qed.

(** A whole call. *)
Lemma longpress_poll_at_cases (d : t) (now raw : Z) (enabled : bool) :
  let d1 := debounce_at now raw d in
  let r := poll_at now raw enabled d in
  same_config d (fst r) /\ _stable (fst r) = _stable d1
  /\ ((enabled = false /\ snd r = false
       /\ _press_start_t (fst r) = None /\ _fired (fst r) = false)
      \/ (enabled = true /\ snd r = true
          /\ _fired d1 = false /\ _is_pressed_level d (_stable d1) = true
          /\ (exists start, _press_start_t d1 = Some start
                            /\ long_press_s d <= now - start)
          /\ _press_start_t (fst r) = _press_start_t d1 /\ _fired (fst r) = true)
      \/ (enabled = true /\ snd r = false /\ fst r = d1)).
Proof.
  intros d1 r.
  destruct (longpress_debounce_at_cases d now raw) as (Hc & _). fold d1 in Hc.
  pose proof (same_config_pressed d d1 (_stable d1) Hc) as Hp.
  destruct Hc as (Hc1 & Hc2 & Hc3 & Hc4 & Hc5).
  subst r. unfold poll_at. fold d1.
  assert (Hsc : same_config d d1) by (unfold same_config; auto).
  destruct enabled; cbn [negb].
  - destruct (_press_start_t d1) as [start |] eqn:Es; [| cbn; intuition congruence].
    destruct (_fired d1) eqn:Ef; cbn [negb andb]; [cbn; intuition congruence |].
    rewrite Hp, Hc3.
    destruct (_is_pressed_level d (_stable d1)) eqn:Epr; cbn [andb]; [| cbn; intuition congruence].
    destruct (Z.leb_spec (long_press_s d) (now - start)); cbn; [| intuition congruence].
    split; [unfold same_config; auto |]. split; [reflexivity |].
    right; left. repeat split; auto. now exists start.
  - cbn. intuition congruence.
Qed.

(** After a fire, no call fires until the debounced level has left the
    pressed level; the call that sees it leave drops the timer. *)
Lemma spent_step (d : t) (now raw : Z) (enabled : bool) :
  spent d ->
  let r := poll_at now raw enabled d in
  snd r = false
  /\ ((debounced_edge now raw d = None /\ spent (fst r))
      \/ (debounced_edge now raw d = Some released /\ unarmed (fst r))).
Proof.
  intros (Hp & Hf) r.
  destruct (longpress_debounce_at_cases d now raw) as (_ & H).
  destruct (longpress_poll_at_cases d now raw enabled) as (Hc & Hs & H'). fold r in Hc, Hs, H'.
  pose proof (same_config_pressed d (fst r) (_stable (fst r)) Hc) as Hpr.
  unfold spent, unarmed. rewrite Hpr, Hs.
  destruct H as [(_ & Hw & _) | [(He & _ & Hi & Hst & Hfi) | (He & Hi & Hst & Hfi)]].
  - congruence.
  - destruct H' as [(_ & Hr & Hst' & _) | [(_ & _ & _ & Hx & _) | (_ & Hr & Hd)]].
    + split; auto.
    + congruence.
    + split; auto. right. split; auto. now rewrite Hd.
  - destruct H' as [(_ & Hr & Hst' & Hf') | [(_ & _ & Hnf & _ & (st & Hst' & _) & _)
                                           | (_ & Hr & Hd)]].
    + split; auto. left. repeat split; auto. congruence.
    + destruct Hf; congruence.
    + split; auto. left. rewrite Hd. repeat split; auto; congruence.
Qed.

(** Without a timer no call fires until a call sees the debounced level
    enter the pressed level. *)
Lemma unarmed_step (d : t) (now raw : Z) (enabled : bool) :
  unarmed d ->
  let r := poll_at now raw enabled d in
  debounced_edge now raw d = Some pressed
  \/ (snd r = false /\ unarmed (fst r)).
Proof.
  intros Hu r. unfold unarmed in *.
  destruct (longpress_debounce_at_cases d now raw) as (_ & H).
  destruct (longpress_poll_at_cases d now raw enabled) as (_ & _ & H'). fold r in H'.
  destruct H as [(He & _) | [(He & _ & Hi & Hst & Hfi) | (He & Hi & Hst & Hfi)]].
  - now left.
  - right.
    destruct H' as [(_ & Hr & Hst' & _) | [(_ & _ & _ & _ & (st & Hst' & _) & _)
                                          | (_ & Hr & Hd)]];
      [auto | congruence | rewrite Hd; auto].
  - right.
    destruct H' as [(_ & Hr & Hst' & _) | [(_ & _ & _ & _ & (st & Hst' & _) & _)
                                          | (_ & Hr & Hd)]];
      [auto | congruence | rewrite Hd; split; auto; congruence].
Qed.

(** A call that fires leaves the hold spent. *)
Lemma fired_spent (d : t) (now raw : Z) (enabled : bool) :
  snd (poll_at now raw enabled d) = true -> spent (fst (poll_at now raw enabled d)).
Proof.
  intros Hr.
  destruct (longpress_poll_at_cases d now raw enabled) as (Hc & Hs & H').
  pose proof (same_config_pressed d _ (_stable (fst (poll_at now raw enabled d))) Hc) as Hp.
  unfold spent. rewrite Hp, Hs.
  destruct H' as [(_ & Hr' & _) | [(_ & _ & _ & Hpr & _ & _ & Hf) | (_ & Hr' & _)]];
    try congruence.
  auto.
Qed.

Lemma longpress_polls_app (d : t) (l1 l2 : list (sample * bool)) :
  longpress_polls d (l1 ++ l2)
  = (fst (longpress_polls (fst (longpress_polls d l1)) l2),
     snd (longpress_polls d l1) ++ snd (longpress_polls (fst (longpress_polls d l1)) l2)).
Proof.
  revert d. induction l1 as [| [[t raw] en] l1 IH]; intros d; cbn.
  - now destruct (longpress_polls d l2).
  - now rewrite IH.
Qed.

Lemma longpress_polls_config (d : t) (samples : list (sample * bool)) :
  same_config d (fst (longpress_polls d samples)).
Proof.
  revert d. induction samples as [| [[now raw] en] rest IH]; intros d; cbn.
  - unfold same_config. auto.
  - destruct (longpress_poll_at_cases d now raw en) as ((H1 & H2 & H3 & H4 & H5) & _).
    destruct (IH (fst (poll_at now raw en d))) as (I1 & I2 & I3 & I4 & I5).
    unfold same_config. repeat split; congruence.
Qed.

(** From a state without a timer, a fire has a press edge at or before it. *)
Lemma unarmed_fire_needs_press (samples : list (sample * bool)) (d : t) :
  unarmed d ->
  Exists (fun p => poll_fired p = true) (snd (longpress_polls d samples)) ->
  exists l2 q2 l3,
    snd (longpress_polls d samples) = l2 ++ q2 :: l3 /\ poll_edge q2 = Some pressed.
Proof.
  revert d. induction samples as [| [[now raw] en] rest IH]; intros d Hu Hex; cbn in *.
  - inversion Hex.
  - destruct (unarmed_step d now raw en Hu) as [He | (Hr & Hu')].
    + exists [], (now, debounced_edge now raw d, snd (poll_at now raw en d)),
        (snd (longpress_polls (fst (poll_at now raw en d)) rest)).
      split; auto.
    + apply Exists_cons in Hex. destruct Hex as [Hex | Hex].
      * unfold poll_fired in Hex. cbn in Hex. congruence.
      * destruct (IH _ Hu' Hex) as (l2 & q2 & l3 & E & Hq).
        exists ((now, debounced_edge now raw d, snd (poll_at now raw en d)) :: l2), q2, l3.
        rewrite E. split; auto.
Qed.

(** From a spent hold, a fire has a release edge and then a press edge at
    or before it. *)
Lemma spent_fire_needs_release_press (samples : list (sample * bool)) (d : t) :
  spent d ->
  Exists (fun p => poll_fired p = true) (snd (longpress_polls d samples)) ->
  exists l1 q1 l2 q2 l3,
    snd (longpress_polls d samples) = l1 ++ q1 :: l2 ++ q2 :: l3
    /\ poll_edge q1 = Some released /\ poll_edge q2 = Some pressed.
Proof.
  revert d. induction samples as [| [[now raw] en] rest IH]; intros d Hsp Hex; cbn in *.
  - inversion Hex.
  - destruct (spent_step d now raw en Hsp) as (Hr & Hnext).
    apply Exists_cons in Hex. destruct Hex as [Hex | Hex].
    { unfold poll_fired in Hex. cbn in Hex. congruence. }
    destruct Hnext as [(He & Hsp') | (He & Hu')].
    + destruct (IH _ Hsp' Hex) as (l1 & q1 & l2 & q2 & l3 & E & Hq1 & Hq2).
      exists ((now, debounced_edge now raw d, snd (poll_at now raw en d)) :: l1),
        q1, l2, q2, l3.
      rewrite E. auto.
    + destruct (unarmed_fire_needs_press rest _ Hu' Hex) as (l2 & q2 & l3 & E & Hq2).
      exists [], (now, debounced_edge now raw d, snd (poll_at now raw en d)), l2, q2, l3.
      rewrite E. auto.
Qed.

(** The timer of a detector dates from the last press edge it has seen,
    and no edge has been seen since. *)
Lemma timer_dates_from_press (samples : list (sample * bool)) (d : t) (start : Z) :
  _press_start_t (fst (longpress_polls d samples)) = Some start ->
  (_press_start_t d = Some start
   /\ Forall (fun p => poll_edge p = None) (snd (longpress_polls d samples)))
  \/ exists l1 q l2,
       snd (longpress_polls d samples) = l1 ++ q :: l2
       /\ poll_edge q = Some pressed /\ poll_time q = start
       /\ Forall (fun p => poll_edge p = None) l2.
Proof.
  revert d. induction samples as [| [[now raw] en] rest IH]; intros d Hs; cbn in *.
  - left. auto.
  - set (q0 := (now, debounced_edge now raw d, snd (poll_at now raw en d))).
    destruct (IH _ Hs) as [(Hst & Hq) | (l1 & q & l2 & E & Hq1 & Hq2 & Hq3)].
    + destruct (longpress_debounce_at_cases d now raw) as (_ & H).
      destruct (longpress_poll_at_cases d now raw en) as (_ & _ & H').
      assert (Hst1 : _press_start_t (debounce_at now raw d) = Some start).
      { destruct H' as [(_ & _ & Hn & _) | [(_ & _ & _ & _ & _ & Hk & _) | (_ & _ & Hd)]];
          congruence. }
      destruct H as [(He & _ & _ & Hst' & _) | [(_ & _ & _ & Hst' & _) | (He & _ & Hst' & _)]].
      * right. exists [], q0, (snd (longpress_polls (fst (poll_at now raw en d)) rest)).
        repeat split; auto. unfold poll_time, q0. cbn. congruence.
      * congruence.
      * left. split; [congruence |]. constructor; auto.
    + right. exists (q0 :: l1), q, l2. rewrite E. auto.
Qed.

End LongPress.

(** C2. Once [LongPressDetector.poll] has returned true, a later call returns
    true only after a call that saw the debounced release and a later one
    that saw the debounced press again; a call with [enabled=false] returns
    false and drops the hold timer; and a call that fires after one with
    [enabled=false] comes at least [long_press_s] after a debounced press
    seen since, with no debounced edge in between. *)
Theorem long_press_once_per_hold :
  (forall (d : LongPressDetector.t) (t1 raw1 : Z) (en1 : bool)
          (samples : list (sample * bool)) (t2 raw2 : Z) (en2 : bool),
      let r1 := LongPressDetector.poll_at t1 raw1 en1 d in
      let d' := fst (longpress_polls (fst r1) samples) in
      snd r1 = true ->
      snd (LongPressDetector.poll_at t2 raw2 en2 d') = true ->
      exists l1 q1 l2 q2 l3,
        snd (longpress_polls (fst r1) (samples ++ [((t2, raw2), en2)]))
        = l1 ++ q1 :: l2 ++ q2 :: l3
        /\ poll_edge q1 = Some released /\ poll_edge q2 = Some pressed)
  /\ (forall (d : LongPressDetector.t) (t raw : Z),
        let r := LongPressDetector.poll_at t raw false d in
        snd r = false
        /\ LongPressDetector._press_start_t (fst r) = None
        /\ LongPressDetector._fired (fst r) = false)
  /\ (forall (d0 : LongPressDetector.t) (t0 raw0 : Z)
             (samples : list (sample * bool)) (t2 raw2 : Z) (en2 : bool),
        let d := fst (LongPressDetector.poll_at t0 raw0 false d0) in
        let d' := fst (longpress_polls d samples) in
        snd (LongPressDetector.poll_at t2 raw2 en2 d') = true ->
        exists l1 q l2,
          snd (longpress_polls d (samples ++ [((t2, raw2), en2)])) = l1 ++ q :: l2
          /\ poll_edge q = Some pressed
          /\ LongPressDetector.long_press_s d0 <= t2 - poll_time q
          /\ Forall (fun p => poll_edge p = None) l2).
Proof.
  split; [| split].
  - intros d t1 raw1 en1 samples t2 raw2 en2 r1 d' H1 H2.
    apply spent_fire_needs_release_press.
    + apply fired_spent. exact H1.
    + rewrite longpress_polls_app. cbn [snd]. apply Exists_app. right.
      fold d'. cbn. apply Exists_cons_hd. exact H2.
  - intros d t raw r.
    destruct (longpress_poll_at_cases d t raw false) as (_ & _ & H). fold r in H.
    destruct H as [(_ & H) | [(H & _) | (H & _)]]; [exact H | discriminate ..].
  - intros d0 t0 raw0 samples t2 raw2 en2 d d' H2.
    assert (Hd : LongPressDetector._press_start_t d = None).
    { destruct (longpress_poll_at_cases d0 t0 raw0 false) as (_ & _ & H).
      destruct H as [(_ & _ & H & _) | [(H & _) | (H & _)]]; [exact H | discriminate ..]. }
    assert (Hlps : LongPressDetector.long_press_s d' = LongPressDetector.long_press_s d0).
    { destruct (longpress_polls_config d samples) as (_ & _ & E & _). fold d' in E.
      destruct (longpress_poll_at_cases d0 t0 raw0 false) as ((_ & _ & E' & _) & _).
      fold d in E'. congruence. }
    rewrite longpress_polls_app. cbn [snd]. fold d'. cbn [longpress_polls snd fst].
    set (q2 := (t2, debounced_edge t2 raw2 d', snd (LongPressDetector.poll_at t2 raw2 en2 d'))).
    destruct (longpress_poll_at_cases d' t2 raw2 en2) as (_ & _ & H).
    destruct H as [(_ & H & _) | [(_ & _ & _ & _ & (start & Hst & Hlong) & _) | (_ & H & _)]];
      try congruence.
    rewrite Hlps in Hlong.
    destruct (longpress_debounce_at_cases d' t2 raw2) as (_ & H).
    destruct H as [(He & _ & _ & Hst' & _) | [(_ & _ & _ & Hst' & _) | (He & _ & Hst' & _)]].
    + exists (snd (longpress_polls d samples)), q2, [].
      repeat split; auto. unfold poll_time, q2. cbn. assert (start = t2) by congruence. lia.
    + congruence.
    + rewrite Hst in Hst'. symmetry in Hst'.
      destruct (timer_dates_from_press samples d start Hst')
        as [(Hc & _) | (l1 & q & l2 & E & Hq1 & Hq2 & Hq3)]; [congruence |].
      exists l1, q, (l2 ++ [q2]). rewrite E, <- app_assoc. cbn.
      repeat split; auto; [lia |].
      apply Forall_app. split; auto.
Qed.

Lemma long_press_once_per_hold_witness :
  (* a hold that fires at 2.2 s, and the next fire at 6.2 s *)
  (snd (LongPressDetector.poll_at 2200000 0 true longpress_armed) = true
   /\ exists l1 q1 l2 q2 l3,
       snd (longpress_polls
              (fst (LongPressDetector.poll_at 2200000 0 true longpress_armed))
              (release_and_press ++ [((6200000, 0), true)]))
       = l1 ++ q1 :: l2 ++ q2 :: l3
       /\ poll_edge q1 = Some released /\ poll_edge q2 = Some pressed)
  (* a hold cut by a disabled call at 1 s *)
  /\ (exists l1 q l2,
         snd (longpress_polls
                (fst (LongPressDetector.poll_at 1000000 0 false longpress_armed))
                (release_and_press ++ [((6200000, 0), true)]))
         = l1 ++ q :: l2
         /\ poll_edge q = Some pressed
         /\ 2000000 <= 6200000 - poll_time q
         /\ Forall (fun p => poll_edge p = None) l2).
Proof.
  destruct long_press_once_per_hold as (Honce & _ & Hfresh).
  split; [split |].
  - reflexivity.
  - exact (Honce longpress_armed 2200000 0 true release_and_press 6200000 0 true
             eq_refl eq_refl).
  - exact (Hfresh longpress_armed 1000000 0 release_and_press 6200000 0 true eq_refl).
Defined.

(** ** Straight-line facts *)

Lemma bind_ok {S A B : Type} (m : St S A) (k : A -> St S B) (s s' : S) (b : B) :
  bind m k s = (Ok b, s') ->
  exists a s1, m s = (Ok a, s1) /\ k a s1 = (Ok b, s').
Proof.
  unfold bind. destruct (m s) as [[a | e |] s1]; intros H; try discriminate.
  now exists a, s1.
Qed.

Lemma bind_run {S A B : Type} (m : St S A) (k : A -> St S B) (s s1 : S) (a : A) :
  m s = (Ok a, s1) -> bind m k s = k a s1.
Proof. unfold bind. now intros ->. Qed.

(** [LCDDisplay.write] returns, and adds to the trace its own call and the
    calls to the driver. *)
Lemma lcd_write_run (line1 line2 : str) (w : World) :
  LCD.write line1 line2 w
  = (Ok tt, log (LcdWrite line1 line2 :: lcd_hw (display w) line1 line2) w).
Proof.
  destruct w as [pins ticks t0 exits ints [c r interval hw text offset last] tr].
  unfold LCD.write, lcd_hw, log, bind, ret, emit, get_display. cbn.
  destruct hw; cbn; [| reflexivity].
  destruct (Py.truthy line1); cbn; destruct ((1 <? r) && Py.truthy line2); cbn;
    repeat (rewrite <- app_assoc; cbn [app]); reflexivity.
Qed.

Lemma emit_run (e : Event) (w : World) : emit e w = (Ok tt, log [e] w).
Proof. reflexivity. Qed.

Lemma log_log (a b : list Event) (w : World) : log b (log a w) = log (a ++ b) w.
Proof. unfold log. cbn. now rewrite app_assoc. Qed.

Lemma set_scroll_text_run (text : str) (w : World) :
  exists w1,
    LCD.set_scroll_text text w = (Ok tt, w1)
    /\ gpio_in w1 = gpio_in w /\ trace w1 = trace w
    /\ lcd (display w1) = lcd (display w)
    /\ cols (display w1) = cols (display w)
    /\ rows (display w1) = rows (display w)
    /\ _scroll_text (display w1) = text /\ _scroll_offset (display w1) = 0.
Proof.
  unfold LCD.set_scroll_text, bind, get_display, time_time.
  destruct (clock w) as [| t rest]; eexists; (split; [reflexivity |]); cbn; auto 10.
Qed.

Lemma lcd_hw_frame (d d' : LCDDisplay) (line1 line2 : str) :
  lcd d' = lcd d -> cols d' = cols d -> rows d' = rows d ->
  lcd_hw d' line1 line2 = lcd_hw d line1 line2.
Proof. intros Hl Hc Hr. unfold lcd_hw. now rewrite Hl, Hc, Hr. Qed.

(** The driver calls of a write are no call of [write] and no call of a
    collaborator. *)
Lemma lcd_hw_quiet (d : LCDDisplay) (line1 line2 : str) :
  lcd_writes (lcd_hw d line1 line2) = []
  /\ collaborator_calls (lcd_hw d line1 line2) = []
  /\ playbacks (lcd_hw d line1 line2) = [].
Proof.
  unfold lcd_hw. destruct (lcd d); [| auto].
  destruct (Py.truthy line1); destruct ((1 <? rows d) && Py.truthy line2); cbn; auto.
Qed.

Lemma truthy_nonempty {A : Type} (l : list A) : l <> [] -> Py.truthy l = true.
Proof. destruct l; [congruence | reflexivity]. Qed.

(** One step of a sequence whose first call is known to return. *)
Ltac step H := rewrite (bind_run _ _ _ _ _ H); cbv beta.

(** ** The recording session *)

(** C3. [AudioRecorder.stop] on an idle recorder returns [0.0] and does
    nothing: the recorder and the world, with its trace of signals, are as
    before.  On any recorder and whatever the capture process does, it
    returns and leaves the recorder idle; when it was recording, the process
    gets SIGINT and a bounded wait, and a kill and a second wait exactly when
    the first wait timed out. *)
Theorem recorder_stop_leaves_idle :
  (forall (r : AudioRecorder.t) (timeout_s : Z) (w : World),
      AudioRecorder.is_recording r = false ->
      AudioRecorder.stop r timeout_s w = (Ok (r, 0), w))
  /\ (forall (r : AudioRecorder.t) (timeout_s : Z) (w : World),
        exists r' dur w',
          AudioRecorder.stop r timeout_s w = (Ok (r', dur), w')
          /\ AudioRecorder.is_recording r' = false
          /\ (AudioRecorder.is_recording r = true ->
              trace w'
              = trace w
                ++ (if hd true (exits_in_time w)
                    then [SendSigint; Wait (Some timeout_s)]
                    else [SendSigint; Wait (Some timeout_s); Kill; Wait None]))).
Proof.
  split.
  - intros r timeout_s w H. unfold AudioRecorder.stop, AudioRecorder.is_recording in *.
    destruct (AudioRecorder._proc r); [discriminate | reflexivity].
  - intros r timeout_s w.
    unfold AudioRecorder.stop, AudioRecorder.is_recording.
    destruct (AudioRecorder._proc r) as [p |] eqn:E.
    + unfold bind, emit, proc_wait, ret, time_time. cbn.
      destruct (exits_in_time w) as [| [|] rest]; cbn;
        destruct (AudioRecorder._t0 r) as [t0 |]; cbn;
        try (destruct (t0 =? 0); cbn); try (destruct (clock w); cbn);
        do 3 eexists; (split; [reflexivity |]); (split; [reflexivity |]);
        intros _; cbn; repeat rewrite <- app_assoc; reflexivity.
    + exists r, 0, w. rewrite E. repeat split; auto. discriminate.
Qed.

Lemma recorder_stop_leaves_idle_witness :
  AudioRecorder.is_recording recorder0 = false
  /\ AudioRecorder.stop recorder0 3000000 world0 = (Ok (recorder0, 0), world0).
Proof.
  split; [reflexivity |].
  exact (proj1 recorder_stop_leaves_idle recorder0 3000000 world0 eq_refl).
Defined.

(** A hung capture process is killed, and the recorder is idle afterwards. *)
Example recorder_stop_hung :
  let r := AudioRecorder.stop recorder_busy 3000000 world_hung in
  fst r = Ok (recorder0, 3500000)
  /\ trace (snd r) = [SendSigint; Wait (Some 3000000); Kill; Wait None].
Proof. split; reflexivity. Qed.

(** ** The translation pipeline *)

(** Unfolds the straight-line methods down to the world. *)
Ltac run_methods :=
  unfold TranslationPipeline.process, LCD.write, LCD.clear_scroll,
    LCD.set_scroll_text, bind, ret, emit, get_display, set_display, time_time,
    time_sleep;
  cbn.

(** C4. When the transcription returns the empty string,
    [TranslationPipeline.process] returns [(None, None)], leaves the display
    with no scroll text at offset 0, and of the four collaborators calls the
    transcription only; the display is written twice, the second time with the
    no-speech message. *)
Theorem pipeline_no_speech :
  forall (p : TranslationPipeline.t) (wav_path src_lang tgt_lang : str) (w : World),
    TranslationPipeline.transcribe_fn p wav_path = [] ->
    let r := TranslationPipeline.process p wav_path src_lang tgt_lang w in
    fst r = Ok (None, None)
    /\ _scroll_text (display (snd r)) = []
    /\ _scroll_offset (display (snd r)) = 0
    /\ exists evs,
         trace (snd r) = trace w ++ evs
         /\ collaborator_calls evs = [Transcribe wav_path]
         /\ lcd_writes evs
            = [LcdWrite (Py.lit "Transcribing...") [];
               LcdWrite (Py.lit "No speech") (Py.lit "Try again")].
Proof.
  intros p wav_path src_lang tgt_lang w H r. subst r.
  destruct w as [pins ticks t0 exits ints [c r interval hw text offset last] tr].
  run_methods. rewrite H. cbn.
  destruct hw; cbn; destruct ticks; case_tests; cbn;
    (split; [reflexivity |]); (split; [reflexivity |]); (split; [reflexivity |]);
    repeat (rewrite <- app_assoc; cbn [app]);
    eexists; (split; [reflexivity |]); split; reflexivity.
Qed.

Lemma pipeline_no_speech_witness :
  let p := {| TranslationPipeline.transcribe_fn := fun _ => [];
              TranslationPipeline.translate_fn := fun _ _ _ => Py.lit "ciao";
              TranslationPipeline.tts := fun _ _ => Some (Py.lit "out.wav");
              TranslationPipeline.lcd_cols := 16 |} in
  let r := TranslationPipeline.process p (Py.lit "speech.wav")
             (Py.lit "eng_Latn") (Py.lit "ita_Latn") world0 in
  TranslationPipeline.transcribe_fn p (Py.lit "speech.wav") = []
  /\ fst r = Ok (None, None)
  /\ _scroll_text (display (snd r)) = []
  /\ collaborator_calls (trace (snd r)) = [Transcribe (Py.lit "speech.wav")].
Proof.
  intros p r.
  destruct (pipeline_no_speech p (Py.lit "speech.wav") (Py.lit "eng_Latn")
              (Py.lit "ita_Latn") world0 eq_refl) as (Hr & Hs & _ & _).
  split; [reflexivity |]. split; [exact Hr |]. split; [exact Hs |]. reflexivity.
Defined.

Lemma upto_firstn {A : Type} (n : nat) (l : list A) :
  Py.upto (Z.of_nat n) l = firstn n l.
Proof.
  unfold Py.upto, Py.clamp, Py.len.
  destruct (Z.ltb_spec (Z.of_nat n) 0) as [Hneg | _]; [lia |].
  destruct (Z.min_spec (Z.of_nat n) (Z.of_nat (length l))) as [(Hlt & ->) | (Hge & ->)].
  - now rewrite Nat2Z.id.
  - rewrite Nat2Z.id, firstn_all. symmetry. apply firstn_all2. lia.
Qed.

(** C9, as the specification states it, fails: a synthesis that returns the
    empty path returns something other than [None], and the playback is
    skipped all the same. *)
Lemma pipeline_playback_skipped_only_on_None_fails :
  ~ (forall (p : TranslationPipeline.t) (wav_path src_lang tgt_lang : str) (w : World),
        TranslationPipeline.transcribe_fn p wav_path <> [] ->
        trace w = [] ->
        let out := TranslationPipeline.translate_fn p
                     (TranslationPipeline.transcribe_fn p wav_path) src_lang tgt_lang in
        let r := TranslationPipeline.process p wav_path src_lang tgt_lang w in
        playbacks (trace (snd r)) = [] <-> TranslationPipeline.tts p out tgt_lang = None).
Proof.
  intros H.
  pose proof (H (pipeline_with (Some [])) (Py.lit "speech.wav")
                (Py.lit "eng_Latn") (Py.lit "ita_Latn") world0) as H'.
  cbv zeta in H'.
  assert (Hne : TranslationPipeline.transcribe_fn (pipeline_with (Some []))
                  (Py.lit "speech.wav") <> [])
    by (intro E; vm_compute in E; discriminate E).
  destruct (H' Hne eq_refl) as [Hskip _].
  assert (E : playbacks
                (trace (snd (TranslationPipeline.process (pipeline_with (Some []))
                               (Py.lit "speech.wav") (Py.lit "eng_Latn")
                               (Py.lit "ita_Latn") world0))) = [])
    by (vm_compute; reflexivity).
  specialize (Hskip E). vm_compute in Hskip. discriminate Hskip.
Qed.

(** C9, amended. For a non-empty recognized text, [TranslationPipeline.process]
    returns [(text, out)] with [out] the translation; the display keeps [out]
    as its scroll text, from offset 0; the last write to the display has the
    header made of the first three characters of the source code, an arrow
    and the first three characters of the target code, over the first
    [lcd_cols] characters of [out]; the translation and the synthesis are
    called, and the playback is called, with the synthesized path, exactly
    when the synthesis returns a path that is not empty: it is skipped when
    the synthesis returns [None] or the empty string. *)
Theorem pipeline_translates :
  forall (p : TranslationPipeline.t) (wav_path src_lang tgt_lang : str) (w : World),
    TranslationPipeline.transcribe_fn p wav_path <> [] ->
    let text := TranslationPipeline.transcribe_fn p wav_path in
    let out := TranslationPipeline.translate_fn p text src_lang tgt_lang in
    let wav := TranslationPipeline.tts p out tgt_lang in
    let header := firstn 3 src_lang ++ Py.arrow :: firstn 3 tgt_lang in
    let r := TranslationPipeline.process p wav_path src_lang tgt_lang w in
    fst r = Ok (Some text, Some out)
    /\ _scroll_text (display (snd r)) = out
    /\ _scroll_offset (display (snd r)) = 0
    /\ exists evs,
         trace (snd r) = trace w ++ evs
         /\ lcd_writes evs
            = [LcdWrite (Py.lit "Transcribing...") [];
               LcdWrite (Py.lit "Translating...") [];
               LcdWrite header (Py.upto (TranslationPipeline.lcd_cols p) out)]
         /\ collaborator_calls evs
            = Transcribe wav_path :: calls_after_transcription text src_lang tgt_lang out wav
         /\ (playbacks evs = [] <-> wav = None \/ wav = Some []).
Proof.
  intros p wav_path src_lang tgt_lang w H text out wav header r.
  assert (Hrun : exists w',
             r = (Ok (Some text, Some out), w')
             /\ _scroll_text (display w') = out
             /\ _scroll_offset (display w') = 0
             /\ exists d1,
                  trace w'
                  = trace w
                    ++ (LcdWrite (Py.lit "Transcribing...") []
                        :: lcd_hw (display w) (Py.lit "Transcribing...") [])
                    ++ [Transcribe wav_path]
                    ++ (LcdWrite (Py.lit "Translating...") []
                        :: lcd_hw (display w) (Py.lit "Translating...") [])
                    ++ [Translate text src_lang tgt_lang]
                    ++ (LcdWrite header (Py.upto (TranslationPipeline.lcd_cols p) out)
                        :: lcd_hw d1 header (Py.upto (TranslationPipeline.lcd_cols p) out))
                    ++ [Synthesize out tgt_lang]
                    ++ match wav with
                       | Some path => if Py.truthy path then [PlayWav path] else []
                       | None => []
                       end).
  { subst r. unfold TranslationPipeline.process.
    step (lcd_write_run (Py.lit "Transcribing...") [] w).
    step (emit_run (Transcribe wav_path) (log (LcdWrite (Py.lit "Transcribing...") []
            :: lcd_hw (display w) (Py.lit "Transcribing...") []) w)).
    cbv zeta. fold text. rewrite (truthy_nonempty text H). cbn [negb].
    rewrite log_log.
    match goal with |- context [log ?e w] => set (w1 := log e w) end.
    step (lcd_write_run (Py.lit "Translating...") [] w1).
    match goal with |- context [log ?e w1] => set (w2 := log e w1) end.
    step (emit_run (Translate text src_lang tgt_lang) w2).
    fold out.
    destruct (set_scroll_text_run out (log [Translate text src_lang tgt_lang] w2))
      as (w3 & Hscroll & _ & Ht3 & Hl3 & Hc3 & Hr3 & Hs3 & Ho3).
    step Hscroll.
    assert (Hh : Py.upto 3 src_lang ++ Py.arrow :: Py.upto 3 tgt_lang = header).
    { subst header. now rewrite <- (upto_firstn 3 src_lang), <- (upto_firstn 3 tgt_lang). }
    rewrite Hh.
    step (lcd_write_run header (Py.upto (TranslationPipeline.lcd_cols p) out) w3).
    match goal with |- context [log ?e w3] => set (w4 := log e w3) end.
    step (emit_run (Synthesize out tgt_lang) w4).
    fold wav.
    assert (Htr : trace (log [Synthesize out tgt_lang] w4)
                  = trace w
                    ++ (LcdWrite (Py.lit "Transcribing...") []
                        :: lcd_hw (display w) (Py.lit "Transcribing...") [])
                    ++ [Transcribe wav_path]
                    ++ (LcdWrite (Py.lit "Translating...") []
                        :: lcd_hw (display w) (Py.lit "Translating...") [])
                    ++ [Translate text src_lang tgt_lang]
                    ++ (LcdWrite header (Py.upto (TranslationPipeline.lcd_cols p) out)
                        :: lcd_hw (display w3) header
                             (Py.upto (TranslationPipeline.lcd_cols p) out))
                    ++ [Synthesize out tgt_lang]).
    { subst w4 w2 w1. cbn [trace log display]. rewrite Ht3. cbn [trace log display].
      repeat (rewrite <- app_assoc; cbn [app]). reflexivity. }
    destruct wav as [[| ch path] |]; cbn [Py.truthy].
    - eexists. split; [reflexivity |]. cbn [display log].
      split; [exact Hs3 |]. split; [exact Ho3 |].
      exists (display w3). rewrite Htr. repeat (rewrite <- app_assoc; cbn [app]).
      now rewrite app_nil_r.
    - rewrite (bind_run _ _ _ _ _ (emit_run (PlayWav (ch :: path)) _)). cbv beta.
      eexists. split; [reflexivity |]. cbn [display log].
      split; [exact Hs3 |]. split; [exact Ho3 |].
      exists (display w3). cbn [trace log]. cbn [trace log] in Htr. rewrite Htr.
      repeat (rewrite <- app_assoc; cbn [app]). reflexivity.
    - eexists. split; [reflexivity |]. cbn [display log].
      split; [exact Hs3 |]. split; [exact Ho3 |].
      exists (display w3). rewrite Htr. repeat (rewrite <- app_assoc; cbn [app]).
      now rewrite app_nil_r. }
  destruct Hrun as (w' & -> & Hs & Ho & d1 & Htr). cbn [fst snd].
  split; [reflexivity |]. split; [exact Hs |]. split; [exact Ho |].
  eexists. split; [exact Htr |].
  destruct (lcd_hw_quiet (display w) (Py.lit "Transcribing...") []) as (A1 & B1 & C1).
  destruct (lcd_hw_quiet (display w) (Py.lit "Translating...") []) as (A2 & B2 & C2).
  destruct (lcd_hw_quiet d1 header (Py.upto (TranslationPipeline.lcd_cols p) out))
    as (A3 & B3 & C3).
  unfold lcd_writes, collaborator_calls, playbacks, calls_after_transcription in *.
  repeat split.
  - cbn [filter app]. rewrite !filter_app. cbn [filter app].
    rewrite !filter_app. cbn [filter app]. rewrite !filter_app. cbn [filter].
    rewrite A1, A2, A3.
    destruct wav as [[| ch path] |]; reflexivity.
  - cbn [filter app]. rewrite !filter_app. cbn [filter app].
    rewrite !filter_app. cbn [filter app]. rewrite !filter_app. cbn [filter].
    rewrite B1, B2, B3.
    destruct wav as [[| ch path] |]; reflexivity.
  - cbn [filter app]. rewrite !filter_app. cbn [filter app].
    rewrite !filter_app. cbn [filter app]. rewrite !filter_app. cbn [filter].
    rewrite C1, C2, C3.
    destruct wav as [[| ch path] |]; cbn; intros E; try discriminate E; auto.
  - cbn [filter app]. rewrite !filter_app. cbn [filter app].
    rewrite !filter_app. cbn [filter app]. rewrite !filter_app. cbn [filter].
    rewrite C1, C2, C3.
    destruct wav as [[| ch path] |]; cbn; intros [E | E]; try discriminate E; auto.
Qed.

Lemma pipeline_translates_witness :
  let p := pipeline_with (Some (Py.lit "out.wav")) in
  let r := TranslationPipeline.process p (Py.lit "speech.wav")
             (Py.lit "eng_Latn") (Py.lit "ita_Latn") world0 in
  TranslationPipeline.transcribe_fn p (Py.lit "speech.wav") <> []
  /\ fst r = Ok (Some (Py.lit "hello"), Some (Py.lit "ciao"))
  /\ _scroll_text (display (snd r)) = Py.lit "ciao"
  /\ lcd_writes (trace (snd r))
     = [LcdWrite (Py.lit "Transcribing...") [];
        LcdWrite (Py.lit "Translating...") [];
        LcdWrite (Py.lit "eng" ++ Py.arrow :: Py.lit "ita") (Py.lit "ciao")]
  /\ playbacks (trace (snd r)) = [PlayWav (Py.lit "out.wav")].
Proof.
  intros p r.
  assert (H : TranslationPipeline.transcribe_fn p (Py.lit "speech.wav") <> [])
    by (intro E; vm_compute in E; discriminate E).
  destruct (pipeline_translates p (Py.lit "speech.wav") (Py.lit "eng_Latn")
              (Py.lit "ita_Latn") world0 H) as (Hr & Hs & _ & _).
  split; [exact H |]. split; [exact Hr |]. split; [exact Hs |].
  split; vm_compute; reflexivity.
Defined.

(** The scenario of the specification: "hello" from English to Italian. *)
Example pipeline_hello_ciao :
  let r := TranslationPipeline.process (pipeline_with (Some (Py.lit "out.wav")))
             (Py.lit "speech.wav") (Py.lit "eng_Latn") (Py.lit "ita_Latn") world0 in
  collaborator_calls (trace (snd r))
  = [Transcribe (Py.lit "speech.wav");
     Translate (Py.lit "hello") (Py.lit "eng_Latn") (Py.lit "ita_Latn");
     Synthesize (Py.lit "ciao") (Py.lit "ita_Latn");
     PlayWav (Py.lit "out.wav")].
Proof. vm_compute. reflexivity. Qed.

(** ** Every method lets the world evolve *)

Lemma evolves_refl (w : World) : evolves w w.
Proof. split; [exists [] | exists []]; [now rewrite app_nil_r | reflexivity]. Qed.

Lemma evolves_trans (w1 w2 w3 : World) :
  evolves w1 w2 -> evolves w2 w3 -> evolves w1 w3.
Proof.
  intros ((e1 & H1) & (u1 & G1)) ((e2 & H2) & (u2 & G2)). split.
  - exists (e1 ++ e2). now rewrite H2, H1, app_assoc.
  - exists (u1 ++ u2). now rewrite G1, G2, app_assoc.
Qed.

Lemma evolves_log (w w' : World) (evs : list Event) :
  trace w' = trace w ++ evs -> gpio_in w' = gpio_in w -> evolves w w'.
Proof. intros H G. split; [now exists evs | exists []; now rewrite G]. Qed.

Section Tame.

Context {S : Type} (proj : S -> World) (allowed : exn -> Prop).

Lemma tame_ret {A : Type} (a : A) : tame proj allowed (ret a).
Proof. intros s. cbn. split; [apply evolves_refl | discriminate]. Qed.

Lemma tame_blocked {A : Type} : tame proj allowed (@blocked S A).
Proof. intros s. cbn. split; [apply evolves_refl | discriminate]. Qed.

Lemma tame_raise {A : Type} (e : exn) : allowed e -> tame proj allowed (@raise S A e).
Proof.
  intros H s. cbn. split; [apply evolves_refl |].
  intros e' E. inversion E. subst. exact H.
Qed.

Lemma tame_bind {A B : Type} (m : St S A) (k : A -> St S B) :
  tame proj allowed m -> (forall a, tame proj allowed (k a)) ->
  tame proj allowed (bind m k).
Proof.
  intros Hm Hk s. unfold bind.
  destruct (Hm s) as (He & Hr).
  destruct (m s) as [[a | e |] s1]; cbn in *.
  - destruct (Hk a s1) as (He' & Hr'). split; [| exact Hr'].
    eapply evolves_trans; eassumption.
  - split; [exact He |]. intros e' E. inversion E. subst. now apply Hr.
  - split; [exact He | discriminate].
Qed.

Lemma tame_py_mod (a b : Z) :
  (b = 0 -> allowed ZeroDivisionError) -> tame proj allowed (py_mod a b).
Proof.
  intros H. unfold py_mod. destruct (Z.eqb_spec b 0);
    [apply tame_raise; auto | apply tame_ret].
Qed.

Lemma tame_py_getitem {A : Type} (l : list A) (i : Z) :
  (Py.getitem l i = None -> allowed IndexError) -> tame proj allowed (py_getitem l i).
Proof.
  intros H. unfold py_getitem.
  destruct (Py.getitem l i); [apply tame_ret | apply tame_raise; auto].
Qed.

Lemma tame_try_finally {A : Type} (body : St S A) (cleanup : St S unit) :
  tame proj allowed body -> tame proj allowed cleanup ->
  tame proj allowed (try_finally body cleanup).
Proof.
  intros Hb Hc s. unfold try_finally.
  destruct (Hb s) as (He & Hr).
  destruct (body s) as [[a | e |] s1]; cbn in *;
    [ | | split; [exact He | discriminate] ];
    destruct (Hc s1) as (He' & Hr');
    destruct (cleanup s1) as [[[] | e' |] s2]; cbn in *;
    (split; [eapply evolves_trans; eassumption |]);
    intros e0 E; inversion E; subst; auto.
Qed.

Lemma tame_except_KeyboardInterrupt {A : Type} (body handler : St S A) :
  tame proj allowed body -> tame proj allowed handler ->
  tame proj allowed (except_KeyboardInterrupt body handler).
Proof.
  intros Hb Hh s. unfold except_KeyboardInterrupt.
  destruct (Hb s) as (He & Hr).
  destruct (body s) as [[a | [msg | | | | | |] |] s1]; cbn in *;
    try (split; [exact He | exact Hr]).
  destruct (Hh s1) as (He' & Hr'). split; [| exact Hr'].
  eapply evolves_trans; eassumption.
Qed.

End Tame.

(** Tameness of a method follows its text: sequences, tests and matches. *)
Ltac tame_step :=
  first
    [ apply tame_ret
    | apply tame_blocked
    | apply tame_py_mod; solve [auto]
    | apply tame_py_getitem; solve [auto]
    | apply tame_raise; solve [auto]
    | solve [auto with tame]
    | apply tame_bind; [| intros ?]
    | apply tame_try_finally
    | apply tame_except_KeyboardInterrupt
    | match goal with
      | |- tame _ _ (match ?x with _ => _ end) => destruct x
      end ].

Ltac tame_auto := repeat (cbv beta zeta; tame_step).

Create HintDb tame discriminated.

Section Methods.

Variable allowed : exn -> Prop.

(** The primitives. *)

Lemma tame_time_time : tame the_world allowed time_time.
Proof.
  intros w. unfold time_time, the_world. destruct (clock w); cbn;
    (split; [| discriminate]);
    first [apply evolves_refl | apply evolves_log with (evs := []); cbn; auto using app_nil_r].
Qed.

Lemma tame_gpio_input (pin : Z) : tame the_world allowed (gpio_input pin).
Proof.
  intros w. unfold gpio_input, the_world. destruct (gpio_in w) as [| p rest] eqn:E; cbn.
  - split; [apply evolves_refl | discriminate].
  - split; [| discriminate]. split; cbn.
    + exists []. now rewrite app_nil_r.
    + now exists [p].
Qed.

Lemma tame_emit (e : Event) : tame the_world allowed (emit e).
Proof.
  intros w. cbn. split; [| discriminate].
  now apply evolves_log with (evs := [e]).
Qed.

Lemma tame_time_sleep (us : Z) : tame the_world allowed (time_sleep us).
Proof. apply tame_emit. Qed.

Lemma tame_proc_wait (timeout : Z) : tame the_world allowed (proc_wait timeout).
Proof.
  intros w. unfold proc_wait, the_world.
  destruct (exits_in_time w); cbn;
    (split; [now apply evolves_log with (evs := [Wait (Some timeout)]) | discriminate]).
Qed.

Lemma tame_get_display : tame the_world allowed get_display.
Proof. intros w. cbn. split; [apply evolves_refl | discriminate]. Qed.

Lemma tame_set_display (d : LCDDisplay) : tame the_world allowed (set_display d).
Proof.
  intros w. cbn. split; [| discriminate].
  apply evolves_log with (evs := []); cbn; auto using app_nil_r.
Qed.

Lemma tame_readings_left : tame the_world allowed readings_left.
Proof. intros w. cbn. split; [apply evolves_refl | discriminate]. Qed.

Hint Resolve tame_time_time tame_gpio_input tame_emit tame_time_sleep
  tame_proc_wait tame_get_display tame_set_display tame_readings_left : tame.

(** [lcd_display.py] *)

Lemma tame_lcd_write (line1 line2 : str) : tame the_world allowed (LCD.write line1 line2).
Proof. unfold LCD.write. tame_auto. Qed.

Lemma tame_lcd_set_scroll_text (text : str) :
  tame the_world allowed (LCD.set_scroll_text text).
Proof. unfold LCD.set_scroll_text. tame_auto. Qed.

Lemma tame_lcd_clear_scroll : tame the_world allowed LCD.clear_scroll.
Proof. apply tame_lcd_set_scroll_text. Qed.

Lemma tame_lcd_tick_scroll (is_recording : bool) :
  tame the_world allowed (LCD.tick_scroll is_recording).
Proof. unfold LCD.tick_scroll. tame_auto. Qed.

Hint Resolve tame_lcd_write tame_lcd_set_scroll_text tame_lcd_clear_scroll
  tame_lcd_tick_scroll : tame.

Lemma tame_lcd_shutdown (line1 line2 : str) (hold_s : Z) :
  tame the_world allowed (LCD.shutdown line1 line2 hold_s).
Proof. unfold LCD.shutdown. tame_auto. Qed.

(** [gpio_inputs.py] *)

Lemma tame_button_poll (b : DebouncedButton.t) :
  tame the_world allowed (DebouncedButton.poll b).
Proof. unfold DebouncedButton.poll. tame_auto. Qed.

Lemma tame_longpress_poll (d : LongPressDetector.t) (enabled : bool) :
  tame the_world allowed (LongPressDetector.poll d enabled).
Proof. unfold LongPressDetector.poll. tame_auto. Qed.

(** [language_selector.py] *)

Lemma tame_settle (fuel : nat) (s : LanguageSelector.t) (start : Z) :
  tame the_world allowed (LanguageSelector.settle fuel s start).
Proof.
  induction fuel as [| fuel IH]; cbn [LanguageSelector.settle]; tame_auto.
Qed.

Lemma tame_wait_release (fuel : nat) (s : LanguageSelector.t) :
  tame the_world allowed (LanguageSelector.wait_release fuel s).
Proof.
  induction fuel as [| fuel IH]; cbn [LanguageSelector.wait_release]; tame_auto.
Qed.

Hint Resolve tame_lcd_shutdown tame_button_poll tame_longpress_poll
  tame_settle tame_wait_release : tame.

(** The selection, given that [rotate] is tame. *)

Section Selection.

Variable prompt : str.
Variable options : list (str * str).
Hypothesis tame_rotate :
  forall l clk dt,
    tame the_world allowed (LanguageSelector.rotate prompt options l clk dt).

Lemma tame_selector_iteration (s : LanguageSelector.t) (l : LanguageSelector.locals) :
  tame the_world allowed (LanguageSelector.iteration s prompt options l).
Proof. unfold LanguageSelector.iteration. tame_auto. Qed.

Hint Resolve tame_selector_iteration : tame.

Lemma tame_selector_loop (fuel : nat) (s : LanguageSelector.t)
    (l : LanguageSelector.locals) :
  tame the_world allowed (LanguageSelector.loop fuel s prompt options l).
Proof.
  revert l. induction fuel as [| fuel IH]; intros l; cbn [LanguageSelector.loop];
    tame_auto.
Qed.

End Selection.

(** [audio_recorder.py], [translation_pipeline.py] *)

Lemma tame_makedirs (path : str) :
  allowed FileNotFoundError -> allowed ValueError ->
  tame the_world allowed (makedirs path).
Proof.
  intros H H'. unfold makedirs.
  destruct (Py.truthy path); cbn [negb]; [| now apply tame_raise].
  destruct (existsb (N.eqb 0) path); [now apply tame_raise | apply tame_emit].
Qed.

Lemma tame_recorder_start (r : AudioRecorder.t) :
  allowed FileNotFoundError -> allowed ValueError ->
  tame the_world allowed (AudioRecorder.start r).
Proof.
  intros H H'. unfold AudioRecorder.start.
  destruct (AudioRecorder._proc r); [apply tame_ret |].
  apply tame_bind; [now apply tame_makedirs | intros []]. tame_auto.
Qed.

Lemma tame_recorder_stop (r : AudioRecorder.t) (timeout_s : Z) :
  tame the_world allowed (AudioRecorder.stop r timeout_s).
Proof. unfold AudioRecorder.stop. tame_auto. Qed.

Lemma tame_process (p : TranslationPipeline.t) (wav_path src_lang tgt_lang : str) :
  tame the_world allowed (TranslationPipeline.process p wav_path src_lang tgt_lang).
Proof. unfold TranslationPipeline.process. tame_auto. Qed.

(** The controller's own primitives. *)

Lemma tame_lift {A : Type} (m : M A) :
  tame the_world allowed m -> tame app_world allowed (AppController.lift m).
Proof.
  intros H [a w]. unfold AppController.lift, app_world. cbn.
  destruct (H w) as (He & Hr). unfold the_world in *.
  destruct (m w) as [r w1]. cbn in *. auto.
Qed.

Lemma tame_self : tame app_world allowed AppController.self.
Proof. intros s. cbn. split; [apply evolves_refl | discriminate]. Qed.

Lemma tame_assign (f : AppController.t -> AppController.t) :
  tame app_world allowed (AppController.assign f).
Proof. intros s. cbn. split; [apply evolves_refl | discriminate]. Qed.

End Methods.

(** ** The language selector *)

Lemma len_nonempty {A : Type} (l : list A) : l <> [] -> 0 < Py.len l.
Proof. unfold Py.len. destruct l; [congruence | cbn; lia]. Qed.

(** An index reduced modulo the length always finds an option. *)
Lemma getitem_mod {A : Type} (l : list A) (i : Z) :
  l <> [] ->
  exists x,
    Py.getitem l (i mod Py.len l) = Some x
    /\ nth_error l (Z.to_nat (i mod Py.len l)) = Some x
    /\ In x l.
Proof.
  intros Hl. pose proof (len_nonempty l Hl) as Hlen.
  pose proof (Z.mod_pos_bound i (Py.len l) Hlen) as Hb.
  destruct (nth_error l (Z.to_nat (i mod Py.len l))) as [x |] eqn:E.
  - exists x. unfold Py.getitem.
    rewrite (proj2 (Z.leb_le _ _) (proj1 Hb)), (proj2 (Z.ltb_lt _ _) (proj2 Hb)). cbn.
    repeat split; auto. eapply nth_error_In; eassumption.
  - apply nth_error_None in E. unfold Py.len in *. lia.
Qed.

Lemma py_mod_run {S : Type} (a b : Z) (s : S) :
  b <> 0 -> py_mod a b s = (Ok (a mod b), s).
Proof. intros H. unfold py_mod. now rewrite (proj2 (Z.eqb_neq _ _) H). Qed.

Lemma gpio_input_run (pin : Z) (p : Pins) (rest : list Pins) (w : World) :
  gpio_in w = p :: rest -> gpio_input pin w = (Ok (p pin), feed rest w).
Proof. intros H. unfold gpio_input. now rewrite H. Qed.

Lemma gpio_input_feed (pin : Z) (p : Pins) (rest : list Pins) (w : World) :
  gpio_input pin (feed (p :: rest) w) = (Ok (p pin), feed rest w).
Proof. reflexivity. Qed.

Lemma gpio_input_log_feed (pin : Z) (p : Pins) (rest : list Pins)
    (evs : list Event) (w : World) :
  gpio_input pin (log evs (feed (p :: rest) w)) = (Ok (p pin), log evs (feed rest w)).
Proof. reflexivity. Qed.

Lemma readings_left_run (w : World) :
  readings_left w = (Ok (S (length (gpio_in w))), w).
Proof. reflexivity. Qed.

Lemma time_time_run (w : World) :
  exists t w1,
    time_time w = (Ok t, w1)
    /\ gpio_in w1 = gpio_in w /\ trace w1 = trace w /\ display w1 = display w.
Proof.
  unfold time_time. destruct (clock w) as [| t rest].
  - now exists (now w), w.
  - eexists t, _. split; [reflexivity |]. cbn. auto.
Qed.

Lemma clear_scroll_run (w : World) :
  exists w1,
    LCD.clear_scroll w = (Ok tt, w1)
    /\ gpio_in w1 = gpio_in w /\ trace w1 = trace w
    /\ lcd (display w1) = lcd (display w)
    /\ _scroll_text (display w1) = [] /\ _scroll_offset (display w1) = 0.
Proof.
  destruct (set_scroll_text_run [] w) as (w1 & H & Hg & Ht & Hl & _ & _ & Hs & Ho).
  exists w1. unfold LCD.clear_scroll. auto 10.
Qed.

Section Selector.

Import LanguageSelector.

Variable s : t.
Variable prompt : str.
Variable options : list (str * str).
Hypothesis nonempty : options <> [].

(** What a CLK edge does to the locals. *)
Lemma rotate_run (l : locals) (clk dt : Z) (w : World) :
  exists l1 w1,
    rotate prompt options l clk dt w = (Ok l1, w1)
    /\ gpio_in w1 = gpio_in w
    /\ (clk = last_clk l -> l1 = l /\ w1 = w)
    /\ (clk <> last_clk l ->
        index l1 = (if dt =? clk then index l - 1 else index l + 1) mod Py.len options
        /\ last_clk l1 = clk /\ last_sw l1 = last_sw l
        /\ in_options options l1
        /\ exists hw, trace w1 = trace w ++ LcdWrite prompt (name l1) :: hw).
Proof.
  pose proof (len_nonempty options nonempty) as Hlen.
  unfold rotate. destruct (Z.eqb_spec clk (last_clk l)) as [E | E]; cbn [negb].
  - exists l, w. repeat split; auto; contradiction.
  - set (i := (if dt =? clk then index l - 1 else index l + 1) mod Py.len options).
    destruct (getitem_mod options (if dt =? clk then index l - 1 else index l + 1) nonempty)
      as ([name' code'] & Hget & Hnth & Hin). fold i in Hget, Hnth.
    assert (Hmod : forall w0 : World,
               (if negb (dt =? clk)
                then py_mod (index l + 1) (Py.len options)
                else py_mod (index l - 1) (Py.len options)) w0 = (Ok i, w0)).
    { intros w0. subst i. destruct (dt =? clk); cbn [negb]; apply py_mod_run; lia. }
    eexists _, _. split.
    + rewrite (bind_run _ _ _ _ _ (Hmod w)).
      unfold py_getitem. rewrite Hget.
      unfold bind at 1, ret at 1. cbn match.
      rewrite (bind_run _ _ _ _ _ (lcd_write_run prompt name' w)).
      unfold bind, time_sleep, emit, ret. reflexivity.
    + cbn. repeat split; auto; try contradiction.
      * subst i. apply Z.mod_pos_bound. exact Hlen.
      * subst i. apply Z.mod_pos_bound. exact Hlen.
      * eexists. rewrite <- app_assoc. reflexivity.
Qed.

(** A consistent index stays consistent through an iteration, and the value
    an iteration returns is the option at the index. *)
Lemma iteration_in_options (l : locals) (w w' : World) (r : locals + str * str) :
  in_options options l ->
  iteration s prompt options l w = (Ok r, w') ->
  match r with
  | inl l' => in_options options l'
  | inr selected => In selected options
  end.
Proof.
  intros Hl H. unfold iteration in H.
  apply bind_ok in H. destruct H as (clk & w1 & _ & H).
  apply bind_ok in H. destruct H as (dt & w2 & _ & H).
  apply bind_ok in H. destruct H as (sw & w3 & _ & H).
  apply bind_ok in H. destruct H as (l1 & w4 & Hrot & H).
  assert (Hl1 : in_options options l1).
  { destruct (rotate_run l clk dt w3) as (l1' & w4' & Hrot' & _ & Hsame & Hedge).
    rewrite Hrot in Hrot'. inversion Hrot'. subst l1' w4'.
    destruct (Z.eq_dec clk (last_clk l)) as [E | E].
    - destruct (Hsame E) as (-> & _). exact Hl.
    - apply (Hedge E). }
  destruct (negb (sw =? last_sw l1)).
  - apply bind_ok in H. destruct H as ([] & w5 & _ & H).
    apply bind_ok in H. destruct H as (sw2 & w6 & _ & H).
    destruct (negb (sw2 =? last_sw l1)).
    + destruct (_sw_pressed s sw2).
      * apply bind_ok in H. destruct H as (fuel & w7 & _ & H).
        apply bind_ok in H. destruct H as ([] & w8 & _ & H).
        inversion H. cbn. destruct Hl1 as (_ & Hnth).
        eapply nth_error_In. exact Hnth.
      * apply bind_ok in H. destruct H as ([] & w7 & _ & H).
        inversion H. exact Hl1.
    + apply bind_ok in H. destruct H as ([] & w7 & _ & H).
      inversion H. exact Hl1.
  - apply bind_ok in H. destruct H as ([] & w5 & _ & H).
    inversion H. exact Hl1.
Qed.

(** An iteration moves the index as [rotate] does on the CLK and DT levels
    it reads. *)
Lemma iteration_rotates (l : locals) (p1 p2 p3 : Pins) (more : list Pins)
    (w w' : World) (r : locals + str * str) :
  gpio_in w = p1 :: p2 :: p3 :: more ->
  iteration s prompt options l w = (Ok r, w') ->
  exists l1 w1,
    rotate prompt options l (p1 (clk_pin s)) (p2 (dt_pin s)) (feed more w) = (Ok l1, w1)
    /\ match r with
       | inl l' => index l' = index l1 /\ name l' = name l1 /\ code l' = code l1
                   /\ last_clk l' = last_clk l1
       | inr selected => selected = (name l1, code l1)
       end.
Proof.
  intros Hw H. unfold iteration in H.
  rewrite (bind_run _ _ _ _ _ (gpio_input_run (clk_pin s) p1 _ w Hw)) in H.
  rewrite (bind_run _ _ _ _ _
             (gpio_input_run (dt_pin s) p2 (p3 :: more)
                (feed (p2 :: p3 :: more) w) eq_refl)) in H.
  rewrite (bind_run _ _ _ _ _
             (gpio_input_run (sw_pin s) p3 more
                (feed (p3 :: more) (feed (p2 :: p3 :: more) w)) eq_refl)) in H.
  change (feed more (feed (p3 :: more) (feed (p2 :: p3 :: more) w))) with (feed more w) in H.
  apply bind_ok in H. destruct H as (l1 & w4 & Hrot & H).
  exists l1, w4. split; [exact Hrot |].
  destruct (negb (p3 (sw_pin s) =? last_sw l1)).
  - apply bind_ok in H. destruct H as ([] & w5 & _ & H).
    apply bind_ok in H. destruct H as (sw2 & w6 & _ & H).
    destruct (negb (sw2 =? last_sw l1)).
    + destruct (_sw_pressed s sw2).
      * apply bind_ok in H. destruct H as (fuel & w7 & _ & H).
        apply bind_ok in H. destruct H as ([] & w8 & _ & H).
        inversion H. reflexivity.
      * apply bind_ok in H. destruct H as ([] & w7 & _ & H).
        inversion H. cbn. auto.
    + apply bind_ok in H. destruct H as ([] & w7 & _ & H).
      inversion H. auto.
  - apply bind_ok in H. destruct H as ([] & w5 & _ & H).
    inversion H. auto.
Qed.

Lemma loop_in_options (fuel : nat) (l : locals) (w w' : World) (selected : str * str) :
  in_options options l ->
  loop fuel s prompt options l w = (Ok selected, w') ->
  In selected options.
Proof.
  revert l w. induction fuel as [| fuel IH]; intros l w Hl H; cbn [loop] in H.
  - discriminate.
  - apply bind_ok in H. destruct H as (r & w1 & Hit & H).
    pose proof (iteration_in_options l w w1 r Hl Hit) as Hr.
    destruct r as [l' | v].
    + eapply IH; eassumption.
    + inversion H. subst. exact Hr.
Qed.

(** How [select_one] starts: the scroll text is cleared, the option at
    [initial_index] modulo the length is written under the prompt, and the
    rest of the call starts from consistent locals. *)
Lemma select_one_start (initial_index : Z) (w : World) :
  exists name0 code0 w1 (rest : M (str * str)),
    nth_error options (Z.to_nat (initial_index mod Py.len options)) = Some (name0, code0)
    /\ Py.getitem options (initial_index mod Py.len options) = Some (name0, code0)
    /\ In (name0, code0) options
    /\ select_one s prompt options initial_index w = rest w1
    /\ gpio_in w1 = gpio_in w
    /\ (exists hw, trace w1 = trace w ++ LcdWrite prompt name0 :: hw)
    /\ rest
       = (last_clk0 <- gpio_input (clk_pin s) ;;
          start_settle <- time_time ;;
          fuel <- readings_left ;;
          settle fuel s start_settle ;;
          last_sw0 <- gpio_input (sw_pin s) ;;
          fuel <- readings_left ;;
          loop fuel s prompt options
            {| index := initial_index mod Py.len options;
               name := name0; code := code0;
               last_clk := last_clk0; last_sw := last_sw0 |}).
Proof.
  pose proof (len_nonempty options nonempty) as Hlen.
  destruct (getitem_mod options initial_index nonempty) as ([name0 code0] & Hget & Hnth & Hin).
  destruct (clear_scroll_run w) as (w1 & Hclear & Hg1 & Ht1 & Hd1 & _).
  eexists name0, code0, _, _.
  split; [exact Hnth |]. split; [exact Hget |]. split; [exact Hin |].
  split; [| split; [| split; [| reflexivity]]].
  - unfold select_one.
    rewrite (bind_run _ _ _ _ _ Hclear).
    rewrite (bind_run _ _ _ _ _ (py_mod_run initial_index (Py.len options) w1 ltac:(lia))).
    unfold py_getitem. rewrite Hget.
    unfold bind at 1, ret at 1. cbn match.
    rewrite (bind_run _ _ _ _ _ (lcd_write_run prompt name0 w1)).
    reflexivity.
  - cbn. exact Hg1.
  - cbn. rewrite Ht1. eexists. reflexivity.
Qed.

(** [select_one] returns one of the options. *)
Lemma select_one_in_options (initial_index : Z) (w w' : World) (selected : str * str) :
  select_one s prompt options initial_index w = (Ok selected, w') ->
  In selected options.
Proof.
  intros H.
  destruct (select_one_start initial_index w)
    as (name0 & code0 & w1 & rest & Hnth & _ & _ & Hrun & _ & _ & Hrest).
  rewrite Hrun, Hrest in H.
  apply bind_ok in H. destruct H as (clk0 & w2 & _ & H).
  apply bind_ok in H. destruct H as (t0 & w3 & _ & H).
  apply bind_ok in H. destruct H as (f1 & w4 & _ & H).
  apply bind_ok in H. destruct H as ([] & w5 & _ & H).
  apply bind_ok in H. destruct H as (sw0 & w6 & _ & H).
  apply bind_ok in H. destruct H as (f2 & w7 & _ & H).
  eapply loop_in_options; [| exact H].
  split; cbn; [| exact Hnth].
  apply Z.mod_pos_bound. apply len_nonempty. exact nonempty.
Qed.

End Selector.

(** C5. With a non-empty list of [N] options: an iteration of the loop of
    [select_one] that reads a CLK level other than the last one leaves the
    index at [(index + 1) mod N] when the DT level read differs from the CLK
    level, and at [(index - 1) mod N] when it equals it, and leaves it alone
    when CLK has not moved; the index, once within [0, N) with the name and
    code of the option it points at, stays so through every iteration; and
    what [select_one] returns is a member of the list. *)
Theorem selector_index_in_range :
  forall (s : LanguageSelector.t) (prompt : str) (options : list (str * str)),
    options <> [] ->
    (forall (l : LanguageSelector.locals) (p1 p2 p3 : Pins) (more : list Pins)
            (w w' : World) (l' : LanguageSelector.locals),
        gpio_in w = p1 :: p2 :: p3 :: more ->
        LanguageSelector.iteration s prompt options l w = (Ok (inl l'), w') ->
        let clk := p1 (LanguageSelector.clk_pin s) in
        let dt := p2 (LanguageSelector.dt_pin s) in
        (clk <> LanguageSelector.last_clk l -> dt <> clk ->
         LanguageSelector.index l'
         = (LanguageSelector.index l + 1) mod Py.len options)
        /\ (clk <> LanguageSelector.last_clk l -> dt = clk ->
            LanguageSelector.index l'
            = (LanguageSelector.index l - 1) mod Py.len options)
        /\ (clk = LanguageSelector.last_clk l ->
            LanguageSelector.index l' = LanguageSelector.index l))
    /\ (forall (l : LanguageSelector.locals) (w w' : World)
               (r : LanguageSelector.locals + str * str),
          in_options options l ->
          LanguageSelector.iteration s prompt options l w = (Ok r, w') ->
          match r with
          | inl l' => in_options options l'
          | inr selected => In selected options
          end)
    /\ (forall (initial_index : Z) (w w' : World) (selected : str * str),
          LanguageSelector.select_one s prompt options initial_index w
          = (Ok selected, w') ->
          In selected options).
Proof.
  intros s prompt options Hne. split; [| split].
  - intros l p1 p2 p3 more w w' l' Hw H clk dt.
    destruct (iteration_rotates s prompt options l p1 p2 p3 more w w' _ Hw H)
      as (l1 & w1 & Hrot & Hi & _).
    destruct (rotate_run prompt options Hne l clk dt (feed more w))
      as (l1' & w1' & Hrot' & _ & Hsame & Hedge).
    subst clk dt. rewrite Hrot in Hrot'. inversion Hrot'. subst l1' w1'.
    rewrite Hi. repeat split.
    + intros Hc Hd. destruct (Hedge Hc) as (-> & _).
      now rewrite (proj2 (Z.eqb_neq _ _) Hd).
    + intros Hc Hd. destruct (Hedge Hc) as (-> & _).
      now rewrite (proj2 (Z.eqb_eq _ _) Hd).
    + intros Hc. now destruct (Hsame Hc) as (-> & _).
  - intros l w w' r. apply iteration_in_options. exact Hne.
  - intros initial_index w w' selected. apply select_one_in_options. exact Hne.
Qed.

Lemma selector_index_in_range_witness :
  choices0 <> []
  (* a CLK edge with DT high steps from French, the last option, to English *)
  /\ (exists l' w',
        LanguageSelector.iteration selector0 (Py.lit "Select Lang 1:") choices0
          locals_french (world_reading [pins_clk_first; pins_clk_first; pins_clk_first])
        = (Ok (inl l'), w')
        /\ LanguageSelector.index l' = (4 + 1) mod 5)
  (* and what a selection returns is one of the choices *)
  /\ (exists selected w',
        LanguageSelector.select_one selector0 (Py.lit "Select Lang 1:") choices0 (-1)
          (world_reading two_presses)
        = (Ok selected, w')
        /\ In selected choices0).
Proof.
  assert (Hne : choices0 <> []) by discriminate.
  destruct (selector_index_in_range selector0 (Py.lit "Select Lang 1:") choices0 Hne)
    as (Hstep & _ & Hsel).
  split; [exact Hne |]. split.
  - eassert (Hit : LanguageSelector.iteration selector0 (Py.lit "Select Lang 1:") choices0
                     locals_french
                     (world_reading [pins_clk_first; pins_clk_first; pins_clk_first])
                   = (Ok (inl _), _)) by (vm_compute; reflexivity).
    eexists _, _. split; [exact Hit |].
    refine (proj1 (Hstep locals_french pins_clk_first pins_clk_first pins_clk_first []
                     (world_reading [pins_clk_first; pins_clk_first; pins_clk_first])
                     _ _ eq_refl Hit) _ _); cbn; discriminate.
  - eassert (Hrun : LanguageSelector.select_one selector0 (Py.lit "Select Lang 1:")
                      choices0 (-1) (world_reading two_presses)
                    = (Ok _, _)) by (vm_compute; reflexivity).
    eexists _, _. split; [exact Hrun |]. exact (Hsel _ _ _ _ Hrun).
Defined.

(** ** A selection without rotation *)

Section Press.

Import LanguageSelector.

Variable s : t.
Variable prompt : str.
Variable options : list (str * str).
Variables idle pushed : Pins.
Hypothesis idle_released : _sw_pressed s (idle (sw_pin s)) = false.
Hypothesis pushed_pressed : _sw_pressed s (pushed (sw_pin s)) = true.

Lemma pushed_differs : (pushed (sw_pin s) =? idle (sw_pin s)) = false.
Proof.
  apply Z.eqb_neq. intros E. rewrite E in pushed_pressed. congruence.
Qed.

Lemma ret_bind {S A B : Type} (a : A) (k : A -> St S B) (st : S) :
  bind (ret a) k st = k a st.
Proof. reflexivity. Qed.

(** With the switch released, the two waiting loops return at once. *)
Lemma wait_release_released (fuel : nat) (rest : list Pins) (w : World) :
  gpio_in w = idle :: rest ->
  wait_release (S fuel) s w = (Ok tt, feed rest w).
Proof.
  intros Hw. cbn [wait_release].
  step (gpio_input_run (sw_pin s) idle rest w Hw).
  now rewrite idle_released.
Qed.

Lemma settle_released (fuel : nat) (start : Z) (rest : list Pins) (w : World) :
  gpio_in w = idle :: rest ->
  settle (S fuel) s start w = (Ok tt, feed rest w).
Proof.
  intros Hw. cbn [settle].
  step (gpio_input_run (sw_pin s) idle rest w Hw).
  now rewrite idle_released.
Qed.

(** An iteration that reads the idle pins only sleeps. *)
Lemma iteration_idle (l : locals) (more : list Pins) (w : World) :
  gpio_in w = idle :: idle :: idle :: more ->
  last_clk l = idle (clk_pin s) ->
  last_sw l = idle (sw_pin s) ->
  iteration s prompt options l w
  = (Ok (inl l), log [Sleep (poll_s s)] (feed more w)).
Proof.
  intros Hw Hclk Hsw. unfold iteration.
  step (gpio_input_run (clk_pin s) idle _ w Hw).
  step (gpio_input_feed (dt_pin s) idle (idle :: more) w).
  step (gpio_input_feed (sw_pin s) idle more w).
  unfold rotate. rewrite Hclk, Z.eqb_refl. cbn [negb]. rewrite ret_bind.
  rewrite Hsw, Z.eqb_refl. cbn [negb]. reflexivity.
Qed.

(** An iteration that reads the switch pushed, and pushed still after the
    debounce delay, waits for the release and returns the current option. *)
Lemma iteration_press (l : locals) (more : list Pins) (w : World) :
  gpio_in w = idle :: idle :: pushed :: pushed :: idle :: more ->
  last_clk l = idle (clk_pin s) ->
  last_sw l = idle (sw_pin s) ->
  iteration s prompt options l w
  = (Ok (inr (name l, code l)), log [Sleep (debounce_s s)] (feed more w)).
Proof.
  intros Hw Hclk Hsw. unfold iteration.
  step (gpio_input_run (clk_pin s) idle _ w Hw).
  step (gpio_input_feed (dt_pin s) idle (pushed :: pushed :: idle :: more) w).
  step (gpio_input_feed (sw_pin s) pushed (pushed :: idle :: more) w).
  unfold rotate. rewrite Hclk, Z.eqb_refl. cbn [negb]. rewrite ret_bind.
  rewrite Hsw, pushed_differs. cbn [negb].
  unfold time_sleep.
  step (emit_run (Sleep (debounce_s s)) (feed (pushed :: idle :: more) w)).
  step (gpio_input_log_feed (sw_pin s) pushed (idle :: more) [Sleep (debounce_s s)] w).
  rewrite pushed_differs. cbn [negb]. cbv zeta. rewrite pushed_pressed.
  step (readings_left_run (log [Sleep (debounce_s s)] (feed (idle :: more) w))).
  cbn [gpio_in log feed length].
  step (wait_release_released (S (length more)) more
          (log [Sleep (debounce_s s)] (feed (idle :: more) w)) eq_refl).
  reflexivity.
Qed.

(** The loop over [n] idle iterations and a press. *)
Lemma loop_press (n : nat) (more : list Pins) (fuel : nat) (l : locals) (w : World) :
  (n < fuel)%nat ->
  gpio_in w = repeat idle (3 * n) ++ [idle; idle; pushed; pushed; idle] ++ more ->
  last_clk l = idle (clk_pin s) ->
  last_sw l = idle (sw_pin s) ->
  exists w',
    loop fuel s prompt options l w = (Ok (name l, code l), w')
    /\ gpio_in w' = more
    /\ exists evs, trace w' = trace w ++ evs.
Proof.
  revert fuel w. induction n as [| n IH]; intros fuel w Hfuel Hw Hclk Hsw;
    (destruct fuel as [| fuel]; [lia |]); cbn [loop].
  - cbn in Hw. rewrite (bind_run _ _ _ _ _ (iteration_press l more w Hw Hclk Hsw)).
    eexists. split; [reflexivity |]. cbn. split; [reflexivity |]. now eexists.
  - replace (3 * S n)%nat with (3 + 3 * n)%nat in Hw by lia.
    cbn [repeat Nat.add app] in Hw.
    rewrite (bind_run _ _ _ _ _ (iteration_idle l _ w Hw Hclk Hsw)).
    destruct (IH fuel (log [Sleep (poll_s s)]
                         (feed (repeat idle (3 * n)
                                ++ [idle; idle; pushed; pushed; idle] ++ more) w)))
      as (w' & Hrun & Hg & (evs & Ht)); auto; [lia |].
    exists w'. split; [exact Hrun |]. split; [exact Hg |].
    cbn in Ht. rewrite Ht, <- app_assoc. now eexists.
Qed.

Hypothesis nonempty : options <> [].

(** [select_one], fed one press without rotation, returns the option at
    [initial_index] modulo the length, having consumed the readings of the
    press and no other. *)
Lemma select_one_press (n : nat) (initial_index : Z) (more : list Pins) (w : World) :
  gpio_in w = one_press n idle pushed ++ more ->
  exists name0 code0 w',
    select_one s prompt options initial_index w = (Ok (name0, code0), w')
    /\ Py.getitem options (initial_index mod Py.len options) = Some (name0, code0)
    /\ gpio_in w' = more
    /\ exists hw, trace w' = trace w ++ LcdWrite prompt name0 :: hw.
Proof.
  intros Hw.
  destruct (select_one_start s prompt options nonempty initial_index w)
    as (name0 & code0 & w1 & rest & _ & Hget & _ & Hrun & Hg1 & (hw & Ht1) & Hrest).
  rewrite Hrun, Hrest. clear Hrun Hrest rest.
  rewrite Hw in Hg1. unfold one_press in Hg1.
  rewrite <- !app_assoc in Hg1. cbn [repeat app] in Hg1.
  step (gpio_input_run (clk_pin s) idle _ w1 Hg1).
  match goal with |- context [feed ?r w1] => set (pins2 := r) end.
  destruct (time_time_run (feed pins2 w1)) as (t0 & w3 & Htime & Hg3 & Ht3 & _).
  step Htime.
  step (readings_left_run w3).
  assert (Hg3' : gpio_in w3
                 = idle :: idle :: repeat idle (3 * n)
                          ++ [idle; idle; pushed; pushed; idle] ++ more).
  { rewrite Hg3. reflexivity. }
  rewrite Hg3'. cbn [length].
  match goal with |- context [settle (S ?f) s t0] =>
    step (settle_released f t0 _ w3 Hg3')
  end.
  step (gpio_input_feed (sw_pin s) idle
          (repeat idle (3 * n) ++ [idle; idle; pushed; pushed; idle] ++ more) w3).
  match goal with |- context [feed ?r w3] => set (w4 := feed r w3) end.
  step (readings_left_run w4).
  match goal with |- context [loop ?f s prompt options ?l w4] =>
    destruct (loop_press n more f l w4) as (w' & Hloop & Hg & (evs & Ht))
  end; auto.
  { subst w4. cbn [gpio_in feed]. rewrite !length_app, repeat_length. cbn. lia. }
  exists name0, code0, w'. split; [exact Hloop |]. split; [exact Hget |].
  split; [exact Hg |].
  subst w4. cbn [trace feed] in Ht. rewrite Ht, Ht3. cbn [trace feed].
  rewrite Ht1, <- app_assoc. cbn. now eexists.
Qed.

End Press.

(** ** The selection lets the world evolve *)

Section SelectionRaises.

Variable allowed : exn -> Prop.
Hypothesis allow_zero_division : allowed ZeroDivisionError.
Hypothesis allow_index : allowed IndexError.

Hint Resolve tame_time_time tame_gpio_input tame_emit tame_time_sleep
  tame_get_display tame_set_display tame_readings_left tame_lcd_write
  tame_lcd_clear_scroll tame_settle tame_wait_release : tame.

Lemma tame_rotate (prompt : str) (options : list (str * str))
    (l : LanguageSelector.locals) (clk dt : Z) :
  tame the_world allowed (LanguageSelector.rotate prompt options l clk dt).
Proof. unfold LanguageSelector.rotate. tame_auto. Qed.

Lemma tame_select_one (s : LanguageSelector.t) (prompt : str)
    (options : list (str * str)) (initial_index : Z) :
  tame the_world allowed (LanguageSelector.select_one s prompt options initial_index).
Proof.
  unfold LanguageSelector.select_one. tame_auto.
  apply tame_selector_loop. intros. apply tame_rotate.
Qed.

Lemma tame_select_pair (s : LanguageSelector.t) (choices : list (str * str))
    (initial_index : Z) :
  tame the_world allowed (LanguageSelector.select_pair s choices initial_index).
Proof.
  unfold LanguageSelector.select_pair.
  apply tame_bind; [apply tame_select_one | intros [name_1 code_1]].
  apply tame_bind; [apply tame_select_one | intros [name_2 code_2]].
  apply tame_ret.
Qed.

End SelectionRaises.

Section SelectionNeverRaises.

Variable s : LanguageSelector.t.
Variable prompt : str.
Variable options : list (str * str).
Hypothesis nonempty : options <> [].

Hint Resolve tame_time_time tame_gpio_input tame_emit tame_time_sleep
  tame_get_display tame_set_display tame_readings_left tame_lcd_write
  tame_lcd_clear_scroll tame_settle tame_wait_release : tame.

Lemma rotate_never_raises (l : LanguageSelector.locals) (clk dt : Z) :
  tame the_world never (LanguageSelector.rotate prompt options l clk dt).
Proof.
  intros w. unfold the_world.
  destruct (rotate_run prompt options nonempty l clk dt w)
    as (l1 & w1 & -> & Hg & Hsame & Hedge).
  cbn. split; [| discriminate].
  destruct (Z.eq_dec clk (LanguageSelector.last_clk l)) as [E | E].
  - destruct (Hsame E) as (_ & ->). apply evolves_refl.
  - destruct (Hedge E) as (_ & _ & _ & _ & (hw & Ht)).
    eapply evolves_log; eassumption.
Qed.

(** With a non-empty list of options, [select_one] first writes the option
    at [initial_index] modulo the length under the prompt, and raises
    nothing: it returns, or it is still waiting for the press. *)
Lemma select_one_outline (initial_index : Z) (w : World) :
  let r := LanguageSelector.select_one s prompt options initial_index w in
  exists name0 code0,
    Py.getitem options (initial_index mod Py.len options) = Some (name0, code0)
    /\ In (name0, code0) options
    /\ (exists evs, trace (snd r) = trace w ++ LcdWrite prompt name0 :: evs)
    /\ (exists used, gpio_in w = used ++ gpio_in (snd r))
    /\ forall e, fst r <> Raise e.
Proof.
  destruct (select_one_start s prompt options nonempty initial_index w)
    as (name0 & code0 & w1 & rest & _ & Hget & Hin & -> & Hg1 & (hw & Ht1) & ->).
  match goal with |- context [?m w1] =>
    assert (Hrest : tame the_world never m)
  end.
  { tame_auto. apply tame_selector_loop. apply rotate_never_raises. }
  destruct (Hrest w1) as (((evs & Ht) & (used & Hg)) & Hr). unfold the_world in *.
  cbv zeta. exists name0, code0.
  split; [exact Hget |]. split; [exact Hin |]. split; [| split].
  - exists (hw ++ evs). rewrite Ht, Ht1, <- app_assoc. reflexivity.
  - exists used. rewrite <- Hg1. exact Hg.
  - intros e E. exact (Hr e E).
Qed.

Lemma select_one_never_raises (initial_index : Z) :
  tame the_world never (LanguageSelector.select_one s prompt options initial_index).
Proof.
  intros w. unfold the_world.
  destruct (select_one_outline initial_index w)
    as (name0 & code0 & _ & _ & (evs & Ht) & Hg & Hr).
  split.
  - split; [eexists; exact Ht | exact Hg].
  - intros e E. exact (Hr e E).
Qed.

End SelectionNeverRaises.



(** An initial index of -1 shows French, the last option. *)
Example select_one_from_minus_one :
  lcd_writes (trace (snd (LanguageSelector.select_one selector0
                            (Py.lit "Select Lang 1:") choices0 (-1) world0)))
  = [LcdWrite (Py.lit "Select Lang 1:") (Py.lit "French")].
Proof. vm_compute. reflexivity. Qed.

(** ** The selection of a pair *)

Lemma gpio_input_ok (pin v : Z) (w w1 : World) :
  gpio_input pin w = (Ok v, w1) ->
  exists p rest, gpio_in w = p :: rest /\ v = p pin /\ w1 = feed rest w.
Proof.
  unfold gpio_input. destruct (gpio_in w) as [| p rest] eqn:E; intros H; inversion H.
  exists p, rest. auto.
Qed.

Lemma clk_at_evolves (s : LanguageSelector.t) (c : Z) (w w' : World) :
  evolves w w' -> clk_at s c w -> clk_at s c w'.
Proof.
  intros (_ & (used & Hg)) H. unfold clk_at in *. rewrite Hg in H.
  apply Forall_app in H. tauto.
Qed.

Section NoRotation.

Import LanguageSelector.

Variable s : t.
Variable prompt : str.
Variable options : list (str * str).
Hypothesis nonempty : options <> [].
Variable c : Z.

(** Without a CLK edge an iteration keeps the index and the option. *)
Lemma iteration_no_rotation (l : locals) (w w' : World) (r : locals + str * str)
    (i : Z) (x : str * str) :
  clk_at s c w -> last_clk l = c -> points_at i x l ->
  iteration s prompt options l w = (Ok r, w') ->
  clk_at s c w'
  /\ match r with
     | inl l' => last_clk l' = c /\ points_at i x l'
     | inr selected => selected = x
     end.
Proof.
  intros Hcalm Hclk (Hi & Hx) H.
  split.
  { eapply clk_at_evolves; [| exact Hcalm].
    pose proof (tame_selector_iteration never prompt options
                  (rotate_never_raises prompt options nonempty) s l w) as (He & _).
    unfold the_world in He. now rewrite H in He. }
  assert (Hreads : exists p1 p2 p3 more, gpio_in w = p1 :: p2 :: p3 :: more).
  { pose proof H as H'. unfold iteration in H'.
    apply bind_ok in H'. destruct H' as (clk & w1 & H1 & H').
    apply bind_ok in H'. destruct H' as (dt & w2 & H2 & H').
    apply bind_ok in H'. destruct H' as (sw & w3 & H3 & _).
    apply gpio_input_ok in H1. destruct H1 as (p1 & r1 & G1 & _ & ->).
    apply gpio_input_ok in H2. destruct H2 as (p2 & r2 & G2 & _ & ->).
    apply gpio_input_ok in H3. destruct H3 as (p3 & r3 & G3 & _ & _).
    cbn in G2, G3. subst r1 r2. now exists p1, p2, p3, r3. }
  destruct Hreads as (p1 & p2 & p3 & more & Hw).
  destruct (iteration_rotates s prompt options l p1 p2 p3 more w w' r Hw H)
    as (l1 & w1 & Hrot & Hr).
  assert (Hp1 : p1 (clk_pin s) = last_clk l).
  { unfold clk_at in Hcalm. rewrite Hw in Hcalm.
    apply Forall_cons_iff in Hcalm. rewrite Hclk. tauto. }
  destruct (rotate_run prompt options nonempty l (p1 (clk_pin s)) (p2 (dt_pin s))
              (feed more w)) as (l1' & w1' & Hrot' & _ & Hsame & _).
  rewrite Hrot in Hrot'. inversion Hrot'. subst l1' w1'.
  destruct (Hsame Hp1) as (-> & _).
  destruct r as [l' | selected].
  - destruct Hr as (E1 & E2 & E3 & E4). unfold points_at.
    rewrite E1, E2, E3, E4. auto.
  - rewrite Hr. exact Hx.
Qed.

Lemma loop_no_rotation (fuel : nat) (l : locals) (w w' : World)
    (selected : str * str) (i : Z) (x : str * str) :
  clk_at s c w -> last_clk l = c -> points_at i x l ->
  loop fuel s prompt options l w = (Ok selected, w') ->
  selected = x /\ clk_at s c w'.
Proof.
  revert l w. induction fuel as [| fuel IH]; intros l w Hcalm Hclk Hp H;
    cbn [loop] in H; [discriminate |].
  apply bind_ok in H. destruct H as (r & w1 & Hit & H).
  destruct (iteration_no_rotation l w w1 r i x Hcalm Hclk Hp Hit) as (Hcalm1 & Hr).
  destruct r as [l' | v].
  - destruct Hr as (Hclk' & Hp'). eapply IH; eassumption.
  - inversion H. subst. auto.
Qed.

(** Without rotation, what [select_one] returns is the option at
    [initial_index] modulo the length. *)
Lemma select_one_no_rotation (initial_index : Z) (w w' : World)
    (selected : str * str) :
  clk_at s c w ->
  select_one s prompt options initial_index w = (Ok selected, w') ->
  Py.getitem options (initial_index mod Py.len options) = Some selected
  /\ clk_at s c w'.
Proof.
  intros Hcalm H.
  destruct (select_one_start s prompt options nonempty initial_index w)
    as (name0 & code0 & w1 & rest & _ & Hget & _ & Hrun & Hg1 & _ & Hrest).
  rewrite Hrun, Hrest in H.
  assert (Hcalm1 : clk_at s c w1) by (unfold clk_at in *; now rewrite Hg1).
  apply bind_ok in H. destruct H as (clk0 & w2 & Hclk0 & H).
  apply gpio_input_ok in Hclk0. destruct Hclk0 as (p & pins & Hp & -> & ->).
  assert (Hpc : p (clk_pin s) = c /\ clk_at s c (feed pins w1)).
  { unfold clk_at in *. rewrite Hp in Hcalm1.
    apply Forall_cons_iff in Hcalm1. exact Hcalm1. }
  destruct Hpc as (Hpc & Hcalm2).
  apply bind_ok in H. destruct H as (t0 & w3 & Htime & H).
  apply bind_ok in H. destruct H as (f1 & w4 & Hf1 & H).
  apply bind_ok in H. destruct H as ([] & w5 & Hsettle & H).
  apply bind_ok in H. destruct H as (sw0 & w6 & Hsw0 & H).
  apply bind_ok in H. destruct H as (f2 & w7 & Hf2 & H).
  assert (Hcalm7 : clk_at s c w7).
  { inversion Hf1. inversion Hf2. subst.
    eapply clk_at_evolves.
    { pose proof (tame_gpio_input never (sw_pin s) w5) as (He & _).
      unfold the_world in He. rewrite Hsw0 in He. exact He. }
    eapply clk_at_evolves.
    { pose proof (tame_settle never (S (length (gpio_in w4))) s t0 w4) as (He & _).
      unfold the_world in He. rewrite Hsettle in He. exact He. }
    eapply clk_at_evolves; [| exact Hcalm2].
    pose proof (tame_time_time never (feed pins w1)) as (He & _).
    unfold the_world in He. rewrite Htime in He. exact He. }
  assert (Hres : selected = (name0, code0) /\ clk_at s c w').
  { eapply loop_no_rotation with (i := initial_index mod Py.len options);
      [exact Hcalm7 | | | exact H]; [exact Hpc | split; reflexivity]. }
  destruct Hres as (-> & Hcalm'). split; [exact Hget | exact Hcalm'].
Qed.

End NoRotation.

Lemma select_one_ok_nonempty (s : LanguageSelector.t) (prompt : str)
    (options : list (str * str)) (initial_index : Z) (w w' : World) (v : str * str) :
  LanguageSelector.select_one s prompt options initial_index w = (Ok v, w') ->
  options <> [].
Proof.
  intros H ->. unfold LanguageSelector.select_one in H.
  apply bind_ok in H. destruct H as ([] & w1 & _ & H).
  apply bind_ok in H. destruct H as (i & w2 & Hmod & _).
  discriminate Hmod.
Qed.

(** Where [l[i]] is defined, it is [l[i % len(l)]]. *)
Lemma getitem_mod_same {A : Type} (l : list A) (i : Z) (x : A) :
  Py.getitem l i = Some x -> Py.getitem l (i mod Py.len l) = Some x.
Proof.
  unfold Py.getitem at 1.
  destruct (Z.leb_spec 0 i) as [H0 | H0]; destruct (Z.ltb_spec i (Py.len l)) as [H1 | H1];
    cbn [andb].
  - intros Hx. rewrite Z.mod_small by lia. unfold Py.getitem.
    rewrite (proj2 (Z.leb_le _ _) H0), (proj2 (Z.ltb_lt _ _) H1). exact Hx.
  - destruct (Z.leb_spec (- Py.len l) i) as [H2 | H2];
      destruct (Z.ltb_spec i 0) as [H3 | H3]; cbn [andb];
      intros Hx; try discriminate Hx; lia.
  - destruct (Z.leb_spec (- Py.len l) i) as [H2 | H2]; cbn [andb];
      [| intros Hx; discriminate Hx].
    destruct (Z.ltb_spec i 0) as [H3 | H3]; [| lia]. intros Hx.
    assert (E : i mod Py.len l = Py.len l + i).
    { symmetry. apply Z.mod_unique with (q := -1); lia. }
    rewrite E. unfold Py.getitem.
    rewrite (proj2 (Z.leb_le 0 (Py.len l + i)) ltac:(lia)),
            (proj2 (Z.ltb_lt (Py.len l + i) (Py.len l)) ltac:(lia)).
    exact Hx.
  - unfold Py.len in *. lia.
Qed.



(** The scenario of the specification: three options, two presses. *)
Example select_pair_two_presses :
  fst (LanguageSelector.select_pair selector0 (firstn 3 choices0) 0
         (world_reading two_presses))
  = Ok ((Py.lit "eng_Latn", Py.lit "eng_Latn"), (Py.lit "eng_Latn", Py.lit "eng_Latn"),
        Py.lit "English", Py.lit "English").
Proof. vm_compute. reflexivity. Qed.

(** ** The controller lets the world evolve and raises no [RuntimeError] *)

Lemma tame_interruptible_sleep (allowed : exn -> Prop) (us : Z) :
  allowed KeyboardInterrupt -> tame the_world allowed (interruptible_sleep us).
Proof.
  intros Hk w. unfold interruptible_sleep, the_world.
  destruct (sigint w) as [| [|] rest]; cbn;
    (split; [now apply evolves_log with (evs := [Sleep us]) |]);
    intros e E; inversion E; subst; exact Hk.
Qed.

Section Controller.

Lemma other_allowed (e : exn) :
  match e with RuntimeError _ => True | _ => not_runtime e end.
Proof. destruct e; auto; intros msg; discriminate. Qed.

Hint Resolve tame_time_time tame_gpio_input tame_emit tame_time_sleep
  tame_get_display tame_set_display tame_readings_left tame_lcd_write
  tame_lcd_clear_scroll tame_lcd_set_scroll_text tame_lcd_tick_scroll
  tame_lcd_shutdown tame_button_poll tame_longpress_poll
  tame_recorder_stop tame_process
  tame_self tame_assign : tame.

Lemma tame_controller_select_pair (s : LanguageSelector.t)
    (choices : list (str * str)) (initial_index : Z) :
  tame the_world not_runtime (LanguageSelector.select_pair s choices initial_index).
Proof.
  apply tame_select_pair;
    [exact (other_allowed ZeroDivisionError) | exact (other_allowed IndexError)].
Qed.

Lemma tame_controller_recorder_start (r : AudioRecorder.t) :
  tame the_world not_runtime (AudioRecorder.start r).
Proof.
  apply tame_recorder_start;
    [exact (other_allowed FileNotFoundError) | exact (other_allowed ValueError)].
Qed.

Lemma tame_controller_sleep (us : Z) :
  tame the_world not_runtime (interruptible_sleep us).
Proof. apply tame_interruptible_sleep. exact (other_allowed KeyboardInterrupt). Qed.

Lemma tame_unpack (pair : option (str * str)) :
  tame app_world not_runtime (AppController.unpack pair).
Proof.
  unfold AppController.unpack. destruct pair; [apply tame_ret |].
  apply tame_raise. exact (other_allowed TypeError).
Qed.

Hint Resolve tame_controller_select_pair tame_controller_recorder_start
  tame_controller_sleep tame_unpack : tame.

Ltac tame_app :=
  repeat (cbv beta zeta;
          first [ tame_step | apply tame_lift; solve [auto with tame] ]).

Lemma tame_select_languages_startup :
  tame app_world not_runtime AppController.select_languages_startup.
Proof. unfold AppController.select_languages_startup. tame_app. Qed.

Lemma tame_reselect_languages : tame app_world not_runtime AppController.reselect_languages.
Proof. unfold AppController.reselect_languages. tame_app. Qed.

Lemma tame_start_record : tame app_world not_runtime AppController.start_record.
Proof. unfold AppController.start_record. tame_app. Qed.

Lemma tame_stop_record (src_lang tgt_lang : str) :
  tame app_world not_runtime (AppController.stop_record src_lang tgt_lang).
Proof. unfold AppController.stop_record. tame_app. Qed.

Lemma tame_show_ready : tame app_world not_runtime AppController.show_ready.
Proof. unfold AppController.show_ready. tame_app. Qed.

Hint Resolve tame_reselect_languages tame_start_record tame_stop_record
  tame_show_ready : tame.

Lemma tame_on_button (ev : option ButtonEvent)
    (langs : AppController.t -> option (str * str)) :
  tame app_world not_runtime (AppController.on_button ev langs).
Proof. unfold AppController.on_button. tame_app. Qed.

Lemma tame_poll_longpress : tame app_world not_runtime AppController.poll_longpress.
Proof. unfold AppController.poll_longpress. tame_app. Qed.

Hint Resolve tame_on_button tame_poll_longpress : tame.

Lemma tame_app_iteration : tame app_world not_runtime AppController.iteration.
Proof. unfold AppController.iteration. tame_app. Qed.

Hint Resolve tame_app_iteration : tame.

Lemma tame_main_loop (fuel : nat) : tame app_world not_runtime (AppController.main_loop fuel).
Proof. induction fuel as [| fuel IH]; cbn [AppController.main_loop]; tame_app. Qed.

Lemma tame_cleanup : tame app_world not_runtime AppController.cleanup.
Proof. unfold AppController.cleanup. tame_app. Qed.

Hint Resolve tame_main_loop tame_cleanup : tame.

(** What [run] does once the guard has passed and the ready message is
    shown: the loop, until Ctrl-C, and the cleanup. *)
Lemma tame_run_loop :
  tame app_world not_runtime
    (try_finally
       (except_KeyboardInterrupt
          (fuel <- AppController.lift readings_left ;; AppController.main_loop fuel)
          (ret tt))
       AppController.cleanup).
Proof. tame_app. Qed.

End Controller.

(** ** The controller *)

Lemma self_run (s : AppController.t * World) :
  AppController.self s = (Ok (fst s), s).
Proof. reflexivity. Qed.

Lemma lift_run {A : Type} (m : M A) (a : AppController.t) (w w1 : World) (x : A) :
  m w = (Ok x, w1) -> AppController.lift m (a, w) = (Ok x, (a, w1)).
Proof. intros H. unfold AppController.lift. cbn [fst snd]. now rewrite H. Qed.

(** C7. [AppController.run] on a controller one of whose language pairs is
    still [None] raises [RuntimeError] at once: the controller and the world
    are as before, no pin has been read and nothing has been written.  After
    [select_languages_startup] has returned, both pairs are set, and [run],
    in whatever world, does not raise [RuntimeError]: it goes on to show the
    ready message. *)
Theorem run_requires_languages :
  (forall (a : AppController.t) (w : World),
      AppController.lang_a_to_b a = None \/ AppController.lang_b_to_a a = None ->
      AppController.run (a, w) = (Raise AppController.not_selected, (a, w)))
  /\ (forall (a a' : AppController.t) (w w' : World),
        AppController.select_languages_startup (a, w) = (Ok tt, (a', w')) ->
        AppController.lang_a_to_b a' <> None
        /\ AppController.lang_b_to_a a' <> None
        /\ forall w'',
            (forall msg, fst (AppController.run (a', w'')) <> Raise (RuntimeError msg))
            /\ exists evs,
                 trace (snd (snd (AppController.run (a', w''))))
                 = trace w'' ++ LcdWrite (Py.lit "Ready") (Py.lit "Hold button") :: evs).
Proof.
  split.
  - intros a w H. unfold AppController.run, bind, AppController.self. cbn.
    destruct H as [-> | ->]; [reflexivity |].
    destruct (AppController.lang_a_to_b a); reflexivity.
  - intros a a' w w' H.
    unfold AppController.select_languages_startup in H.
    apply bind_ok in H. destruct H as (a0 & s1 & H0 & H).
    apply bind_ok in H. destruct H as (sel & s2 & H1 & H).
    unfold AppController.assign in H. injection H as Ha' Hw'.
    destruct sel as [[[ab ba] n1] n2].
    assert (Hab : AppController.lang_a_to_b a' = Some ab) by (now rewrite <- Ha').
    assert (Hba : AppController.lang_b_to_a a' = Some ba) by (now rewrite <- Ha').
    split; [congruence |]. split; [congruence |].
    intros w''.
    set (rest := try_finally
                   (except_KeyboardInterrupt
                      (fuel <- AppController.lift readings_left ;;
                       AppController.main_loop fuel) (ret tt))
                   AppController.cleanup).
    assert (Hrest : tame app_world not_runtime rest) by exact tame_run_loop.
    assert (Hrun : AppController.run (a', w'')
                   = rest (a',
                           log (LcdWrite (Py.lit "Ready") (Py.lit "Hold button")
                                  :: lcd_hw (display w'') (Py.lit "Ready") (Py.lit "Hold button"))
                               w'')).
    { unfold AppController.run.
      step (self_run (a', w'')). cbn [fst]. rewrite Hab, Hba.
      unfold AppController.show_ready.
      step (lift_run _ a' _ _ _
              (lcd_write_run (Py.lit "Ready") (Py.lit "Hold button") w'')).
      reflexivity. }
    rewrite Hrun.
    match goal with |- context [rest ?s] => destruct (Hrest s) as (((evs & He) & _) & Hr) end.
    split; [intros msg E; exact (Hr _ E msg eq_refl) |].
    unfold app_world in He. cbn [snd trace log] in He.
    eexists. rewrite He, <- app_assoc. cbn [app]. reflexivity.
Qed.

Lemma run_requires_languages_witness :
  (AppController.lang_a_to_b app0 = None \/ AppController.lang_b_to_a app0 = None)
  /\ AppController.run (app0, world0) = (Raise AppController.not_selected, (app0, world0))
  /\ exists a' w',
       AppController.select_languages_startup (app0, world_reading two_presses)
       = (Ok tt, (a', w'))
       /\ AppController.lang_a_to_b a' <> None
       /\ AppController.lang_b_to_a a' <> None
       /\ forall msg, fst (AppController.run (a', world0)) <> Raise (RuntimeError msg).
Proof.
  destruct run_requires_languages as (Hguard & Hselected).
  split; [left; reflexivity |].
  split; [exact (Hguard app0 world0 (or_introl eq_refl)) |].
  eassert (Hstart : AppController.select_languages_startup
                      (app0, world_reading two_presses) = (Ok tt, (_, _)))
    by (vm_compute; reflexivity).
  eexists _, _. split; [exact Hstart |].
  destruct (Hselected _ _ _ _ Hstart) as (Ha & Hb & Hrun).
  split; [exact Ha |]. split; [exact Hb |].
  exact (proj1 (Hrun world0)).
Defined.

(** ** Long press and recording *)

Section Keeps.

Context {X : Type} (f : AppController.t -> X).

Lemma keeps_ret {A : Type} (a : A) : keeps f (ret a).
Proof. intros s. reflexivity. Qed.

Lemma keeps_raise {A : Type} (e : exn) : keeps f (@raise _ A e).
Proof. intros s. reflexivity. Qed.

Lemma keeps_self : keeps f AppController.self.
Proof. intros s. reflexivity. Qed.

Lemma keeps_lift {A : Type} (m : M A) : keeps f (AppController.lift m).
Proof. intros [a w]. unfold AppController.lift. cbn. now destruct (m w). Qed.

Lemma keeps_assign (g : AppController.t -> AppController.t) :
  (forall a, f (g a) = f a) -> keeps f (AppController.assign g).
Proof. intros H s. cbn. apply H. Qed.

Lemma keeps_bind {A B : Type} (m : AppController.AppM A)
    (k : A -> AppController.AppM B) :
  keeps f m -> (forall a, keeps f (k a)) -> keeps f (bind m k).
Proof.
  intros Hm Hk s. unfold bind. specialize (Hm s).
  destruct (m s) as [[a | e |] s1]; cbn in *; auto.
  rewrite (Hk a s1). exact Hm.
Qed.

Lemma keeps_unpack (pair : option (str * str)) : keeps f (AppController.unpack pair).
Proof. destruct pair; intros s; reflexivity. Qed.

End Keeps.

Ltac keeps_step :=
  first
    [ apply keeps_ret | apply keeps_raise | apply keeps_self | apply keeps_lift
    | apply keeps_unpack
    | apply keeps_assign; intros ?; reflexivity
    | assumption
    | apply keeps_bind; [| intros ?]
    | match goal with
      | |- keeps _ (match ?x with _ => _ end) => destruct x
      end ].

Ltac keeps_auto := repeat (cbv beta zeta; keeps_step).

Lemma start_record_keeps_languages : keeps languages AppController.start_record.
Proof. unfold AppController.start_record. keeps_auto. Qed.

Lemma stop_record_keeps_languages (src_lang tgt_lang : str) :
  keeps languages (AppController.stop_record src_lang tgt_lang).
Proof. unfold AppController.stop_record. keeps_auto. Qed.

Lemma on_button_keeps_languages (ev : option ButtonEvent)
    (langs : AppController.t -> option (str * str)) :
  keeps languages (AppController.on_button ev langs).
Proof.
  unfold AppController.on_button.
  pose proof start_record_keeps_languages.
  pose proof stop_record_keeps_languages.
  keeps_auto.
Qed.

Lemma reselect_keeps_recorder : keeps AppController.recorder AppController.reselect_languages.
Proof.
  unfold AppController.reselect_languages.
  apply keeps_bind; [apply keeps_lift | intros _].
  apply keeps_bind; [apply keeps_self | intros a].
  apply keeps_bind; [apply keeps_lift | intros sel].
  apply keeps_bind; [| intros _; apply keeps_lift].
  apply keeps_assign. intros b. now destruct sel as [[[ab ba] n1] n2].
Qed.

Lemma poll_longpress_keeps_recorder :
  keeps AppController.recorder AppController.poll_longpress.
Proof.
  unfold AppController.poll_longpress. pose proof reselect_keeps_recorder. keeps_auto.
Qed.

Lemma lift_apply {A : Type} (m : M A) (a : AppController.t) (w : World) :
  AppController.lift m (a, w) = (fst (m w), (a, snd (m w))).
Proof. unfold AppController.lift. cbn [fst snd]. now destruct (m w). Qed.

(** A call of [poll] with [enabled=False] returns [False]. *)
Lemma longpress_poll_at_disabled (d : LongPressDetector.t) (t raw : Z) :
  snd (LongPressDetector.poll_at t raw false d) = false.
Proof. reflexivity. Qed.

Lemma longpress_poll_disabled (d d' : LongPressDetector.t) (fire : bool) (w w' : World) :
  LongPressDetector.poll d false w = (Ok (d', fire), w') -> fire = false.
Proof.
  unfold LongPressDetector.poll. intros H.
  apply bind_ok in H. destruct H as (t & w1 & _ & H).
  apply bind_ok in H. destruct H as (raw & w2 & _ & H).
  inversion H. reflexivity.
Qed.

(** While recording, the long-press part of an iteration only polls the
    detector: nothing is selected, written or slept. *)
Lemma poll_longpress_while_recording (a : AppController.t) (w : World) :
  AudioRecorder.is_recording (AppController.recorder a) = true ->
  let r := AppController.poll_longpress (a, w) in
  languages (fst (snd r)) = languages a
  /\ AppController.recorder (fst (snd r)) = AppController.recorder a
  /\ trace (snd (snd r)) = trace w
  /\ display (snd (snd r)) = display w
  /\ (length (gpio_in w) <= 1 + length (gpio_in (snd (snd r))))%nat.
Proof.
  intros Hrec r.
  destruct (time_time_run w) as (t & w1 & Htime & Hg1 & Ht1 & Hd1).
  set (d := AppController.lang_longpress a).
  assert (Hr : (gpio_in w1 = [] /\ r = (Blocked, (a, w1)))
               \/ exists p rest,
                    gpio_in w1 = p :: rest
                    /\ r = (Ok tt,
                            (AppController.with_lang_longpress
                               (fst (LongPressDetector.poll_at t
                                       (p (LongPressDetector.pin d)) false d)) a,
                             feed rest w1))).
  { subst r. unfold AppController.poll_longpress.
    step (self_run (a, w)). cbn [fst]. rewrite Hrec. cbn [negb]. fold d.
    unfold LongPressDetector.poll.
    destruct (gpio_in w1) as [| p rest] eqn:Epins; [left | right].
    - split; [reflexivity |].
      unfold bind at 1. rewrite lift_apply.
      rewrite (bind_run _ _ _ _ _ Htime). cbv beta.
      unfold bind, gpio_input. rewrite Epins. reflexivity.
    - exists p, rest. split; [reflexivity |].
      assert (Hpoll : (now <- time_time ;;
                       raw <- gpio_input (LongPressDetector.pin d) ;;
                       ret (LongPressDetector.poll_at now raw false d)) w
                      = (Ok (LongPressDetector.poll_at t (p (LongPressDetector.pin d))
                               false d),
                         feed rest w1)).
      { step Htime. step (gpio_input_run (LongPressDetector.pin d) p rest w1 Epins).
        reflexivity. }
      step (lift_run _ a _ _ _ Hpoll).
      reflexivity. }
  destruct Hr as [(Epins & ->) | (p & rest & Epins & ->)]; cbn [fst snd].
  - rewrite <- Hg1, Epins. cbn. repeat split; auto.
  - rewrite <- Hg1, Epins. cbn. repeat split; auto.
Qed.

(** The long-press part and the end of an iteration. *)
Lemma iteration_end_no_reselection :
  no_reselection_while_recording
    (AppController.poll_longpress ;;
     a <- AppController.self ;;
     AppController.lift
       (LCD.tick_scroll (AudioRecorder.is_recording (AppController.recorder a))) ;;
     AppController.lift (interruptible_sleep (AppController.poll_s a))).
Proof.
  intros [a w].
  set (finish := a <- AppController.self ;;
                 AppController.lift
                   (LCD.tick_scroll (AudioRecorder.is_recording (AppController.recorder a))) ;;
                 AppController.lift (interruptible_sleep (AppController.poll_s a))).
  assert (Hfinish : keeps (fun a => a) finish) by (subst finish; keeps_auto).
  pose proof (poll_longpress_keeps_recorder (a, w)) as Hrec.
  unfold no_reselection_while_recording in *.
  change ((AppController.poll_longpress ;; finish) (a, w))
    with (match AppController.poll_longpress (a, w) with
          | (Ok _, s1) => finish s1
          | (Raise e, s1) => (Raise e, s1)
          | (Blocked, s1) => (Blocked, s1)
          end).
  destruct (AppController.poll_longpress (a, w)) as [[[] | e |] s1] eqn:E;
    cbn [fst snd] in *.
  - rewrite (Hfinish s1). intros Hr. rewrite Hrec in Hr.
    pose proof (poll_longpress_while_recording a w Hr) as (Hl & _).
    cbv zeta in Hl. now rewrite E in Hl.
  - intros Hr. rewrite Hrec in Hr.
    pose proof (poll_longpress_while_recording a w Hr) as (Hl & _).
    cbv zeta in Hl. now rewrite E in Hl.
  - intros Hr. rewrite Hrec in Hr.
    pose proof (poll_longpress_while_recording a w Hr) as (Hl & _).
    cbv zeta in Hl. now rewrite E in Hl.
Qed.

Lemma no_reselection_bind {A B : Type} (m : AppController.AppM A)
    (k : A -> AppController.AppM B) :
  keeps languages m ->
  (forall a, no_reselection_while_recording (k a)) ->
  no_reselection_while_recording (bind m k).
Proof.
  intros Hm Hk s. unfold bind. specialize (Hm s).
  destruct (m s) as [[a | e |] s1]; cbn [fst snd] in *; auto.
  intros Hr. rewrite (Hk a s1 Hr). exact Hm.
Qed.

(** An iteration of the main loop that leaves the controller recording has
    not re-selected the languages. *)
Lemma iteration_no_reselection :
  no_reselection_while_recording AppController.iteration.
Proof.
  unfold AppController.iteration.
  pose proof on_button_keeps_languages as Hbutton.
  apply no_reselection_bind; [keeps_auto | intros a].
  apply no_reselection_bind; [keeps_auto | intros [b ev_a]].
  apply no_reselection_bind; [keeps_auto | intros _].
  apply no_reselection_bind; [apply Hbutton | intros _].
  apply no_reselection_bind; [keeps_auto | intros a1].
  apply no_reselection_bind; [keeps_auto | intros [b' ev_b]].
  apply no_reselection_bind; [keeps_auto | intros _].
  apply no_reselection_bind; [apply Hbutton | intros _].
  exact iteration_end_no_reselection.
Qed.

Lemma reselect_keeps_longpress :
  keeps AppController.lang_longpress AppController.reselect_languages.
Proof.
  unfold AppController.reselect_languages.
  apply keeps_bind; [apply keeps_lift | intros _].
  apply keeps_bind; [apply keeps_self | intros a].
  apply keeps_bind; [apply keeps_lift | intros sel].
  apply keeps_bind; [| intros _; apply keeps_lift].
  apply keeps_assign. intros b. now destruct sel as [[[ab ba] n1] n2].
Qed.

(** The detector is left as a call of [poll] with [enabled] the negation of
    [is_recording] leaves it. *)
Lemma poll_longpress_enabled (a : AppController.t) (w w1 : World) (t : Z)
    (p : Pins) (rest : list Pins) :
  time_time w = (Ok t, w1) -> gpio_in w1 = p :: rest ->
  let d := AppController.lang_longpress a in
  let enabled := negb (AudioRecorder.is_recording (AppController.recorder a)) in
  AppController.lang_longpress (fst (snd (AppController.poll_longpress (a, w))))
  = fst (LongPressDetector.poll_at t (p (LongPressDetector.pin d)) enabled d).
Proof.
  intros Htime Epins d enabled. unfold AppController.poll_longpress.
  step (self_run (a, w)). cbn [fst]. fold d. fold enabled.
  assert (Hpoll : LongPressDetector.poll d enabled w
                  = (Ok (LongPressDetector.poll_at t (p (LongPressDetector.pin d)) enabled d),
                     feed rest w1)).
  { unfold LongPressDetector.poll. step Htime.
    step (gpio_input_run (LongPressDetector.pin d) p rest w1 Epins). reflexivity. }
  step (lift_run _ a _ _ _ Hpoll).
  destruct (LongPressDetector.poll_at t (p (LongPressDetector.pin d)) enabled d)
    as [d' fire].
  match goal with |- context [bind (AppController.assign ?g) ?k ?s] =>
    change (bind (AppController.assign g) k s) with (k tt (g (fst s), snd s))
  end.
  cbv beta. cbn [fst snd].
  destruct fire; [| reflexivity].
  rewrite (reselect_keeps_longpress _). reflexivity.
Qed.



(** ** The loops are unrolled far enough *)

(** The loops of the program are unrolled as many times as there are GPIO
    readings left, and once more.  Unrolling them further changes nothing:
    a loop that has not returned by then is waiting for a reading. *)

Lemma bind_ext_on {S A B : Type} (m : St S A) (k1 k2 : A -> St S B) (s : S) :
  (forall a s1, m s = (Ok a, s1) -> k1 a s1 = k2 a s1) ->
  bind m k1 s = bind m k2 s.
Proof.
  intros H. unfold bind. destruct (m s) as [[a | e |] s1]; auto.
Qed.

Lemma gpio_input_shrinks (pin v : Z) (w w1 : World) :
  gpio_input pin w = (Ok v, w1) ->
  (length (gpio_in w1) < length (gpio_in w))%nat.
Proof.
  intros H. apply gpio_input_ok in H. destruct H as (p & rest & Hw & _ & ->).
  rewrite Hw. cbn. lia.
Qed.

Lemma evolves_length (w w' : World) :
  evolves w w' -> (length (gpio_in w') <= length (gpio_in w))%nat.
Proof. intros (_ & (used & ->)). rewrite length_app. lia. Qed.

Lemma ok_evolves {A : Type} (allowed : exn -> Prop) (m : M A) (w w' : World) (a : A) :
  tame the_world allowed m -> m w = (Ok a, w') -> evolves w w'.
Proof. intros H E. destruct (H w) as (He & _). unfold the_world in He. now rewrite E in He. Qed.

Lemma wait_release_fuel (s : LanguageSelector.t) (fuel : nat) (w : World) :
  (length (gpio_in w) < fuel)%nat ->
  LanguageSelector.wait_release (S fuel) s w = LanguageSelector.wait_release fuel s w.
Proof.
  revert w. induction fuel as [| fuel IH]; intros w H; [lia |].
  change (LanguageSelector.wait_release (S (S fuel)) s w)
    with ((sw <- gpio_input (LanguageSelector.sw_pin s) ;;
           if LanguageSelector._sw_pressed s sw
           then time_sleep 10000 ;; LanguageSelector.wait_release (S fuel) s
           else ret tt) w).
  change (LanguageSelector.wait_release (S fuel) s w)
    with ((sw <- gpio_input (LanguageSelector.sw_pin s) ;;
           if LanguageSelector._sw_pressed s sw
           then time_sleep 10000 ;; LanguageSelector.wait_release fuel s
           else ret tt) w).
  apply bind_ext_on. intros sw w1 Hin.
  destruct (LanguageSelector._sw_pressed s sw); [| reflexivity].
  apply bind_ext_on. intros [] w2 Hsleep.
  apply IH. apply gpio_input_shrinks in Hin.
  inversion Hsleep. cbn. lia.
Qed.

Lemma settle_fuel (s : LanguageSelector.t) (start : Z) (fuel : nat) (w : World) :
  (length (gpio_in w) < fuel)%nat ->
  LanguageSelector.settle (S fuel) s start w = LanguageSelector.settle fuel s start w.
Proof.
  revert w. induction fuel as [| fuel IH]; intros w H; [lia |].
  change (LanguageSelector.settle (S (S fuel)) s start w)
    with ((sw <- gpio_input (LanguageSelector.sw_pin s) ;;
           if LanguageSelector._sw_pressed s sw then
             t <- time_time ;;
             if t - start <? 500000
             then time_sleep 10000 ;; LanguageSelector.settle (S fuel) s start
             else ret tt
           else ret tt) w).
  change (LanguageSelector.settle (S fuel) s start w)
    with ((sw <- gpio_input (LanguageSelector.sw_pin s) ;;
           if LanguageSelector._sw_pressed s sw then
             t <- time_time ;;
             if t - start <? 500000
             then time_sleep 10000 ;; LanguageSelector.settle fuel s start
             else ret tt
           else ret tt) w).
  apply bind_ext_on. intros sw w1 Hin.
  destruct (LanguageSelector._sw_pressed s sw); [| reflexivity].
  apply bind_ext_on. intros t w2 Htime.
  destruct (t - start <? 500000); [| reflexivity].
  apply bind_ext_on. intros [] w3 Hsleep.
  apply IH. apply gpio_input_shrinks in Hin.
  destruct (time_time_run w1) as (t' & w2' & Htime' & Hg & _).
  rewrite Htime in Htime'. inversion Htime'. subst.
  inversion Hsleep. cbn. rewrite Hg. lia.
Qed.

(** An iteration of the selection that goes on has taken a reading. *)
Lemma selector_iteration_shrinks (s : LanguageSelector.t) (prompt : str)
    (options : list (str * str)) (l : LanguageSelector.locals) (w w' : World)
    (r : LanguageSelector.locals + str * str) :
  LanguageSelector.iteration s prompt options l w = (Ok r, w') ->
  (length (gpio_in w') < length (gpio_in w))%nat.
Proof.
  intros H. unfold LanguageSelector.iteration in H.
  apply bind_ok in H. destruct H as (clk & w1 & Hin & H).
  apply gpio_input_shrinks in Hin.
  match type of H with ?k w1 = _ =>
    assert (Hk : tame the_world (fun _ => True) k)
  end.
  { pose proof (tame_gpio_input (fun _ => True)).
    pose proof (tame_time_sleep (fun _ => True)).
    pose proof (tame_readings_left (fun _ => True)).
    pose proof (tame_wait_release (fun _ => True)).
    pose proof (tame_rotate (fun _ => True) I I).
    tame_auto. }
  apply (ok_evolves _ _ _ _ _ Hk) in H. apply evolves_length in H. lia.
Qed.

Lemma selector_loop_fuel (s : LanguageSelector.t) (prompt : str)
    (options : list (str * str)) (fuel : nat) (l : LanguageSelector.locals) (w : World) :
  (length (gpio_in w) < fuel)%nat ->
  LanguageSelector.loop (S fuel) s prompt options l w
  = LanguageSelector.loop fuel s prompt options l w.
Proof.
  revert l w. induction fuel as [| fuel IH]; intros l w H; [lia |].
  change (LanguageSelector.loop (S (S fuel)) s prompt options l w)
    with ((r <- LanguageSelector.iteration s prompt options l ;;
           match r with
           | inl l' => LanguageSelector.loop (S fuel) s prompt options l'
           | inr selected => ret selected
           end) w).
  change (LanguageSelector.loop (S fuel) s prompt options l w)
    with ((r <- LanguageSelector.iteration s prompt options l ;;
           match r with
           | inl l' => LanguageSelector.loop fuel s prompt options l'
           | inr selected => ret selected
           end) w).
  apply bind_ext_on. intros [l' | selected] w1 Hit; [| reflexivity].
  apply IH. apply selector_iteration_shrinks in Hit. lia.
Qed.

(** The selection loop, unrolled to the readings left, is the loop unrolled
    any further. *)
Lemma selector_loop_unrolled (s : LanguageSelector.t) (prompt : str)
    (options : list (str * str)) (l : LanguageSelector.locals) (w : World) (n : nat) :
  LanguageSelector.loop (n + S (length (gpio_in w))) s prompt options l w
  = LanguageSelector.loop (S (length (gpio_in w))) s prompt options l w.
Proof.
  induction n as [| n IH]; [reflexivity |].
  cbn [Nat.add]. rewrite selector_loop_fuel by lia. exact IH.
Qed.

(** An iteration of the main loop that goes on has taken a reading. *)
Lemma app_iteration_shrinks (a a' : AppController.t) (w w' : World) :
  AppController.iteration (a, w) = (Ok tt, (a', w')) ->
  (length (gpio_in w') < length (gpio_in w))%nat.
Proof.
  intros H. unfold AppController.iteration in H.
  apply bind_ok in H. destruct H as (a0 & s0 & Hself & H).
  rewrite self_run in Hself. inversion Hself. subst a0 s0. clear Hself.
  apply bind_ok in H. destruct H as ([b ev_a] & [a1 w1] & Hpoll & H).
  rewrite lift_apply in Hpoll. inversion Hpoll as [[Hr Ha Hw]]. subst a1.
  assert (Hshrink : (length (gpio_in w1) < length (gpio_in w))%nat).
  { destruct (DebouncedButton.poll (AppController.btn_a a) w) as [r w1'] eqn:E.
    cbn [fst snd] in Hr, Hw. subst r w1'.
    unfold DebouncedButton.poll in E.
    apply bind_ok in E. destruct E as (t & w2 & Htime & E).
    apply bind_ok in E. destruct E as (raw & w3 & Hin & E).
    inversion E. subst w3.
    apply gpio_input_shrinks in Hin.
    destruct (time_time_run w) as (t' & w2' & Htime' & Hg & _).
    rewrite Htime in Htime'. injection Htime' as -> ->. rewrite <- Hg. exact Hin. }
  match type of H with ?k (a, w1) = _ =>
    assert (Hk : tame app_world not_runtime k)
  end.
  { pose proof tame_assign. pose proof tame_self.
    pose proof tame_on_button. pose proof tame_poll_longpress.
    pose proof (fun b => tame_lift not_runtime _ (tame_button_poll not_runtime b)).
    pose proof (fun r => tame_lift not_runtime _ (tame_lcd_tick_scroll not_runtime r)).
    pose proof (fun us => tame_lift not_runtime _ (tame_controller_sleep us)).
    tame_auto. }
  destruct (Hk (a, w1)) as (He & _). rewrite H in He. unfold app_world in He.
  cbn [snd] in He. apply evolves_length in He. lia.
Qed.

Lemma main_loop_fuel (fuel : nat) (a : AppController.t) (w : World) :
  (length (gpio_in w) < fuel)%nat ->
  AppController.main_loop (S fuel) (a, w) = AppController.main_loop fuel (a, w).
Proof.
  revert a w. induction fuel as [| fuel IH]; intros a w H; [lia |].
  change (AppController.main_loop (S (S fuel)) (a, w))
    with ((AppController.iteration ;; AppController.main_loop (S fuel)) (a, w)).
  change (AppController.main_loop (S fuel) (a, w))
    with ((AppController.iteration ;; AppController.main_loop fuel) (a, w)).
  apply bind_ext_on. intros [] [a1 w1] Hit.
  apply IH. apply app_iteration_shrinks in Hit. lia.
Qed.

(** The main loop, unrolled to the readings left, is the loop unrolled any
    further. *)
Lemma main_loop_unrolled (a : AppController.t) (w : World) (n : nat) :
  AppController.main_loop (n + S (length (gpio_in w))) (a, w)
  = AppController.main_loop (S (length (gpio_in w))) (a, w).
Proof.
  induction n as [| n IH]; [reflexivity |].
  cbn [Nat.add]. rewrite main_loop_fuel by lia. exact IH.
Qed.

(** * Further properties *)

(** ** The recorder: start, and start followed by stop *)

(** A path without a NUL character. *)
Lemma no_nul (path : str) : ~ In 0%N path -> existsb (N.eqb 0) path = false.
Proof.
  intros H. destruct (existsb (N.eqb 0) path) eqn:E; [| reflexivity].
  apply existsb_exists in E. destruct E as (c & Hin & Hc).
  apply N.eqb_eq in Hc. subst c. contradiction.
Qed.

Lemma with_nul (path : str) : In 0%N path -> existsb (N.eqb 0) path = true.
Proof. intros H. apply existsb_exists. exists 0%N. now split. Qed.

(** [start] on an idle recorder whose output directory has a name that can
    be made. *)
Lemma recorder_start_run (r : AudioRecorder.t) (w : World) :
  AudioRecorder.is_recording r = false ->
  AudioRecorder.out_dir r <> [] ->
  ~ In 0%N (AudioRecorder.out_dir r) ->
  exists t w1,
    AudioRecorder.start r w
    = (Ok (AudioRecorder.with_session (Some ArecordProcess) (Some t) r), w1)
    /\ fst (time_time w) = Ok t
    /\ clock w1 = tl (clock w)
    /\ display w1 = display w
    /\ gpio_in w1 = gpio_in w
    /\ trace w1
       = trace w
         ++ [MakeDirs (AudioRecorder.out_dir r);
             Popen (AudioRecorder.mic_device r) (AudioRecorder.fmt r)
               (AudioRecorder.rate r) (AudioRecorder.wav_path r)].
Proof.
  intros H Hdir Hnul. unfold AudioRecorder.start, AudioRecorder.is_recording in *.
  destruct (AudioRecorder._proc r); [discriminate |].
  unfold makedirs. rewrite (truthy_nonempty _ Hdir), (no_nul _ Hnul).
  unfold bind, emit, ret, time_time. cbn.
  destruct (clock w) as [| t rest]; cbn;
    eexists _, _; (split; [reflexivity |]); (split; [reflexivity |]);
    (split; [reflexivity |]); (split; [reflexivity |]); (split; [reflexivity |]);
    rewrite <- app_assoc; reflexivity.
Qed.

(** [start] on an idle recorder whose output directory is the empty path:
    [os.makedirs] raises, and nothing else is done. *)
Lemma recorder_start_no_dir (r : AudioRecorder.t) (w : World) :
  AudioRecorder.is_recording r = false ->
  AudioRecorder.out_dir r = [] ->
  AudioRecorder.start r w = (Raise FileNotFoundError, w).
Proof.
  intros H Hdir. unfold AudioRecorder.start, AudioRecorder.is_recording in *.
  destruct (AudioRecorder._proc r); [discriminate |].
  unfold makedirs. rewrite Hdir. reflexivity.
Qed.

(** [start] on an idle recorder whose output directory holds a NUL. *)
Lemma recorder_start_nul (r : AudioRecorder.t) (w : World) :
  AudioRecorder.is_recording r = false ->
  In 0%N (AudioRecorder.out_dir r) ->
  AudioRecorder.start r w = (Raise ValueError, w).
Proof.
  intros H Hnul. unfold AudioRecorder.start, AudioRecorder.is_recording in *.
  destruct (AudioRecorder._proc r); [discriminate |].
  unfold makedirs. rewrite (with_nul _ Hnul).
  destruct (AudioRecorder.out_dir r); [contradiction | reflexivity].
Qed.

(** [start] on an idle recorder: it raises and nothing is done, or it
    starts a capture. *)
Lemma recorder_start_cases (r : AudioRecorder.t) (w : World) :
  AudioRecorder.is_recording r = false ->
  (AudioRecorder.start r w = (Raise FileNotFoundError, w)
   \/ AudioRecorder.start r w = (Raise ValueError, w))
  \/ exists t w1,
       AudioRecorder.start r w
       = (Ok (AudioRecorder.with_session (Some ArecordProcess) (Some t) r), w1)
       /\ fst (time_time w) = Ok t
       /\ clock w1 = tl (clock w)
       /\ display w1 = display w
       /\ gpio_in w1 = gpio_in w
       /\ trace w1
          = trace w
            ++ [MakeDirs (AudioRecorder.out_dir r);
                Popen (AudioRecorder.mic_device r) (AudioRecorder.fmt r)
                  (AudioRecorder.rate r) (AudioRecorder.wav_path r)].
Proof.
  intros H.
  destruct (AudioRecorder.out_dir r) as [| c dir] eqn:Edir.
  { left. left. now apply recorder_start_no_dir. }
  destruct (in_dec N.eq_dec 0%N (AudioRecorder.out_dir r)) as [Hnul | Hnul].
  { left. right. now apply recorder_start_nul. }
  right. rewrite <- Edir. apply recorder_start_run; auto.
  rewrite Edir. discriminate.
Qed.





(** ** The display: what is written, and when it scrolls *)

Lemma upto_nonneg {A : Type} (c : Z) (l : list A) :
  0 <= c -> Py.upto c l = firstn (Z.to_nat c) l.
Proof. intros H. rewrite <- (upto_firstn (Z.to_nat c) l). now rewrite Z2Nat.id. Qed.

Lemma firstn_prefix {A : Type} (n : nat) (l : list A) :
  firstn n l = firstn (length (firstn n l)) l.
Proof.
  rewrite length_firstn. destruct (Nat.min_spec n (length l)) as [(_ & ->) | (H & ->)].
  - reflexivity.
  - now rewrite !firstn_all2 by lia.
Qed.

(** [LCDDisplay.write] with no display attached calls the driver not at all;
    with one, it clears first, and every string it hands to the driver is the
    beginning of one of the two lines, at most [cols] characters long; a
    first line which fits is written whole, and with one row the second line
    is never written. *)
Theorem lcd_write_fits (line1 line2 : str) (w : World) :
  0 <= cols (display w) ->
  exists hw,
    LCD.write line1 line2 w = (Ok tt, log (LcdWrite line1 line2 :: hw) w)
    /\ (lcd (display w) = None -> hw = [])
    /\ (lcd (display w) <> None -> exists rest, hw = HwClear :: rest)
    /\ (forall s, In s (hw_strings hw) ->
          Py.len s <= cols (display w)
          /\ (prefix_of line1 s \/ (1 < rows (display w) /\ prefix_of line2 s)))
    /\ (lcd (display w) <> None -> line1 <> [] ->
        Py.len line1 <= cols (display w) -> In line1 (hw_strings hw)).
Proof.
  intros Hc. exists (lcd_hw (display w) line1 line2).
  split; [apply lcd_write_run |].
  unfold lcd_hw. destruct (lcd (display w)) as [h |].
  2:{ split; [reflexivity |]. split; [congruence |].
      split; [intros s [] | congruence]. }
  split; [discriminate |].
  split; [intros _; eexists; reflexivity |].
  assert (Hfit : forall l : str,
             Py.len (Py.upto (cols (display w)) l) <= cols (display w)
             /\ prefix_of l (Py.upto (cols (display w)) l)).
  { intros l. rewrite upto_nonneg by exact Hc. split.
    - unfold Py.len. rewrite length_firstn. lia.
    - apply firstn_prefix. }
  split.
  - intros s Hs. cbn [hw_strings flat_map app] in Hs.
    fold (hw_strings) in Hs. unfold hw_strings in Hs.
    rewrite flat_map_app in Hs. apply in_app_or in Hs.
    destruct Hs as [Hs | Hs].
    + destruct (Py.truthy line1); cbn in Hs; [| contradiction].
      destruct Hs as [<- | []]. destruct (Hfit line1). auto.
    + destruct (Z.ltb_spec 1 (rows (display w))) as [Hr | Hr]; cbn [andb] in Hs;
        [| contradiction].
      destruct (Py.truthy line2); cbn in Hs; [| contradiction].
      destruct Hs as [<- | []]. destruct (Hfit line2). auto.
  - intros _ Hne Hlen. rewrite (truthy_nonempty _ Hne).
    cbn. left. rewrite upto_nonneg by exact Hc.
    apply firstn_all2. unfold Py.len in Hlen. lia.
Qed.

Lemma lcd_write_fits_witness :
  0 <= cols (display world0)
  /\ exists hw,
       LCD.write (Py.lit "Ready") (Py.lit "Hold button or rotate") world0
       = (Ok tt, log (LcdWrite (Py.lit "Ready") (Py.lit "Hold button or rotate") :: hw)
                   world0)
       /\ (forall s, In s (hw_strings hw) -> Py.len s <= 16).
Proof.
  split; [vm_compute; discriminate |].
  destruct (lcd_write_fits (Py.lit "Ready") (Py.lit "Hold button or rotate") world0)
    as (hw & Hrun & _ & _ & Hfit & _); [vm_compute; discriminate |].
  exists hw. split; [exact Hrun |].
  intros s Hs. exact (proj1 (Hfit s Hs)).
Defined.

Lemma get_display_run (w : World) : get_display w = (Ok (display w), w).
Proof. reflexivity. Qed.

(** What [tick_scroll] does when one of its four tests stops it, and when
    none does. *)
Lemma tick_scroll_cases (is_recording : bool) (w : World) :
  exists t w1,
    time_time w = (Ok t, w1)
    /\ ((LCD.tick_scroll is_recording w = (Ok tt, w)
         /\ (lcd (display w) = None \/ _scroll_text (display w) = []
             \/ is_recording = true))
        \/ (LCD.tick_scroll is_recording w = (Ok tt, w1)
            /\ t - _scroll_last_time (display w) < scroll_interval_s (display w))
        \/ (lcd (display w) <> None /\ _scroll_text (display w) <> []
            /\ is_recording = false
            /\ scroll_interval_s (display w) <= t - _scroll_last_time (display w)
            /\ LCD.tick_scroll is_recording w
               = (let d := display w in
                  let offset := if Py.len (padded d) <=? _scroll_offset d
                                then 0 else _scroll_offset d in
                  let window := Py.slice offset (offset + cols d) (padded d) in
                  let window := if Py.len window <? cols d
                                then Py.ljust (cols d) window else window in
                  (Ok tt,
                   log [HwCursor 1 0;
                        HwWriteString (repeat 32%N (Z.to_nat (cols d)));
                        HwCursor 1 0; HwWriteString window]
                     {| gpio_in := gpio_in w1; clock := clock w1; now := now w1;
                        exits_in_time := exits_in_time w1; sigint := sigint w1;
                        display := {| cols := cols d; rows := rows d;
                                      scroll_interval_s := scroll_interval_s d;
                                      lcd := lcd d;
                                      _scroll_text := _scroll_text d;
                                      _scroll_offset := offset + 1;
                                      _scroll_last_time := t |};
                        trace := trace w1 |})))).
Proof.
  destruct (time_time_run w) as (t & w1 & Htime & _ & _ & _).
  exists t, w1. split; [exact Htime |].
  unfold LCD.tick_scroll. step (get_display_run w).
  destruct (lcd (display w)) as [h |] eqn:El; [| left; auto].
  destruct (_scroll_text (display w)) as [| c text] eqn:Et; [left; auto |].
  cbn [Py.truthy negb].
  destruct is_recording; [left; auto |].
  right. step Htime.
  destruct (Z.ltb_spec (t - _scroll_last_time (display w))
              (scroll_interval_s (display w))) as [Hlt | Hge].
  - left. auto.
  - right. split; [discriminate |]. split; [discriminate |].
    split; [reflexivity |]. split; [assumption |].
    unfold padded. rewrite Et. cbv zeta.
    unfold bind, set_display, emit, log, ret. cbv beta iota.
    cbn [gpio_in clock now exits_in_time sigint display trace].
    repeat (rewrite <- app_assoc; cbn [app]). reflexivity.
Qed.

(** [tick_scroll] always returns.  It draws, or changes the display's state,
    only when a display is attached, there is text to scroll, nothing is
    being recorded, and the clock it reads is at least [scroll_interval_s]
    past the last draw; that reading becomes the time of the last draw. *)
Theorem tick_scroll_draws_only_when_due (is_recording : bool) (w : World) :
  let w' := snd (LCD.tick_scroll is_recording w) in
  fst (LCD.tick_scroll is_recording w) = Ok tt
  /\ gpio_in w' = gpio_in w
  /\ ((trace w' <> trace w \/ display w' <> display w) ->
      is_recording = false
      /\ lcd (display w) <> None
      /\ _scroll_text (display w) <> []
      /\ exists t,
           fst (time_time w) = Ok t
           /\ scroll_interval_s (display w) <= t - _scroll_last_time (display w)
           /\ _scroll_last_time (display w') = t).
Proof.
  destruct (time_time_run w) as (t0 & w0 & Htime0 & Hg0 & Ht0 & Hd0).
  destruct (tick_scroll_cases is_recording w)
    as (t & w1 & Htime & [(H & _) | [(H & _) | (Hl & Ht & Hr & Hdue & H)]]);
    rewrite Htime in Htime0; inversion Htime0; subst t0 w0; rewrite H; cbn.
  - split; [reflexivity |]. split; [reflexivity |]. intros [C | C]; now elim C.
  - split; [reflexivity |]. split; [assumption |]. intros [C | C]; now elim C.
  - split; [reflexivity |]. split; [assumption |]. intros _.
    repeat (split; [assumption |]). exists t. rewrite Htime. auto.
Qed.

(** A slice that starts within the list and has a length that is not
    negative. *)
Lemma slice_window {A : Type} (o c : Z) (l : list A) :
  0 <= o <= Py.len l -> 0 <= c ->
  Py.slice o (o + c) l = firstn (Z.to_nat c) (skipn (Z.to_nat o) l).
Proof.
  intros Ho Hc. unfold Py.slice, Py.clamp.
  destruct (Z.ltb_spec o 0) as [? | _]; [lia |].
  destruct (Z.ltb_spec (o + c) 0) as [? | _]; [lia |].
  rewrite (Z.min_l o (Py.len l)) by lia.
  destruct (Z.min_spec (o + c) (Py.len l)) as [(Hlt & ->) | (Hge & ->)].
  - f_equal. lia.
  - rewrite !firstn_all2; [reflexivity | |]; rewrite length_skipn;
      unfold Py.len in *; lia.
Qed.

Lemma len_padded (d : LCDDisplay) : Py.len (padded d) = Py.len (_scroll_text d) + 3.
Proof. unfold padded, Py.len. rewrite length_app. cbn. lia. Qed.

(** [set_scroll_text] puts the scroll offset at the start of the text, and
    a call of [tick_scroll] that draws keeps it within the padded text.  Such
    a call sends the driver a blank second line and then a window of exactly
    [cols] characters: those of the padded text from the offset on, the
    offset at the end of the text counting as its start, and spaces beyond
    the end; the next window starts one character later. *)
Theorem tick_scroll_window :
  (forall (text : str) (w : World),
      scroll_offset_ok (display (snd (LCD.set_scroll_text text w)))
      /\ _scroll_offset (display (snd (LCD.set_scroll_text text w))) = 0)
  /\ (forall (w : World) (t : Z),
        lcd (display w) <> None ->
        _scroll_text (display w) <> [] ->
        fst (time_time w) = Ok t ->
        scroll_interval_s (display w) <= t - _scroll_last_time (display w) ->
        0 <= cols (display w) ->
        scroll_offset_ok (display w) ->
        let d := display w in
        let w' := snd (LCD.tick_scroll false w) in
        let start := _scroll_offset d mod Py.len (padded d) in
        exists window,
          trace w'
          = trace w ++ [HwCursor 1 0;
                        HwWriteString (repeat 32%N (Z.to_nat (cols d)));
                        HwCursor 1 0; HwWriteString window]
          /\ Py.len window = cols d
          /\ (forall i, 0 <= i < cols d ->
                char_at window i = char_at (padded d) (start + i))
          /\ _scroll_offset (display w') = start + 1
          /\ _scroll_text (display w') = _scroll_text d
          /\ scroll_offset_ok (display w')).
Proof.
  split.
  - intros text w.
    destruct (set_scroll_text_run text w) as (w1 & H & _ & _ & _ & _ & _ & Ht & Ho).
    rewrite H. cbn [snd]. split; [| exact Ho].
    unfold scroll_offset_ok. rewrite Ho, len_padded. unfold Py.len. lia.
  - intros w t Hlcd Htext Ht Hdue Hcols Hok d w' start. subst d w'.
    destruct (tick_scroll_cases false w)
      as (t' & w1 & Htime & [(_ & [C | [C | C]]) | [(_ & C) | (_ & _ & _ & _ & H)]]);
      try contradiction; try discriminate;
      rewrite Htime in Ht; cbn in Ht; inversion Ht; subst t'; [lia |].
    destruct (time_time_run w) as (t0 & w0 & Htime0 & _ & Htr & _).
    rewrite Htime in Htime0. inversion Htime0. subst t0 w0. clear Htime0.
    pose proof (len_padded (display w)) as HL.
    assert (Hlen : 0 <= Py.len (_scroll_text (display w))) by (unfold Py.len; lia).
    unfold scroll_offset_ok in Hok.
    assert (Hstart : (if Py.len (padded (display w)) <=? _scroll_offset (display w)
                      then 0 else _scroll_offset (display w)) = start
                     /\ 0 <= start < Py.len (padded (display w))).
    { unfold start.
      destruct (Z.leb_spec (Py.len (padded (display w)))
                  (_scroll_offset (display w))) as [Hle | Hlt].
      - assert (E : _scroll_offset (display w) = Py.len (padded (display w))) by lia.
        rewrite E, Z.mod_same by lia. lia.
      - rewrite Z.mod_small by lia. lia. }
    destruct Hstart as (Estart & Hstart).
    rewrite H. cbv zeta. rewrite Estart. cbn [snd].
    rewrite (slice_window start (cols (display w)) (padded (display w)))
      by lia.
    set (d := display w) in *.
    set (x := firstn (Z.to_nat (cols d)) (skipn (Z.to_nat start) (padded d))).
    assert (Hx : Py.len x = Z.min (cols d) (Py.len (padded d) - start)).
    { unfold x, Py.len. rewrite length_firstn, length_skipn.
      unfold Py.len in Hstart. lia. }
    assert (Hnth : forall i, 0 <= i < Py.len x ->
                     char_at x i = char_at (padded d) (start + i)).
    { intros i Hi. unfold char_at, x. rewrite nth_firstn.
      destruct (Nat.ltb_spec (Z.to_nat i) (Z.to_nat (cols d))) as [_ | Hge]; [| lia].
      rewrite nth_skipn. f_equal. lia. }
    eexists. split; [unfold log; cbn [trace]; rewrite Htr; reflexivity |].
    unfold log. cbn [display _scroll_offset _scroll_text].
    destruct (Z.ltb_spec (Py.len x) (cols d)) as [Hshort | Hfull].
    + split.
      { unfold Py.ljust, Py.len. rewrite length_app, repeat_length.
        unfold Py.len in Hshort. lia. }
      split.
      { intros i Hi. destruct (Z.lt_ge_cases i (Py.len x)) as [Hin | Hout].
        - rewrite <- Hnth by lia. unfold char_at, Py.ljust.
          apply app_nth1. unfold Py.len in Hin. lia.
        - unfold char_at, Py.ljust. rewrite app_nth2 by (unfold Py.len in Hout; lia).
          rewrite nth_repeat. symmetry. apply nth_overflow.
          unfold Py.len in *. lia. }
      split; [reflexivity |]. split; [reflexivity |].
      unfold scroll_offset_ok. cbn [_scroll_offset]. unfold padded. cbn [_scroll_text].
      fold (padded d). lia.
    + split; [lia |].
      split; [intros i Hi; apply Hnth; lia |].
      split; [reflexivity |]. split; [reflexivity |].
      unfold scroll_offset_ok. cbn [_scroll_offset]. unfold padded. cbn [_scroll_text].
      fold (padded d). lia.
Qed.

Lemma tick_scroll_window_witness :
  exists window,
    trace (snd (LCD.tick_scroll false world_scrolling))
    = [HwCursor 1 0; HwWriteString (repeat 32%N 16); HwCursor 1 0; HwWriteString window]
    /\ Py.len window = 16
    /\ char_at window 0 = char_at (Py.lit "ciao   ") 0
    /\ _scroll_offset (display (snd (LCD.tick_scroll false world_scrolling))) = 1.
Proof.
  destruct tick_scroll_window as (_ & H).
  destruct (H world_scrolling 3500000) as (window & Htr & Hlen & Hch & Ho & _).
  - discriminate.
  - discriminate.
  - reflexivity.
  - vm_compute. discriminate.
  - vm_compute. discriminate.
  - split; vm_compute; discriminate.
  - exists window. split; [exact Htr |]. split; [exact Hlen |].
    split; [| exact Ho].
    apply (Hch 0). vm_compute. split; [discriminate | reflexivity].
Defined.

(** ** The debounced button: the order of its reports *)

Section ButtonOrder.

Import DebouncedButton.

Lemma pressed_level_unique (b : t) (x y : Z) :
  _is_pressed_level b x = true -> _is_pressed_level b y = true -> x = y.
Proof.
  unfold _is_pressed_level. destruct (active_high b); intros Hx Hy;
    apply Z.eqb_eq in Hx; apply Z.eqb_eq in Hy; congruence.
Qed.

Lemma pressed_level_poll_at (b : t) (now raw level : Z) :
  _is_pressed_level (fst (poll_at now raw b)) level = _is_pressed_level b level.
Proof.
  unfold _is_pressed_level.
  destruct (button_poll_at_config b now raw) as (_ & -> & -> & _). reflexivity.
Qed.

(** With the accepted level the pressed one, the next report is no
    "pressed". *)
Lemma report_after_pressed (samples : list sample) (b : t) :
  _is_pressed_level b (_stable b) = true ->
  hd_error (reported (snd (button_polls b samples))) <> Some pressed.
Proof.
  revert b. induction samples as [| [now raw] rest IH]; intros b Hp; cbn.
  - discriminate.
  - destruct (button_poll_at_cases b now raw)
      as (_ & _ & [(_ & Hne & He & Hs) | (_ & Hn & Hs)]).
    + rewrite He. cbn. unfold event_of.
      destruct (_is_pressed_level b raw) eqn:Hr; [| discriminate].
      elim Hne. now apply (pressed_level_unique b).
    + rewrite Hn. cbn. apply IH.
      now rewrite pressed_level_poll_at, Hs.
Qed.

(** With the accepted level the other of the two levels, and only the two
    levels read, the next report is no "released". *)
Lemma report_after_released (samples : list sample) (b : t) :
  _is_pressed_level b (_stable b) = false ->
  binary (gpio b) (_stable b) ->
  Forall (fun s => binary (gpio b) (snd s)) samples ->
  hd_error (reported (snd (button_polls b samples))) <> Some released.
Proof.
  revert b. induction samples as [| [now raw] rest IH]; intros b Hp Hb Hs; cbn.
  - discriminate.
  - apply Forall_cons_iff in Hs. destruct Hs as [Hraw Hrest]. cbn in Hraw.
    destruct (button_poll_at_cases b now raw)
      as (_ & _ & [(_ & Hne & He & Hst) | (_ & Hn & Hst)]).
    + rewrite He. cbn. unfold event_of.
      destruct (_is_pressed_level b raw) eqn:Hr; [discriminate |].
      exfalso. unfold _is_pressed_level, binary in *.
      destruct (active_high b);
        apply Z.eqb_neq in Hp; apply Z.eqb_neq in Hr;
        destruct Hb; destruct Hraw; congruence.
    + rewrite Hn. cbn.
      destruct (button_poll_at_config b now raw) as (_ & Hg & _).
      apply IH.
      * now rewrite pressed_level_poll_at, Hst.
      * now rewrite Hg, Hst.
      * now rewrite Hg.
Qed.

End ButtonOrder.

(** A button never reports "pressed" twice in a row: between two reports of
    "pressed" there is one of "released".  When every level read is one of
    the two levels of the GPIO module, it never reports "released" twice in
    a row either, so that the reports alternate. *)
Theorem button_reports_alternate (b : DebouncedButton.t) (samples : list sample) :
  (forall l1 l2,
      reported (snd (button_polls b samples)) <> l1 ++ pressed :: pressed :: l2)
  /\ (Forall (fun s => binary (DebouncedButton.gpio b) (snd s)) samples ->
      forall l1 l2,
        reported (snd (button_polls b samples)) <> l1 ++ released :: released :: l2).
Proof.
  split.
  - revert b. induction samples as [| [now raw] rest IH]; intros b l1 l2; cbn.
    + now destruct l1.
    + destruct (button_poll_at_cases b now raw)
        as (_ & _ & [(_ & Hne & He & Hst) | (_ & Hn & Hst)]).
      * rewrite He. cbn. destruct l1 as [| a l1]; cbn.
        -- intros H. injection H as Hev Hrest.
           apply (report_after_pressed rest (fst (DebouncedButton.poll_at now raw b))).
           ++ rewrite pressed_level_poll_at, Hst. unfold event_of in Hev.
              now destruct (DebouncedButton._is_pressed_level b raw).
           ++ fold (reported (snd (button_polls (fst (DebouncedButton.poll_at now raw b)) rest))) in Hrest.
              now rewrite Hrest.
        -- intros H. injection H as _ Hrest. exact (IH _ l1 l2 Hrest).
      * rewrite Hn. cbn. apply IH.
  - revert b. induction samples as [| [now raw] rest IH]; intros b Hs l1 l2; cbn.
    + now destruct l1.
    + apply Forall_cons_iff in Hs. destruct Hs as [Hraw Hrest]. cbn in Hraw.
      destruct (button_poll_at_config b now raw) as (_ & Hg & _).
      assert (Hrest' : Forall (fun s => binary
                          (DebouncedButton.gpio (fst (DebouncedButton.poll_at now raw b)))
                          (snd s)) rest) by now rewrite Hg.
      destruct (button_poll_at_cases b now raw)
        as (_ & _ & [(_ & Hne & He & Hst) | (_ & Hn & Hst)]).
      * rewrite He. cbn. destruct l1 as [| a l1]; cbn.
        -- intros H. injection H as Hev Htail.
           apply (report_after_released rest (fst (DebouncedButton.poll_at now raw b))).
           ++ rewrite pressed_level_poll_at, Hst. unfold event_of in Hev.
              now destruct (DebouncedButton._is_pressed_level b raw).
           ++ now rewrite Hg, Hst.
           ++ exact Hrest'.
           ++ fold (reported (snd (button_polls (fst (DebouncedButton.poll_at now raw b)) rest))) in Htail.
              now rewrite Htail.
        -- intros H. injection H as _ Htail. exact (IH _ Hrest' l1 l2 Htail).
      * rewrite Hn. cbn. now apply IH.
Qed.

Lemma button_reports_alternate_witness :
  Forall (fun s => binary (DebouncedButton.gpio button_a0) (snd s))
    [(100000, 1); (160000, 1); (300000, 0); (360000, 0)]
  /\ reported (snd (button_polls button_a0
                      [(100000, 1); (160000, 1); (300000, 0); (360000, 0)]))
     <> [released; released].
Proof.
  assert (H : Forall (fun s => binary (DebouncedButton.gpio button_a0) (snd s))
                [(100000, 1); (160000, 1); (300000, 0); (360000, 0)]).
  { repeat (apply Forall_cons; [unfold binary; cbn; auto |]). apply Forall_nil. }
  split; [exact H |].
  exact (proj2 (button_reports_alternate button_a0 _) H [] []).
Defined.

(** A button constructed while the pin reads level [p] starts with [p] as
    its accepted level: polls that go on reading [p] report nothing, and if
    [p] is the pressed level, the button being held at construction, no
    "pressed" is reported for that hold: the first report is "released". *)
Theorem button_held_at_construction
    (pin_no : Z) (gpio : GPIO) (active_high : bool) (debounce_s : Z)
    (w w' : World) (b : DebouncedButton.t) :
  DebouncedButton.init pin_no gpio active_high debounce_s w = (Ok b, w') ->
  (exists p, hd_error (gpio_in w) = Some p
             /\ DebouncedButton._stable b = p pin_no
             /\ DebouncedButton._raw_last b = p pin_no)
  /\ (forall samples,
         Forall (fun s => snd s = DebouncedButton._stable b) samples ->
         reported (snd (button_polls b samples)) = [])
  /\ (DebouncedButton._is_pressed_level b (DebouncedButton._stable b) = true ->
      forall samples,
        hd_error (reported (snd (button_polls b samples))) <> Some pressed).
Proof.
  intros H. split; [| split].
  - unfold DebouncedButton.init in H.
    apply bind_ok in H. destruct H as (initial & w1 & Hin & H).
    apply bind_ok in H. destruct H as (t0 & w2 & _ & H).
    inversion H. subst. cbn.
    unfold gpio_input in Hin. destruct (gpio_in w) as [| p rest]; [discriminate |].
    inversion Hin. subst. now exists p.
  - intros samples Hs. destruct (settled_silent samples b Hs) as (Hq & _).
    induction Hq as [| e evs He _ IH]; cbn; [reflexivity |].
    rewrite He. exact IH.
  - intros Hp samples. now apply report_after_pressed.
Qed.

Lemma button_held_at_construction_witness :
  exists b w',
    DebouncedButton.init 29 JetsonGPIO true 50000 world_held = (Ok b, w')
    /\ hd_error (reported (snd (button_polls b [(5100000, 0); (5200000, 0)])))
       <> Some pressed.
Proof.
  eexists _, _. split; [reflexivity |].
  refine (proj2 (proj2 (button_held_at_construction 29 JetsonGPIO true 50000
                          world_held _ _ eq_refl)) _ _).
  reflexivity.
Defined.

(** ** The long-press detector: construction, the threshold, and its
    debouncing *)

Section LongPressHold.

Import LongPressDetector.

(** The first half of a call that reads the accepted level: no edge, and
    nothing of the hold changes. *)
Lemma debounce_at_steady (d : t) (now raw : Z) :
  raw = _stable d ->
  let d1 := debounce_at now raw d in
  debounced_edge now raw d = None
  /\ _stable d1 = _stable d /\ _press_start_t d1 = _press_start_t d
  /\ _fired d1 = _fired d.
Proof.
  intros Hr. cbv zeta. unfold debounced_edge. rewrite debounce_at_eq. cbv zeta.
  rewrite Hr, Z.eqb_refl, andb_false_r.
  destruct (negb (_stable d =? _raw_last d)); cbn [with_raw _stable _press_start_t _fired];
    destruct (_is_pressed_level d (_stable d)); cbn; auto.
Qed.

Lemma poll_at_steady (d : t) (now raw : Z) (enabled : bool) :
  raw = _stable d ->
  debounced_edge now raw d = None
  /\ _stable (fst (poll_at now raw enabled d)) = _stable d.
Proof.
  intros Hr. destruct (debounce_at_steady d now raw Hr) as (He & Hs & _).
  destruct (longpress_poll_at_cases d now raw enabled) as (_ & Hs' & _).
  split; [exact He | congruence].
Qed.

(** While the accepted level is read, no call sees an edge. *)
Lemma steady_no_edge (samples : list (sample * bool)) (d : t) :
  Forall (fun s => snd (fst s) = _stable d) samples ->
  Forall (fun p => poll_edge p = None) (snd (longpress_polls d samples)).
Proof.
  revert d. induction samples as [| [[now raw] en] rest IH]; intros d H; cbn.
  - constructor.
  - apply Forall_cons_iff in H. destruct H as [Hh Ht]. cbn in Hh.
    destruct (poll_at_steady d now raw en Hh) as (He & Hs).
    constructor; [exact He |]. apply IH. now rewrite Hs.
Qed.

(** A spent hold at a steady level fires no more. *)
Lemma spent_steady_silent (samples : list (sample * bool)) (d : t) :
  spent d ->
  Forall (fun s => snd (fst s) = _stable d) samples ->
  map poll_fired (snd (longpress_polls d samples)) = map (fun _ => false) samples.
Proof.
  revert d. induction samples as [| [[now raw] en] rest IH]; intros d Hsp H; cbn.
  - reflexivity.
  - apply Forall_cons_iff in H. destruct H as [Hh Ht]. cbn in Hh.
    destruct (poll_at_steady d now raw en Hh) as (He & Hs).
    destruct (spent_step d now raw en Hsp) as (Hr & [(_ & Hsp') | (He' & _)]);
      [| congruence].
    unfold poll_fired at 1. cbn [snd]. rewrite Hr. f_equal.
    apply IH; [exact Hsp' | now rewrite Hs].
Qed.

(** An armed hold at a steady level fires at the first enabled call at
    least [long_press_s] after the start of the hold, and at no other. *)
Lemma armed_fires_at_threshold (samples : list (sample * bool)) (d : t) (start : Z) :
  _press_start_t d = Some start -> _fired d = false ->
  _is_pressed_level d (_stable d) = true ->
  held_steady d samples ->
  map poll_fired (snd (longpress_polls d samples))
  = first_only (fun t => long_press_s d <=? t - start)
      (map (fun s => fst (fst s)) samples).
Proof.
  revert d. induction samples as [| [[now raw] en] rest IH];
    intros d Hst Hf Hp H; cbn.
  - reflexivity.
  - apply Forall_cons_iff in H. destruct H as [(Hraw & Hen) Ht]. cbn in Hraw, Hen.
    subst en.
    destruct (debounce_at_steady d now raw Hraw) as (He & Hs1 & Hst1 & Hf1).
    destruct (longpress_poll_at_cases d now raw true)
      as (Hc & Hs & [(C & _) | [(_ & Hr & _ & _ & (st & Hst' & Hdue) & Hst2 & Hf2)
                                | (_ & Hr & Hd)]]);
      [discriminate | |].
    + (* it fires *)
      assert (st = start) by congruence. subst st.
      unfold poll_fired at 1. cbn [snd]. rewrite Hr.
      rewrite (proj2 (Z.leb_le _ _) Hdue). f_equal.
      rewrite spent_steady_silent.
      * now rewrite map_map.
      * unfold spent. rewrite (same_config_pressed d _ _ Hc), Hs, Hs1. auto.
      * rewrite Hs, Hs1. eapply Forall_impl; [| exact Ht]. now intros s (H1 & _).
    + (* it does not: the threshold is not reached *)
      unfold poll_fired at 1. cbn [snd]. rewrite Hr.
      assert (Hnot : (long_press_s d <=? now - start) = false).
      { destruct (Z.leb_spec (long_press_s d) (now - start)) as [Hdue |]; [| reflexivity].
        exfalso. revert Hr. unfold poll_at. cbn [negb].
        rewrite Hst1, Hst, Hf1, Hf.
        rewrite (same_config_pressed d (debounce_at now raw d)), Hs1, Hp.
        2:{ destruct (longpress_debounce_at_cases d now raw) as (Hc1 & _). exact Hc1. }
        destruct (longpress_debounce_at_cases d now raw) as ((_ & _ & -> & _) & _).
        rewrite (proj2 (Z.leb_le _ _) Hdue). cbn. discriminate. }
      rewrite Hnot. f_equal.
      destruct Hc as (_ & _ & Hlps & _).
      rewrite <- Hlps. apply IH.
      * rewrite Hd. congruence.
      * rewrite Hd. congruence.
      * rewrite (same_config_pressed d _ _ (proj1 (longpress_poll_at_cases d now raw true))).
        rewrite Hs, Hs1. exact Hp.
      * unfold held_steady. rewrite Hs, Hs1. exact Ht.
Qed.

End LongPressHold.

(** A detector constructed while the pin reads level [p] starts with [p] as
    its accepted level and with no hold timer.  However long the switch then
    stays at [p], held or not, no call fires; and whatever is read, a call
    that fires comes after a call that saw the debounced press. *)
Theorem longpress_held_at_construction
    (pin_no : Z) (gpio : GPIO) (long_press_s : Z) (active_high : bool)
    (debounce_s : Z) (w w' : World) (d : LongPressDetector.t) :
  LongPressDetector.init pin_no gpio long_press_s active_high debounce_s w
  = (Ok d, w') ->
  (exists p, hd_error (gpio_in w) = Some p
             /\ LongPressDetector._stable d = p pin_no)
  /\ (forall samples,
         Forall (fun s => snd (fst s) = LongPressDetector._stable d) samples ->
         Forall (fun p => poll_fired p = false) (snd (longpress_polls d samples)))
  /\ (forall samples,
         Exists (fun p => poll_fired p = true) (snd (longpress_polls d samples)) ->
         exists l1 q l2,
           snd (longpress_polls d samples) = l1 ++ q :: l2
           /\ poll_edge q = Some pressed
           /\ Forall (fun p => poll_fired p = false) l1).
Proof.
  intros H.
  assert (Hinit : unarmed d
                  /\ exists p, hd_error (gpio_in w) = Some p
                               /\ LongPressDetector._stable d = p pin_no).
  { unfold LongPressDetector.init in H.
    apply bind_ok in H. destruct H as (initial & w1 & Hin & H).
    apply bind_ok in H. destruct H as (t0 & w2 & _ & H).
    inversion H. subst. cbn. split; [reflexivity |].
    unfold gpio_input in Hin. destruct (gpio_in w) as [| p rest]; [discriminate |].
    inversion Hin. subst. now exists p. }
  destruct Hinit as (Hu & Hp).
  assert (Hpress : forall samples d0,
             unarmed d0 ->
             Exists (fun p => poll_fired p = true) (snd (longpress_polls d0 samples)) ->
             exists l1 q l2,
               snd (longpress_polls d0 samples) = l1 ++ q :: l2
               /\ poll_edge q = Some pressed
               /\ Forall (fun p => poll_fired p = false) l1).
  { induction samples as [| [[now raw] en] rest IH]; intros d0 Hu0 Hex; cbn in *.
    - inversion Hex.
    - destruct (unarmed_step d0 now raw en Hu0) as [He | (Hr & Hu')].
      + exists [], (now, debounced_edge now raw d0,
                    snd (LongPressDetector.poll_at now raw en d0)),
          (snd (longpress_polls (fst (LongPressDetector.poll_at now raw en d0)) rest)).
        split; [reflexivity |]. split; [exact He | constructor].
      + apply Exists_cons in Hex. destruct Hex as [Hex | Hex].
        * unfold poll_fired in Hex. cbn in Hex. congruence.
        * destruct (IH _ Hu' Hex) as (l1 & q & l2 & E & Hq & Hl1).
          exists ((now, debounced_edge now raw d0,
                   snd (LongPressDetector.poll_at now raw en d0)) :: l1), q, l2.
          rewrite E. split; [reflexivity |]. split; [exact Hq |].
          constructor; [exact Hr | exact Hl1]. }
  split; [exact Hp |]. split.
  - intros samples Hs.
    pose proof (steady_no_edge samples d Hs) as Hq.
    apply Forall_forall. intros p Hin.
    destruct (poll_fired p) eqn:Ef; [| reflexivity]. exfalso.
    destruct (Hpress samples d Hu) as (l1 & q & l2 & E & Hedge & _).
    { apply Exists_exists. now exists p. }
    rewrite E in Hq. apply Forall_elt in Hq. congruence.
  - intros samples Hex. now apply Hpress.
Qed.

Lemma longpress_held_at_construction_witness :
  exists d w',
    LongPressDetector.init 7 JetsonGPIO 2000000 false 50000 world_held = (Ok d, w')
    /\ Forall (fun p => poll_fired p = false)
         (snd (longpress_polls d [((6000000, 0), true); ((9000000, 0), true)])).
Proof.
  eexists _, _. split; [reflexivity |].
  refine (proj1 (proj2 (longpress_held_at_construction 7 JetsonGPIO 2000000 false
                          50000 world_held _ _ eq_refl)) _ _).
  repeat (apply Forall_cons; [reflexivity |]). apply Forall_nil.
Defined.

(** After an enabled call that saw the debounced press at time [t0], with a
    positive [long_press_s] and the switch held, the enabled calls that
    follow fire once: at the first call at least [long_press_s] after [t0],
    and at no other. *)
Theorem long_press_fires_at_threshold
    (d0 : LongPressDetector.t) (t0 raw0 : Z) (samples : list (sample * bool)) :
  let d := fst (LongPressDetector.poll_at t0 raw0 true d0) in
  debounced_edge t0 raw0 d0 = Some pressed ->
  0 < LongPressDetector.long_press_s d0 ->
  held_steady d samples ->
  snd (LongPressDetector.poll_at t0 raw0 true d0) = false
  /\ map poll_fired (snd (longpress_polls d samples))
     = first_only (fun t => LongPressDetector.long_press_s d0 <=? t - t0)
         (map (fun s => fst (fst s)) samples).
Proof.
  intros d Hedge Hpos Hs.
  destruct (longpress_debounce_at_cases d0 t0 raw0)
    as (Hc1 & [(_ & _ & Hp1 & Hst1 & Hf1) | [(C & _) | (C & _)]]); try congruence.
  destruct (longpress_poll_at_cases d0 t0 raw0 true)
    as (Hc & Hs' & [(C & _) | [(_ & _ & _ & _ & (st & Hst' & Hdue) & _) | (_ & Hr & Hd)]]).
  - discriminate.
  - exfalso. rewrite Hst1 in Hst'. inversion Hst'. subst st. lia.
  - split; [exact Hr |]. fold d in Hd, Hc, Hs'.
    destruct Hc as (Hx1 & Hx2 & Hlps & Hx4 & Hx5).
    rewrite <- Hlps.
    apply armed_fires_at_threshold.
    + rewrite Hd. exact Hst1.
    + rewrite Hd. exact Hf1.
    + rewrite (same_config_pressed d0 d) by (unfold same_config; auto).
      rewrite Hs'. exact Hp1.
    + exact Hs.
Qed.

Lemma long_press_fires_at_threshold_witness :
  map poll_fired
    (snd (longpress_polls
            (fst (LongPressDetector.poll_at 160000 0 true
                    (fst (LongPressDetector.poll_at 100000 0 true longpress0))))
            [((1000000, 0), true); ((2200000, 0), true); ((3000000, 0), true)]))
  = [false; true; false].
Proof.
  refine (proj2 (long_press_fires_at_threshold
                   (fst (LongPressDetector.poll_at 100000 0 true longpress0))
                   160000 0
                   [((1000000, 0), true); ((2200000, 0), true); ((3000000, 0), true)]
                   _ _ _)).
  - reflexivity.
  - reflexivity.
  - repeat (apply Forall_cons; [split; reflexivity |]). apply Forall_nil.
Defined.

(** A detector debounces as a button on the same pin does: after any call,
    enabled or not, its raw level, accepted level and time of the last raw
    change are those of the button after a poll of the same reading; it sees
    the debounced press exactly when the button reports "pressed", and when
    it sees the debounced release the button reports "released". *)
Theorem longpress_debounces_as_button
    (d : LongPressDetector.t) (now raw : Z) (enabled : bool) :
  as_button (fst (LongPressDetector.poll_at now raw enabled d))
  = fst (DebouncedButton.poll_at now raw (as_button d))
  /\ (debounced_edge now raw d = Some pressed
      <-> snd (DebouncedButton.poll_at now raw (as_button d)) = Some pressed)
  /\ (debounced_edge now raw d = Some released ->
      snd (DebouncedButton.poll_at now raw (as_button d)) = Some released).
Proof.
  assert (Hdeb : as_button (LongPressDetector.debounce_at now raw d)
                 = fst (DebouncedButton.poll_at now raw (as_button d))).
  { rewrite debounce_at_eq. unfold DebouncedButton.poll_at. cbv zeta.
    cbn [as_button DebouncedButton._raw_last DebouncedButton._stable
         DebouncedButton._raw_changed_t DebouncedButton.debounce_s].
    destruct (negb (raw =? LongPressDetector._raw_last d)); cbn;
      match goal with |- context [(?x <=? ?y) && negb (?u =? ?v)] =>
        destruct ((x <=? y) && negb (u =? v)) end; cbn; try reflexivity;
      destruct (LongPressDetector._is_pressed_level d raw);
      destruct (LongPressDetector._is_pressed_level d (LongPressDetector._stable d));
      reflexivity. }
  assert (Hpoll : as_button (fst (LongPressDetector.poll_at now raw enabled d))
                  = as_button (LongPressDetector.debounce_at now raw d)).
  { unfold LongPressDetector.poll_at. cbv zeta.
    destruct (negb enabled); [reflexivity |].
    destruct (LongPressDetector._press_start_t _); [| reflexivity].
    match goal with |- context [if ?c then _ else _] => destruct c end; reflexivity. }
  split; [congruence |].
  assert (Hlevel : forall level,
             DebouncedButton._is_pressed_level (as_button d) level
             = LongPressDetector._is_pressed_level d level) by reflexivity.
  destruct (button_poll_at_cases (as_button d) now raw)
    as (_ & _ & [(_ & Hne & He & Hst) | (_ & Hn & Hst)]);
    rewrite <- Hdeb in Hst; cbn [as_button DebouncedButton._stable] in Hst;
    unfold debounced_edge; rewrite Hst.
  - rewrite He. unfold event_of. rewrite Hlevel.
    cbn [as_button DebouncedButton._stable] in Hne.
    destruct (LongPressDetector._is_pressed_level d raw) eqn:E1;
      destruct (LongPressDetector._is_pressed_level d (LongPressDetector._stable d)) eqn:E2;
      cbn; try (split; [split |]; congruence).
    exfalso. apply Hne.
    unfold LongPressDetector._is_pressed_level in E1, E2.
    destruct (LongPressDetector.active_high d);
      apply Z.eqb_eq in E1; apply Z.eqb_eq in E2; congruence.
  - rewrite Hn.
    destruct (LongPressDetector._is_pressed_level d (LongPressDetector._stable d));
      cbn; split; [split | | split |]; congruence.
Qed.

(** ** The selector: what it takes to select *)

Section Switch.

Import LanguageSelector.

Variable s : t.
Variable prompt : str.
Variable options : list (str * str).

Lemma readings_evolve (P : Pins -> Prop) (w w' : World) :
  evolves w w' -> Forall P (gpio_in w) -> Forall P (gpio_in w').
Proof.
  intros (_ & (used & Hg)) H. rewrite Hg in H. apply Forall_app in H. tauto.
Qed.

Lemma press_then_release_later (pre mid after : list Pins) :
  press_then_release s mid after -> press_then_release s (pre ++ mid) after.
Proof.
  intros (used & p1 & waits & p2 & -> & H). exists (pre ++ used), p1, waits, p2.
  rewrite <- app_assoc. auto.
Qed.

(** The rotation reads no pin and leaves the record of the switch alone. *)
Lemma rotate_ok (l l1 : locals) (clk dt : Z) (w w1 : World) :
  rotate prompt options l clk dt w = (Ok l1, w1) ->
  gpio_in w1 = gpio_in w /\ last_sw l1 = last_sw l.
Proof.
  unfold rotate. destruct (negb (clk =? last_clk l)).
  - intros H.
    apply bind_ok in H. destruct H as (i & w2 & Hmod & H).
    assert (w2 = w).
    { destruct (negb (dt =? clk)); unfold py_mod in Hmod;
        match type of Hmod with (if ?c then _ else _) _ = _ => destruct c end;
        inversion Hmod; reflexivity. }
    subst w2.
    apply bind_ok in H. destruct H as ([name' code'] & w3 & Hget & H).
    assert (w3 = w).
    { unfold py_getitem in Hget. destruct (Py.getitem options i); inversion Hget.
      reflexivity. }
    subst w3.
    rewrite (bind_run _ _ _ _ _ (lcd_write_run prompt name' w)) in H.
    apply bind_ok in H. destruct H as ([] & w4 & Hsleep & H).
    inversion Hsleep. inversion H. subst. cbn. auto.
  - intros H. inversion H. auto.
Qed.

(** When the wait for the release returns, the readings it consumed show
    the switch pressed, but for the last, which shows it released. *)
Lemma wait_release_ok (fuel : nat) (w w' : World) :
  wait_release fuel s w = (Ok tt, w') ->
  exists waits p,
    gpio_in w = waits ++ p :: gpio_in w'
    /\ Forall (fun q : Pins => _sw_pressed s (q (sw_pin s)) = true) waits
    /\ _sw_pressed s (p (sw_pin s)) = false.
Proof.
  revert w. induction fuel as [| fuel IH]; intros w H; cbn [wait_release] in H.
  - discriminate.
  - apply bind_ok in H. destruct H as (sw & w1 & Hin & H).
    apply gpio_input_ok in Hin. destruct Hin as (p & rest & Hw & -> & ->).
    destruct (_sw_pressed s (p (sw_pin s))) eqn:Ep.
    + apply bind_ok in H. destruct H as ([] & w2 & Hsleep & H).
      inversion Hsleep. subst w2. clear Hsleep.
      destruct (IH _ H) as (waits & q & Hg & Hwaits & Hq). cbn in Hg.
      exists (p :: waits), q. rewrite Hw, Hg. cbn. auto.
    + inversion H. subst w'. exists [], p. cbn. auto.
Qed.

(** What an iteration has read of the switch when it returns: to select,
    two levels other than the last one recorded, the second of them the
    pressed one, and then the release; to go on with another record of the
    switch, a level other than the last one recorded. *)
Lemma iteration_switch (l : locals) (w w' : World) (r : locals + str * str) :
  iteration s prompt options l w = (Ok r, w') ->
  match r with
  | inl l' =>
      last_sw l' = last_sw l
      \/ exists p, In p (gpio_in w) /\ last_sw l' = p (sw_pin s)
                   /\ _sw_pressed s (p (sw_pin s)) = false
  | inr _ =>
      press_then_release s (gpio_in w) (gpio_in w')
      /\ exists p, In p (gpio_in w) /\ p (sw_pin s) <> last_sw l
                   /\ _sw_pressed s (p (sw_pin s)) = true
  end.
Proof.
  intros H. unfold iteration in H.
  apply bind_ok in H. destruct H as (clk & w1 & H1 & H).
  apply gpio_input_ok in H1. destruct H1 as (p1 & r1 & G1 & -> & ->).
  apply bind_ok in H. destruct H as (dt & w2 & H2 & H).
  apply gpio_input_ok in H2. destruct H2 as (p2 & r2 & G2 & -> & ->).
  apply bind_ok in H. destruct H as (sw & w3 & H3 & H).
  apply gpio_input_ok in H3. destruct H3 as (p3 & r3 & G3 & -> & ->).
  cbn in G2, G3. subst r1 r2.
  apply bind_ok in H. destruct H as (l1 & w4 & Hrot & H).
  apply rotate_ok in Hrot. destruct Hrot as (G4 & Hsw). cbn in G4.
  destruct (negb (p3 (sw_pin s) =? last_sw l1)).
  - apply bind_ok in H. destruct H as ([] & w5 & Hsleep & H).
    inversion Hsleep. subst w5. clear Hsleep.
    apply bind_ok in H. destruct H as (sw2 & w6 & H6 & H).
    apply gpio_input_ok in H6. destruct H6 as (p4 & r4 & G6 & -> & ->).
    cbn in G6. rewrite G4 in G6. subst r3.
    destruct (Z.eqb_spec (p4 (sw_pin s)) (last_sw l1)) as [E | E]; cbn [negb] in H.
    + apply bind_ok in H. destruct H as ([] & w7 & _ & H).
      inversion H. now left.
    + destruct (_sw_pressed s (p4 (sw_pin s))) eqn:Ep.
      * apply bind_ok in H. destruct H as (fuel & w7 & Hf & H).
        inversion Hf. subst fuel w7. clear Hf.
        apply bind_ok in H. destruct H as ([] & w8 & Hwait & H).
        inversion H. subst r w'. clear H.
        apply wait_release_ok in Hwait.
        destruct Hwait as (waits & q & Hg & Hwaits & Hq). cbn in Hg. subst r4.
        split.
        -- exists [p1; p2; p3], p4, waits, q. rewrite G1, G6. cbn. auto.
        -- exists p4. rewrite G1, G6. cbn. rewrite <- Hsw. auto 10.
      * apply bind_ok in H. destruct H as ([] & w7 & _ & H).
        inversion H. right. exists p4. rewrite G1, G6. cbn. auto 10.
  - apply bind_ok in H. destruct H as ([] & w5 & _ & H).
    inversion H. now left.
Qed.

Lemma iteration_evolves (l : locals) (w w' : World) (r : locals + str * str) :
  iteration s prompt options l w = (Ok r, w') -> evolves w w'.
Proof.
  apply (ok_evolves (fun _ : exn => True)). apply tame_selector_iteration.
  intros. apply tame_rotate; exact I.
Qed.

(** When the loop returns, the last readings it consumed are a press and
    its release. *)
Lemma loop_press_then_release (fuel : nat) (l : locals) (w w' : World)
    (v : str * str) :
  loop fuel s prompt options l w = (Ok v, w') ->
  press_then_release s (gpio_in w) (gpio_in w').
Proof.
  revert l w. induction fuel as [| fuel IH]; intros l w H; cbn [loop] in H.
  - discriminate.
  - apply bind_ok in H. destruct H as (r & w1 & Hit & H).
    destruct r as [l' | x].
    + destruct (iteration_evolves _ _ _ _ Hit) as (_ & (used & ->)).
      apply press_then_release_later. eapply IH. exact H.
    + inversion H. subst x w1.
      exact (proj1 (iteration_switch _ _ _ _ Hit)).
Qed.

(** The loop returns only if a reading shows the switch pressed. *)
Lemma loop_needs_press (fuel : nat) (l : locals) (w w' : World) (v : str * str) :
  sw_never_pressed s w ->
  loop fuel s prompt options l w <> (Ok v, w').
Proof.
  revert l w. induction fuel as [| fuel IH]; intros l w Hw H; cbn [loop] in H.
  - discriminate.
  - apply bind_ok in H. destruct H as (r & w1 & Hit & H).
    pose proof (iteration_switch _ _ _ _ Hit) as Hr.
    destruct r as [l' | x].
    + eapply IH; [| exact H].
      eapply readings_evolve; [eapply iteration_evolves; exact Hit | exact Hw].
    + destruct Hr as (_ & (p & Hin & _ & Hp)).
      unfold sw_never_pressed in Hw. rewrite Forall_forall in Hw.
      rewrite (Hw p Hin) in Hp. discriminate.
Qed.

(** The loop returns only if a reading shows the switch at another level
    than the one recorded. *)
Lemma loop_needs_edge (c : Z) (fuel : nat) (l : locals) (w w' : World)
    (v : str * str) :
  sw_stays_at s c w -> last_sw l = c ->
  loop fuel s prompt options l w <> (Ok v, w').
Proof.
  revert l w. induction fuel as [| fuel IH]; intros l w Hw Hl H; cbn [loop] in H.
  - discriminate.
  - apply bind_ok in H. destruct H as (r & w1 & Hit & H).
    pose proof (iteration_switch _ _ _ _ Hit) as Hr.
    pose proof Hw as Hall. unfold sw_stays_at in Hall. rewrite Forall_forall in Hall.
    destruct r as [l' | x].
    + eapply IH; [| | exact H].
      * eapply readings_evolve; [eapply iteration_evolves; exact Hit | exact Hw].
      * destruct Hr as [E | (p & Hin & E & _)]; [congruence |].
        rewrite E. now apply Hall.
    + destruct Hr as (_ & (p & Hin & Hne & _)).
      apply Hne. rewrite Hl. now apply Hall.
Qed.

Hypothesis nonempty : options <> [].

(** The world and the locals with which [select_one] enters its loop. *)
Lemma select_one_enters_loop (initial_index : Z) (w w' : World) (v : str * str) :
  select_one s prompt options initial_index w = (Ok v, w') ->
  exists l w0 fuel,
    loop fuel s prompt options l w0 = (Ok v, w')
    /\ (exists used p, gpio_in w = used ++ p :: gpio_in w0
                       /\ last_sw l = p (sw_pin s)).
Proof.
  intros H.
  destruct (select_one_start s prompt options nonempty initial_index w)
    as (name0 & code0 & w1 & rest & _ & _ & _ & Hrun & Hg1 & _ & Hrest).
  rewrite Hrun, Hrest in H.
  apply bind_ok in H. destruct H as (clk0 & w2 & Hclk0 & H).
  apply gpio_input_ok in Hclk0. destruct Hclk0 as (p & pins & Hp & -> & ->).
  apply bind_ok in H. destruct H as (t0 & w3 & Htime & H).
  apply bind_ok in H. destruct H as (f1 & w4 & Hf1 & H).
  inversion Hf1. subst f1 w4. clear Hf1.
  apply bind_ok in H. destruct H as ([] & w5 & Hsettle & H).
  apply bind_ok in H. destruct H as (sw0 & w6 & Hsw0 & H).
  apply gpio_input_ok in Hsw0. destruct Hsw0 as (q & pins' & Hq & -> & ->).
  apply bind_ok in H. destruct H as (f2 & w7 & Hf2 & H).
  inversion Hf2. subst f2 w7. clear Hf2.
  eexists _, _, _. split; [exact H |].
  apply (ok_evolves (fun _ : exn => True)) in Hsettle; [| apply tame_settle].
  destruct Hsettle as (_ & (used5 & Hg5)).
  destruct (time_time_run (feed pins w1)) as (t' & w3' & Htime' & Hg3 & _).
  rewrite Htime in Htime'. inversion Htime'. subst t' w3'. cbn in Hg3.
  rewrite Hg3 in Hg5.
  exists (p :: used5), q. cbn [gpio_in feed last_sw].
  rewrite <- Hg1, Hp, Hg5, Hq. split; reflexivity.
Qed.

End Switch.

(** [select_one] returns only once the switch has been pressed and then
    released: the readings it has consumed end with one that shows the
    switch pressed, readings that show it still pressed, and one that shows
    it released.  [select_pair] returns after two such rounds. *)
Theorem select_one_returns_after_release (s : LanguageSelector.t) :
  (forall (prompt : str) (options : list (str * str)) (initial_index : Z)
          (w w' : World) (v : str * str),
      LanguageSelector.select_one s prompt options initial_index w = (Ok v, w') ->
      press_then_release s (gpio_in w) (gpio_in w'))
  /\ (forall (choices : list (str * str)) (initial_index : Z) (w w' : World)
             (v : (str * str) * (str * str) * str * str),
        LanguageSelector.select_pair s choices initial_index w = (Ok v, w') ->
        exists mid,
          press_then_release s (gpio_in w) mid
          /\ press_then_release s mid (gpio_in w')).
Proof.
  assert (Hone : forall prompt options initial_index w w' v,
             LanguageSelector.select_one s prompt options initial_index w = (Ok v, w') ->
             press_then_release s (gpio_in w) (gpio_in w')).
  { intros prompt options initial_index w w' v H.
    pose proof (select_one_ok_nonempty _ _ _ _ _ _ _ H) as Hne.
    destruct (select_one_enters_loop s prompt options Hne initial_index w w' v H)
      as (l & w0 & fuel & Hloop & (used & p & Hg & _)).
    rewrite Hg. change (used ++ p :: gpio_in w0) with (used ++ [p] ++ gpio_in w0).
    rewrite app_assoc. apply press_then_release_later.
    eapply loop_press_then_release. exact Hloop. }
  split; [exact Hone |].
  intros choices initial_index w w' v H. unfold LanguageSelector.select_pair in H.
  apply bind_ok in H. destruct H as ([name_1 code_1] & w1 & H1 & H).
  apply bind_ok in H. destruct H as ([name_2 code_2] & w2 & H2 & H).
  inversion H. subst. exists (gpio_in w1). split; eapply Hone; eassumption.
Qed.

Lemma select_one_returns_after_release_witness :
  exists v w',
    LanguageSelector.select_one selector0 (Py.lit "Select Lang 1:") choices0 0
      (world_reading (one_press 1 pins_idle pins_pushed)) = (Ok v, w')
    /\ press_then_release selector0
         (one_press 1 pins_idle pins_pushed) (gpio_in w').
Proof.
  assert (H : exists v w',
             LanguageSelector.select_one selector0 (Py.lit "Select Lang 1:") choices0 0
               (world_reading (one_press 1 pins_idle pins_pushed)) = (Ok v, w')).
  { eexists _, _. vm_compute. reflexivity. }
  destruct H as (v & w' & H). exists v, w'. split; [exact H |].
  exact (proj1 (select_one_returns_after_release selector0) _ _ _ _ _ _ H).
Defined.



(** With no option to choose from, [select_one] raises [ZeroDivisionError]
    after clearing the scroll text, and before it has read a pin or written
    to the display: the world it leaves is the one [clear_scroll] leaves,
    with an empty scroll text at offset 0, the same driver, the same pins to
    read and the same trace.  [select_pair] raises with it, and
    [select_languages_startup] leaves the controller without languages. *)
Theorem selection_of_nothing (s : LanguageSelector.t) (prompt : str)
    (initial_index : Z) (w : World) :
  exists w1,
    LanguageSelector.select_one s prompt [] initial_index w
    = (Raise ZeroDivisionError, w1)
    /\ LanguageSelector.select_pair s [] initial_index w
       = (Raise ZeroDivisionError, w1)
    /\ LCD.clear_scroll w = (Ok tt, w1)
    /\ _scroll_text (display w1) = []
    /\ _scroll_offset (display w1) = 0
    /\ lcd (display w1) = lcd (display w)
    /\ gpio_in w1 = gpio_in w /\ trace w1 = trace w
    /\ (forall a : AppController.t,
          AppController.selector a = s -> AppController.lang_choices a = [] ->
          AppController.select_languages_startup (a, w)
          = (Raise ZeroDivisionError, (a, w1))).
Proof.
  destruct (clear_scroll_run w) as (w1 & Hclear & Hg & Ht & Hl & Hs & Ho).
  assert (Hone : forall prompt' i,
             LanguageSelector.select_one s prompt' [] i w = (Raise ZeroDivisionError, w1)).
  { intros prompt' i. unfold LanguageSelector.select_one. step Hclear. reflexivity. }
  assert (Hpair : forall i,
             LanguageSelector.select_pair s [] i w = (Raise ZeroDivisionError, w1)).
  { intros i. unfold LanguageSelector.select_pair. unfold bind at 1.
    now rewrite Hone. }
  exists w1. split; [apply Hone |]. split; [apply Hpair |].
  split; [exact Hclear |]. split; [exact Hs |]. split; [exact Ho |].
  split; [exact Hl |]. split; [exact Hg |]. split; [exact Ht |].
  intros a Hsel Hc. unfold AppController.select_languages_startup.
  unfold bind at 1, AppController.self. cbn [fst snd].
  unfold bind at 1, AppController.lift. cbn [fst snd].
  now rewrite Hsel, Hc, Hpair.
Qed.

(** ** Captures and driver calls *)

Lemma sessions_app (recording : bool) (evs1 evs2 : list Event) :
  sessions recording (evs1 ++ evs2)
  = match sessions recording evs1 with
    | Some r => sessions r evs2
    | None => None
    end.
Proof.
  revert recording. induction evs1 as [| e evs1 IH]; intros r; cbn; [reflexivity |].
  destruct e; try apply IH; destruct r; try reflexivity; apply IH.
Qed.

Lemma sessions_quiet (recording : bool) (evs : list Event) :
  Forall (fun e => capture_event e = false) evs ->
  sessions recording evs = Some recording.
Proof.
  induction 1 as [| e evs He _ IH]; cbn; [reflexivity |].
  destruct e; try exact IH; discriminate.
Qed.

(** The trace of [LCDDisplay.shutdown]. *)
Lemma shutdown_run (line1 line2 : str) (hold_s : Z) (w : World) :
  LCD.shutdown line1 line2 hold_s w
  = (Ok tt,
     match lcd (display w) with
     | None => w
     | Some _ =>
         log (LcdWrite line1 line2 :: lcd_hw (display w) line1 line2
              ++ [Sleep hold_s; HwClear]) w
     end).
Proof.
  unfold LCD.shutdown. step (get_display_run w).
  destruct (lcd (display w)); [| reflexivity].
  step (lcd_write_run line1 line2 w).
  unfold time_sleep. step (emit_run (Sleep hold_s)
                             (log (LcdWrite line1 line2 :: lcd_hw (display w) line1 line2) w)).
  rewrite emit_run, !log_log. cbn [app]. reflexivity.
Qed.

Lemma shutdown_ok (line1 line2 : str) (hold_s : Z) (w : World) :
  LCD.shutdown line1 line2 hold_s w
  = (Ok tt, snd (LCD.shutdown line1 line2 hold_s w)).
Proof. now rewrite shutdown_run. Qed.

Section Polite.

Lemma polite_ret {A : Type} (a : A) : polite (ret a).
Proof.
  intros w. cbn. split; [reflexivity |]. exists []. now rewrite app_nil_r.
Qed.

Lemma polite_raise {A : Type} (e : exn) : polite (@raise World A e).
Proof.
  intros w. cbn. split; [reflexivity |]. exists []. now rewrite app_nil_r.
Qed.

Lemma polite_blocked {A : Type} : polite (@blocked World A).
Proof.
  intros w. cbn. split; [reflexivity |]. exists []. now rewrite app_nil_r.
Qed.

Lemma polite_bind {A B : Type} (m : M A) (k : A -> M B) :
  polite m -> (forall a, polite (k a)) -> polite (bind m k).
Proof.
  intros Hm Hk w. unfold bind.
  destruct (Hm w) as (Hl & evs & Ht & Hf).
  destruct (m w) as [[a | e |] w1]; cbn [fst snd] in *;
    [| split; [exact Hl | now exists evs] ..].
  destruct (Hk a w1) as (Hl' & evs' & Ht' & Hf').
  split; [congruence |]. exists (evs ++ evs').
  split; [now rewrite Ht', Ht, app_assoc |].
  apply Forall_app. split; [exact Hf |]. now rewrite Hl in Hf'.
Qed.

(** A call that leaves the display alone and adds only [evs], none of them
    the start or the signal of a capture or a call to the driver. *)
Lemma polite_log {A : Type} (m : M A) :
  (forall w, exists evs,
      display (snd (m w)) = display w
      /\ trace (snd (m w)) = trace w ++ evs
      /\ Forall (fun e => capture_event e = false /\ driver_call e = false) evs) ->
  polite m.
Proof.
  intros H w. destruct (H w) as (evs & Hd & Ht & Hf).
  split; [now rewrite Hd |]. exists evs. split; [exact Ht |].
  eapply Forall_impl; [| exact Hf]. cbn. tauto.
Qed.

Lemma polite_time_time : polite time_time.
Proof.
  apply polite_log. intros w. exists []. unfold time_time.
  destruct (clock w); cbn; rewrite app_nil_r; auto.
Qed.

Lemma polite_gpio_input (pin : Z) : polite (gpio_input pin).
Proof.
  apply polite_log. intros w. exists []. unfold gpio_input.
  destruct (gpio_in w); cbn; rewrite app_nil_r; auto.
Qed.

Lemma polite_emit (e : Event) :
  capture_event e = false -> driver_call e = false -> polite (emit e).
Proof.
  intros Hc Hd. apply polite_log. intros w. exists [e]. cbn. auto.
Qed.

Lemma polite_time_sleep (us : Z) : polite (time_sleep us).
Proof. now apply polite_emit. Qed.

Lemma polite_interruptible_sleep (us : Z) : polite (interruptible_sleep us).
Proof.
  apply polite_log. intros w. exists [Sleep us]. unfold interruptible_sleep.
  destruct (sigint w) as [| [|] rest]; cbn; auto.
Qed.

Lemma polite_readings_left : polite readings_left.
Proof. apply polite_log. intros w. exists []. cbn. rewrite app_nil_r. auto. Qed.

Lemma polite_py_mod (a b : Z) : polite (py_mod a b).
Proof. unfold py_mod. destruct (b =? 0); [apply polite_raise | apply polite_ret]. Qed.

Lemma polite_py_getitem {A : Type} (l : list A) (i : Z) : polite (py_getitem l i).
Proof.
  unfold py_getitem. destruct (Py.getitem l i); [apply polite_ret | apply polite_raise].
Qed.

(** The driver calls of a write are made only to a driver. *)
Lemma lcd_hw_polite (d : LCDDisplay) (line1 line2 : str) :
  Forall (fun e => capture_event e = false
                   /\ (lcd d = None -> driver_call e = false))
         (lcd_hw d line1 line2).
Proof.
  unfold lcd_hw. destruct (lcd d) as [h |]; [| constructor].
  destruct (Py.truthy line1); destruct ((1 <? rows d) && Py.truthy line2); cbn;
    repeat (constructor; [split; [reflexivity | discriminate] |]); constructor.
Qed.

Lemma polite_lcd_write (line1 line2 : str) : polite (LCD.write line1 line2).
Proof.
  intros w. rewrite lcd_write_run. cbn. split; [reflexivity |].
  eexists. split; [reflexivity |].
  constructor; [split; [reflexivity | reflexivity] | apply lcd_hw_polite].
Qed.

Lemma polite_lcd_set_scroll_text (text : str) : polite (LCD.set_scroll_text text).
Proof.
  intros w. destruct (set_scroll_text_run text w) as (w1 & H & _ & Ht & Hl & _).
  rewrite H. cbn. split; [exact Hl |]. exists []. now rewrite app_nil_r.
Qed.

Lemma polite_lcd_clear_scroll : polite LCD.clear_scroll.
Proof. apply polite_lcd_set_scroll_text. Qed.

Lemma polite_lcd_tick_scroll (is_recording : bool) : polite (LCD.tick_scroll is_recording).
Proof.
  intros w. destruct (time_time_run w) as (t0 & w0 & Htime0 & _ & Htr & Hd).
  destruct (tick_scroll_cases is_recording w)
    as (t & w1 & Htime & [(H & _) | [(H & _) | (Hl & _ & _ & _ & H)]]);
    rewrite Htime in Htime0; inversion Htime0; subst t0 w0; rewrite H; cbn.
  - split; [reflexivity |]. exists []. now rewrite app_nil_r.
  - split; [now rewrite Hd |]. exists []. now rewrite app_nil_r.
  - split; [reflexivity |]. eexists. rewrite Htr. split; [reflexivity |].
    repeat (constructor; [split; [reflexivity | intros C; contradiction] |]).
    constructor.
Qed.

Lemma polite_lcd_shutdown (line1 line2 : str) (hold_s : Z) :
  polite (LCD.shutdown line1 line2 hold_s).
Proof.
  intros w. rewrite shutdown_run. cbn [snd].
  destruct (lcd (display w)) as [h |] eqn:E.
  - cbn. split; [exact E |]. eexists. split; [reflexivity |].
    constructor; [split; [reflexivity | discriminate] |].
    apply Forall_app. split.
    + eapply Forall_impl; [| apply lcd_hw_polite]. cbn. intros e (H1 & _).
      split; [exact H1 | discriminate].
    + repeat (constructor; [split; [reflexivity | discriminate] |]). constructor.
  - split; [exact E |]. exists []. now rewrite app_nil_r.
Qed.

End Polite.

(** Politeness of a method follows its text. *)
Ltac polite_step :=
  first
    [ apply polite_ret
    | apply polite_blocked
    | apply polite_raise
    | apply polite_py_mod
    | apply polite_py_getitem
    | apply polite_time_time
    | apply polite_gpio_input
    | apply polite_time_sleep
    | apply polite_interruptible_sleep
    | apply polite_readings_left
    | apply polite_lcd_write
    | apply polite_lcd_set_scroll_text
    | apply polite_lcd_clear_scroll
    | apply polite_lcd_tick_scroll
    | apply polite_lcd_shutdown
    | apply polite_emit; reflexivity
    | assumption
    | apply polite_bind; [| intros ?]
    | match goal with
      | |- polite (match ?x with _ => _ end) => destruct x
      end ].

Ltac polite_auto := repeat (cbv beta zeta; polite_step).

Section PoliteMethods.

Lemma polite_button_poll (b : DebouncedButton.t) : polite (DebouncedButton.poll b).
Proof. unfold DebouncedButton.poll. polite_auto. Qed.

Lemma polite_longpress_poll (d : LongPressDetector.t) (enabled : bool) :
  polite (LongPressDetector.poll d enabled).
Proof. unfold LongPressDetector.poll. polite_auto. Qed.

Lemma polite_settle (fuel : nat) (s : LanguageSelector.t) (start : Z) :
  polite (LanguageSelector.settle fuel s start).
Proof. induction fuel as [| fuel IH]; cbn [LanguageSelector.settle]; polite_auto. Qed.

Lemma polite_wait_release (fuel : nat) (s : LanguageSelector.t) :
  polite (LanguageSelector.wait_release fuel s).
Proof. induction fuel as [| fuel IH]; cbn [LanguageSelector.wait_release]; polite_auto. Qed.

Lemma polite_rotate (prompt : str) (options : list (str * str))
    (l : LanguageSelector.locals) (clk dt : Z) :
  polite (LanguageSelector.rotate prompt options l clk dt).
Proof. unfold LanguageSelector.rotate. polite_auto. Qed.

Lemma polite_selector_iteration (s : LanguageSelector.t) (prompt : str)
    (options : list (str * str)) (l : LanguageSelector.locals) :
  polite (LanguageSelector.iteration s prompt options l).
Proof.
  unfold LanguageSelector.iteration.
  repeat (cbv beta zeta;
          first [ apply polite_rotate | apply polite_wait_release | polite_step ]).
Qed.

Lemma polite_selector_loop (fuel : nat) (s : LanguageSelector.t) (prompt : str)
    (options : list (str * str)) (l : LanguageSelector.locals) :
  polite (LanguageSelector.loop fuel s prompt options l).
Proof.
  revert l. induction fuel as [| fuel IH]; intros l; cbn [LanguageSelector.loop].
  - apply polite_blocked.
  - apply polite_bind; [apply polite_selector_iteration |].
    intros [l' | v]; [apply IH | apply polite_ret].
Qed.

Lemma polite_select_one (s : LanguageSelector.t) (prompt : str)
    (options : list (str * str)) (initial_index : Z) :
  polite (LanguageSelector.select_one s prompt options initial_index).
Proof.
  unfold LanguageSelector.select_one.
  repeat (cbv beta zeta;
          first [ apply polite_settle | apply polite_selector_loop | polite_step ]).
Qed.

Lemma polite_select_pair (s : LanguageSelector.t) (choices : list (str * str))
    (initial_index : Z) :
  polite (LanguageSelector.select_pair s choices initial_index).
Proof.
  unfold LanguageSelector.select_pair.
  apply polite_bind; [apply polite_select_one | intros [name_1 code_1]].
  apply polite_bind; [apply polite_select_one | intros [name_2 code_2]].
  apply polite_ret.
Qed.

Lemma polite_process (p : TranslationPipeline.t) (wav_path src_lang tgt_lang : str) :
  polite (TranslationPipeline.process p wav_path src_lang tgt_lang).
Proof. unfold TranslationPipeline.process. polite_auto. Qed.

End PoliteMethods.

(** ** The controller: captures in order, languages kept, driver calls *)

(** [stop] on a recording recorder: the signal, and then waits and at most
    a kill. *)
Lemma recorder_stop_run (r : AudioRecorder.t) (timeout_s : Z) (w : World) :
  AudioRecorder.is_recording r = true ->
  exists dur w1 evs,
    AudioRecorder.stop r timeout_s w
    = (Ok (AudioRecorder.with_session None None r, dur), w1)
    /\ display w1 = display w
    /\ gpio_in w1 = gpio_in w
    /\ trace w1 = trace w ++ SendSigint :: evs
    /\ Forall (fun e => capture_event e = false /\ driver_call e = false) evs.
Proof.
  intros H. unfold AudioRecorder.stop, AudioRecorder.is_recording in *.
  destruct (AudioRecorder._proc r) as [p |]; [| discriminate].
  unfold bind, emit, proc_wait, ret, time_time. cbn.
  destruct (exits_in_time w) as [| [|] rest]; cbn;
    destruct (AudioRecorder._t0 r) as [t0 |]; cbn;
    try (destruct (t0 =? 0); cbn); try (destruct (clock w); cbn);
    do 3 eexists; (split; [reflexivity |]); (split; [reflexivity |]);
    (split; [reflexivity |]);
    (split; [repeat rewrite <- app_assoc; cbn [app]; reflexivity |]);
    repeat (constructor; [split; reflexivity |]); constructor.
Qed.

(** The pipeline returns: it waits for no reading and raises nothing. *)
Lemma process_returns (p : TranslationPipeline.t) (wav_path src_lang tgt_lang : str)
    (w : World) :
  exists r w1,
    TranslationPipeline.process p wav_path src_lang tgt_lang w = (Ok r, w1)
    /\ gpio_in w1 = gpio_in w.
Proof.
  unfold TranslationPipeline.process.
  step (lcd_write_run (Py.lit "Transcribing...") [] w).
  match goal with |- context [log ?e w] => set (w1 := log e w) end.
  step (emit_run (Transcribe wav_path) w1). cbv zeta.
  destruct (Py.truthy (TranslationPipeline.transcribe_fn p wav_path)); cbn [negb].
  - match goal with |- context [log ?e w1] => set (w2 := log e w1) end.
    step (lcd_write_run (Py.lit "Translating...") [] w2).
    match goal with |- context [log ?e w2] => set (w3 := log e w2) end.
    match goal with |- context [emit ?e] => step (emit_run e w3) end.
    match goal with |- context [LCD.set_scroll_text ?out] =>
      destruct (set_scroll_text_run out
                  (log [Translate (TranslationPipeline.transcribe_fn p wav_path)
                          src_lang tgt_lang] w3))
        as (w4 & Hscroll & Hg4 & _)
    end.
    step Hscroll.
    match goal with |- context [LCD.write ?a ?b] => step (lcd_write_run a b w4) end.
    match goal with |- context [log ?e w4] => set (w5 := log e w4) end.
    match goal with |- context [emit ?e] => step (emit_run e w5) end.
    destruct (TranslationPipeline.tts p _ tgt_lang) as [path |].
    + destruct (Py.truthy path).
      * match goal with |- context [emit ?e] =>
          rewrite (bind_run _ _ _ _ _ (emit_run e (log [Synthesize
            (TranslationPipeline.translate_fn p
               (TranslationPipeline.transcribe_fn p wav_path) src_lang tgt_lang)
            tgt_lang] w5)))
        end.
        eexists _, _. split; [reflexivity |]. cbn. exact Hg4.
      * eexists _, _. split; [reflexivity |]. cbn. exact Hg4.
    + eexists _, _. split; [reflexivity |]. cbn. exact Hg4.
  - destruct (clear_scroll_run (log [Transcribe wav_path] w1))
      as (w2 & Hclear & Hg2 & _).
    step Hclear.
    step (lcd_write_run (Py.lit "No speech") (Py.lit "Try again") w2).
    eexists _, _. split; [reflexivity |]. cbn. exact Hg2.
Qed.

Section Orderly.

Import AppController.

Lemma orderly_at_still {A : Type} (m : AppM A) (s : t * World) :
  snd (m s) = s -> orderly_at m s.
Proof.
  intros H. unfold orderly_at. rewrite H. cbv zeta.
  split; [reflexivity |]. split; [auto |].
  exists []. rewrite app_nil_r. cbn. auto.
Qed.

Lemma orderly_at_ret {A : Type} (a : A) (s : t * World) : orderly_at (ret a) s.
Proof. now apply orderly_at_still. Qed.

Lemma orderly_at_raise {A : Type} (e : exn) (s : t * World) :
  orderly_at (@raise _ A e) s.
Proof. now apply orderly_at_still. Qed.

Lemma orderly_at_blocked {A : Type} (s : t * World) : orderly_at (@blocked _ A) s.
Proof. now apply orderly_at_still. Qed.

Lemma orderly_at_unpack (pair : option (str * str)) (s : t * World) :
  orderly_at (unpack pair) s.
Proof. destruct pair; now apply orderly_at_still. Qed.

(** Two steps in a row. *)
Lemma orderly_then (s s1 s2 : t * World) :
  (lcd (display (snd s1)) = lcd (display (snd s))
   /\ (selected (fst s) -> selected (fst s1))
   /\ exists evs,
        trace (snd s1) = trace (snd s) ++ evs
        /\ sessions (recording (fst s)) evs = Some (recording (fst s1))
        /\ (lcd (display (snd s)) = None ->
            Forall (fun e => driver_call e = false) evs)) ->
  (lcd (display (snd s2)) = lcd (display (snd s1))
   /\ (selected (fst s1) -> selected (fst s2))
   /\ exists evs,
        trace (snd s2) = trace (snd s1) ++ evs
        /\ sessions (recording (fst s1)) evs = Some (recording (fst s2))
        /\ (lcd (display (snd s1)) = None ->
            Forall (fun e => driver_call e = false) evs)) ->
  lcd (display (snd s2)) = lcd (display (snd s))
  /\ (selected (fst s) -> selected (fst s2))
  /\ exists evs,
       trace (snd s2) = trace (snd s) ++ evs
       /\ sessions (recording (fst s)) evs = Some (recording (fst s2))
       /\ (lcd (display (snd s)) = None ->
           Forall (fun e => driver_call e = false) evs).
Proof.
  intros (L1 & S1 & evs1 & T1 & C1 & D1) (L2 & S2 & evs2 & T2 & C2 & D2).
  split; [congruence |]. split; [auto |].
  exists (evs1 ++ evs2). split; [now rewrite T2, T1, app_assoc |].
  split; [now rewrite sessions_app, C1 |].
  intros Hn. apply Forall_app. split; [auto |]. apply D2. congruence.
Qed.

Lemma orderly_at_bind {A B : Type} (m : AppM A) (k : A -> AppM B) (s : t * World) :
  orderly_at m s ->
  (forall a s1, m s = (Ok a, s1) -> orderly_at (k a) s1) ->
  orderly_at (bind m k) s.
Proof.
  unfold orderly_at, bind. intros Hm Hk.
  destruct (m s) as [[a | e |] s1] eqn:E; cbn [fst snd] in *;
    [| exact Hm | exact Hm].
  specialize (Hk a s1 eq_refl). cbv zeta in *.
  exact (orderly_then s s1 _ Hm Hk).
Qed.

Lemma orderly_at_self_bind {B : Type} (k : t -> AppM B) (s : t * World) :
  orderly_at (k (fst s)) s -> orderly_at (bind self k) s.
Proof. intros H. exact H. Qed.

Lemma orderly_at_lift {A : Type} (m : M A) (s : t * World) :
  polite m -> orderly_at (lift m) s.
Proof.
  intros Hm. destruct s as [a w]. unfold orderly_at, lift. cbn [fst snd].
  destruct (Hm w) as (Hl & evs & Ht & Hf).
  destruct (m w) as [r w1]. cbn [fst snd] in *.
  split; [exact Hl |]. split; [auto |].
  exists evs. split; [exact Ht |]. split.
  - apply sessions_quiet. eapply Forall_impl; [| exact Hf]. cbn. tauto.
  - intros Hn. eapply Forall_impl; [| exact Hf]. cbn. intros e (_ & H). auto.
Qed.

Lemma orderly_at_assign (f : t -> t) (s : t * World) :
  recorder (f (fst s)) = recorder (fst s) ->
  (selected (fst s) -> selected (f (fst s))) ->
  orderly_at (assign f) s.
Proof.
  intros Hr Hs. unfold orderly_at, assign. cbn [fst snd].
  split; [reflexivity |]. split; [exact Hs |].
  exists []. rewrite app_nil_r. unfold recording. rewrite Hr. cbn. auto.
Qed.

Lemma orderly_at_assign_languages
    (sel : (str * str) * (str * str) * str * str) (s : t * World) :
  orderly_at (assign (with_languages sel)) s.
Proof.
  destruct sel as [[[a_to_b b_to_a] n1] n2].
  apply orderly_at_assign; [reflexivity |].
  intros _. split; discriminate.
Qed.

Lemma orderly_at_try_finally {A : Type} (body : AppM A) (cleanup : AppM unit)
    (s : t * World) :
  orderly_at body s -> (forall s1, orderly_at cleanup s1) ->
  orderly_at (try_finally body cleanup) s.
Proof.
  unfold orderly_at, try_finally. intros Hb Hc.
  destruct (body s) as [[a | e |] s1]; cbn [fst snd] in *; [| | exact Hb];
    specialize (Hc s1); cbv zeta in *;
    destruct (cleanup s1) as [[[] | e' |] s2]; cbn [fst snd] in *;
    exact (orderly_then s s1 s2 Hb Hc).
Qed.

Lemma orderly_at_except {A : Type} (body handler : AppM A) (s : t * World) :
  orderly_at body s -> (forall s1, orderly_at handler s1) ->
  orderly_at (except_KeyboardInterrupt body handler) s.
Proof.
  unfold orderly_at, except_KeyboardInterrupt. intros Hb Hh.
  destruct (body s) as [[a | [msg | | | | | |] |] s1]; cbn [fst snd] in *;
    try exact Hb.
  specialize (Hh s1). cbv zeta in *.
  exact (orderly_then s s1 _ Hb Hh).
Qed.

(** The start of a capture, with the assignment of the recorder. *)
Lemma orderly_at_start (rest : AppM unit) (a : t) (w : World) :
  recording a = false ->
  (forall s1, orderly_at rest s1) ->
  orderly_at (r <- lift (AudioRecorder.start (recorder a)) ;;
              assign (with_recorder r) ;; rest) (a, w).
Proof.
  intros Hidle Hrest.
  destruct (recorder_start_cases (recorder a) w Hidle)
    as [Hraise | (t0 & w1 & Hrun & _ & _ & Hd & _ & Ht)].
  { apply orderly_at_still. unfold bind at 1, lift. cbn [fst snd].
    destruct Hraise as [-> | ->]; reflexivity. }
  set (r1 := AudioRecorder.with_session (Some ArecordProcess) (Some t0) (recorder a)) in *.
  assert (E : (r <- lift (AudioRecorder.start (recorder a)) ;;
               assign (with_recorder r) ;; rest) (a, w)
              = rest (with_recorder r1 a, w1)).
  { unfold bind at 1, lift. cbn [fst snd]. rewrite Hrun. reflexivity. }
  unfold orderly_at. rewrite E. cbv zeta.
  apply (orderly_then (a, w) (with_recorder r1 a, w1)); [| apply Hrest].
  cbn [fst snd]. split; [now rewrite Hd |]. split; [auto |].
  eexists. split; [exact Ht |]. split.
  - cbn. rewrite Hidle. reflexivity.
  - intros _. repeat constructor.
Qed.

(** The end of a capture, with the assignment of the recorder. *)
Lemma orderly_at_stop (rest : AppM unit) (a : t) (w : World) :
  recording a = true ->
  (forall s1, orderly_at rest s1) ->
  orderly_at (' (r, _) <- lift (AudioRecorder.stop (recorder a)
                                  AudioRecorder.default_timeout_s) ;;
              assign (with_recorder r) ;; rest) (a, w).
Proof.
  intros Hrec Hrest.
  destruct (recorder_stop_run (recorder a) AudioRecorder.default_timeout_s w Hrec)
    as (dur & w1 & evs & Hrun & Hd & _ & Ht & Hf).
  set (r1 := AudioRecorder.with_session None None (recorder a)) in *.
  assert (E : (' (r, _) <- lift (AudioRecorder.stop (recorder a)
                                   AudioRecorder.default_timeout_s) ;;
               assign (with_recorder r) ;; rest) (a, w)
              = rest (with_recorder r1 a, w1)).
  { unfold bind at 1, lift. cbn [fst snd]. rewrite Hrun. reflexivity. }
  unfold orderly_at. rewrite E. cbv zeta.
  apply (orderly_then (a, w) (with_recorder r1 a, w1)); [| apply Hrest].
  cbn [fst snd]. split; [now rewrite Hd |]. split; [auto |].
  eexists. split; [exact Ht |]. split.
  - cbn [sessions]. rewrite Hrec.
    apply sessions_quiet. eapply Forall_impl; [| exact Hf]. cbn. tauto.
  - intros _. constructor; [reflexivity |].
    eapply Forall_impl; [| exact Hf]. cbn. tauto.
Qed.

End Orderly.

(** Orderliness of a method follows its text. *)
Ltac orderly_step :=
  first
    [ apply orderly_at_ret
    | apply orderly_at_raise
    | apply orderly_at_blocked
    | apply orderly_at_unpack
    | apply orderly_at_self_bind
    | apply orderly_at_assign_languages
    | apply orderly_at_assign; [reflexivity | exact (fun H => H)]
    | apply orderly_at_lift;
      first [ apply polite_button_poll | apply polite_longpress_poll
            | apply polite_select_pair | apply polite_process
            | solve [polite_auto] ]
    | assumption
    | match goal with H : forall s, orderly_at ?m s |- orderly_at ?m _ => apply H end
    | apply orderly_at_bind; [| intros ? ? _]
    | apply orderly_at_try_finally; [| intros ?]
    | apply orderly_at_except; [| intros ?]
    | match goal with
      | |- orderly_at (match ?x with _ => _ end) _ => destruct x eqn:?
      end ].

Ltac orderly_auto := repeat (cbv beta zeta; cbn [fst snd]; orderly_step).

Section OrderlyMethods.

Import AppController.

Lemma orderly_select_languages_startup (s : t * World) :
  orderly_at select_languages_startup s.
Proof. unfold select_languages_startup. orderly_auto. Qed.

Lemma orderly_reselect_languages (s : t * World) : orderly_at reselect_languages s.
Proof. unfold reselect_languages. orderly_auto. Qed.

Lemma orderly_start_record (s : t * World) : orderly_at start_record s.
Proof.
  destruct s as [a w]. unfold start_record.
  apply orderly_at_self_bind. cbn [fst].
  destruct (AudioRecorder.is_recording (recorder a)) eqn:E; [apply orderly_at_ret |].
  apply orderly_at_start; [exact E |]. intros s1. orderly_auto.
Qed.

Lemma orderly_stop_record (src_lang tgt_lang : str) (s : t * World) :
  orderly_at (stop_record src_lang tgt_lang) s.
Proof.
  destruct s as [a w]. unfold stop_record.
  apply orderly_at_self_bind. cbn [fst].
  destruct (AudioRecorder.is_recording (recorder a)) eqn:E; cbn [negb];
    [| apply orderly_at_ret].
  apply orderly_at_stop; [exact E |]. intros s1. orderly_auto.
Qed.

Lemma orderly_show_ready (s : t * World) : orderly_at show_ready s.
Proof. unfold show_ready. orderly_auto. Qed.

Lemma orderly_on_button (ev : option ButtonEvent) (langs : t -> option (str * str))
    (s : t * World) :
  orderly_at (on_button ev langs) s.
Proof.
  unfold on_button. destruct ev as [[|] |].
  - apply orderly_start_record.
  - apply orderly_at_self_bind. apply orderly_at_bind; [apply orderly_at_unpack |].
    intros [src_lang tgt_lang] s1 _. apply orderly_stop_record.
  - apply orderly_at_ret.
Qed.

Lemma orderly_poll_longpress (s : t * World) : orderly_at poll_longpress s.
Proof.
  unfold poll_longpress.
  pose proof orderly_reselect_languages as Hre.
  orderly_auto.
Qed.

Lemma orderly_iteration (s : t * World) : orderly_at iteration s.
Proof.
  unfold iteration.
  pose proof orderly_poll_longpress as Hlp.
  repeat (cbv beta zeta; cbn [fst snd];
          first [ apply orderly_on_button | orderly_step ]).
Qed.

Lemma orderly_main_loop (fuel : nat) (s : t * World) : orderly_at (main_loop fuel) s.
Proof.
  revert s. induction fuel as [| fuel IH]; intros s; cbn [main_loop].
  - apply orderly_at_blocked.
  - apply orderly_at_bind; [apply orderly_iteration | intros [] s1 _; apply IH].
Qed.

Lemma orderly_cleanup (s : t * World) : orderly_at cleanup s.
Proof.
  unfold cleanup.
  repeat (cbv beta zeta; cbn [fst snd];
          first [ apply orderly_stop_record | orderly_step ]).
Qed.

Lemma orderly_run (s : t * World) : orderly_at run s.
Proof.
  unfold run. apply orderly_at_self_bind.
  destruct (lang_a_to_b (fst s)); [| apply orderly_at_raise].
  destruct (lang_b_to_a (fst s)); [| apply orderly_at_raise].
  apply orderly_at_bind; [apply orderly_show_ready | intros [] s1 _].
  apply orderly_at_try_finally; [| intros s2; apply orderly_cleanup].
  apply orderly_at_except; [| intros s2; apply orderly_at_ret].
  apply orderly_at_bind; [apply orderly_at_lift; apply polite_readings_left |].
  intros fuel s2 _. apply orderly_main_loop.
Qed.

End OrderlyMethods.

(** Captures never overlap: in the events that [AppController.run] adds to
    the trace, and in those of any number of iterations of its loop and of
    its cleanup, a capture process is started only when none is running and
    signalled only when one is, from whether the controller was recording to
    whether it is afterwards, however the call ends. *)
Theorem captures_never_overlap (a : AppController.t) (w : World) :
  (exists evs,
      trace (snd (snd (AppController.run (a, w)))) = trace w ++ evs
      /\ sessions (recording a) evs
         = Some (recording (fst (snd (AppController.run (a, w))))))
  /\ (forall fuel, exists evs,
         trace (snd (snd (AppController.main_loop fuel (a, w)))) = trace w ++ evs
         /\ sessions (recording a) evs
            = Some (recording (fst (snd (AppController.main_loop fuel (a, w))))))
  /\ (exists evs,
         trace (snd (snd (AppController.cleanup (a, w)))) = trace w ++ evs
         /\ sessions (recording a) evs
            = Some (recording (fst (snd (AppController.cleanup (a, w)))))).
Proof.
  split; [| split].
  - destruct (orderly_run (a, w)) as (_ & _ & evs & Ht & Hs & _). now exists evs.
  - intros fuel.
    destruct (orderly_main_loop fuel (a, w)) as (_ & _ & evs & Ht & Hs & _).
    now exists evs.
  - destruct (orderly_cleanup (a, w)) as (_ & _ & evs & Ht & Hs & _). now exists evs.
Qed.

(** Without a display (the driver missing or its initialisation failed), the
    program never calls the driver: neither the selection at startup nor
    [run], with its loop, its re-selections, its pipeline and its shutdown
    message, adds a driver call to the trace, and the display stays
    without a driver. *)
Theorem no_display_no_driver_calls (a : AppController.t) (w : World) :
  lcd (display w) = None ->
  (exists evs,
      trace (snd (snd (AppController.select_languages_startup (a, w)))) = trace w ++ evs
      /\ Forall (fun e => driver_call e = false) evs
      /\ lcd (display (snd (snd (AppController.select_languages_startup (a, w))))) = None)
  /\ (exists evs,
         trace (snd (snd (AppController.run (a, w)))) = trace w ++ evs
         /\ Forall (fun e => driver_call e = false) evs
         /\ lcd (display (snd (snd (AppController.run (a, w))))) = None).
Proof.
  intros Hn. split.
  - destruct (orderly_select_languages_startup (a, w)) as (Hl & _ & evs & Ht & _ & Hd).
    exists evs. cbn [fst snd] in *. split; [exact Ht |]. split; [auto | congruence].
  - destruct (orderly_run (a, w)) as (Hl & _ & evs & Ht & _ & Hd).
    exists evs. cbn [fst snd] in *. split; [exact Ht |]. split; [auto | congruence].
Qed.

Lemma no_display_no_driver_calls_witness :
  lcd (display world_no_display) = None
  /\ exists evs,
       trace (snd (snd (AppController.run (app_selected, world_no_display)))) = [] ++ evs
       /\ Forall (fun e => driver_call e = false) evs.
Proof.
  split; [reflexivity |].
  destruct (proj2 (no_display_no_driver_calls app_selected world_no_display eq_refl))
    as (evs & Ht & Hd & _).
  exists evs. split; [exact Ht | exact Hd].
Defined.

(** ** The controller: the end of a recording, and the end of [run] *)

Section Release.

Import AppController.

(** The recorder of the controller once stopped. *)
Lemma stop_record_run (src_lang tgt_lang : str) (a : t) (w : World) :
  recording a = true ->
  exists dur w1 r w2,
    AudioRecorder.stop (recorder a) AudioRecorder.default_timeout_s w
    = (Ok (AudioRecorder.with_session None None (recorder a), dur), w1)
    /\ TranslationPipeline.process (pipeline a) (AudioRecorder.wav_path (recorder a))
         src_lang tgt_lang w1 = (Ok r, w2)
    /\ stop_record src_lang tgt_lang (a, w)
       = (Ok tt,
          (with_recorder (AudioRecorder.with_session None None (recorder a)) a, w2))
    /\ (exists evs, trace w2 = trace w ++ SendSigint :: evs)
    /\ gpio_in w2 = gpio_in w.
Proof.
  intros Hrec.
  destruct (recorder_stop_run (recorder a) AudioRecorder.default_timeout_s w Hrec)
    as (dur & w1 & evs & Hstop & _ & Hg1 & Ht1 & _).
  destruct (process_returns (pipeline a) (AudioRecorder.wav_path (recorder a))
              src_lang tgt_lang w1) as (r & w2 & Hproc & Hg2).
  exists dur, w1, r, w2.
  split; [exact Hstop |]. split; [exact Hproc |]. split; [| split].
  - unfold stop_record. unfold bind at 1, self. cbn [fst snd].
    unfold recording in Hrec. rewrite Hrec. cbn [negb].
    unfold bind at 1, lift. cbn [fst snd]. rewrite Hstop.
    unfold bind at 1, assign. cbn [fst snd].
    unfold bind at 1. cbn [fst snd].
    unfold bind at 1, lift. cbn [fst snd].
    change (AudioRecorder.wav_path
              (recorder (with_recorder
                           (AudioRecorder.with_session None None (recorder a)) a)))
      with (AudioRecorder.wav_path (recorder a)).
    change (pipeline (with_recorder
                        (AudioRecorder.with_session None None (recorder a)) a))
      with (pipeline a).
    rewrite Hproc. reflexivity.
  - destruct (polite_process (pipeline a) (AudioRecorder.wav_path (recorder a))
                src_lang tgt_lang w1) as (_ & evs2 & Ht2 & _).
    rewrite Hproc in Ht2. cbn [snd] in Ht2.
    exists (evs ++ evs2). rewrite Ht2, Ht1, <- app_assoc. reflexivity.
  - congruence.
Qed.

(** The cleanup of [run], with languages selected. *)
Lemma cleanup_run (a : t) (w : World) :
  selected a ->
  exists a' evs w1,
    cleanup (a, w)
    = (Ok tt, (a', snd (LCD.shutdown (Py.lit "Shutting down") [] 5000000 w1)))
    /\ recording a' = false
    /\ selected a'
    /\ trace w1 = trace w ++ evs ++ [GpioCleanup].
Proof.
  intros Hsel. unfold cleanup. unfold bind at 1, self. cbn [fst snd].
  destruct (AudioRecorder.is_recording (recorder a)) eqn:Hrec.
  - destruct Hsel as (Ha & Hb).
    destruct (lang_a_to_b a) as [[src_lang tgt_lang] |] eqn:Ela; [| congruence].
    destruct (stop_record_run src_lang tgt_lang a w Hrec)
      as (dur & w1 & r & w2 & _ & _ & Hstop & (evs & Ht) & _).
    unfold bind at 1. unfold bind at 1. unfold unpack, ret at 1. cbn match.
    rewrite Hstop.
    unfold bind at 1, lift at 1, emit. cbn [fst snd].
    unfold bind, lift. cbn [fst snd].
    rewrite shutdown_ok.
    eexists _, (SendSigint :: evs), _. split; [reflexivity |].
    split; [reflexivity |]. split.
    + split; cbn; congruence.
    + cbn [trace]. rewrite Ht, <- app_assoc. reflexivity.
  - unfold bind at 1. unfold ret at 1.
    unfold bind at 1, lift at 1, emit. cbn [fst snd].
    unfold bind, lift. cbn [fst snd].
    rewrite shutdown_ok.
    eexists _, [], _. split; [reflexivity |].
    split; [exact Hrec |]. split; [exact Hsel |]. reflexivity.
Qed.

(** [run] past its guard: the ready message, the loop and the cleanup. *)
Lemma run_selected (a : t) (w : World) (pa pb : str * str) :
  lang_a_to_b a = Some pa -> lang_b_to_a a = Some pb ->
  run (a, w)
  = try_finally
      (except_KeyboardInterrupt
         (fuel <- lift readings_left ;; main_loop fuel) (ret tt))
      cleanup
      (a, log (LcdWrite (Py.lit "Ready") (Py.lit "Hold button")
               :: lcd_hw (display w) (Py.lit "Ready") (Py.lit "Hold button")) w).
Proof.
  intros Ha Hb. unfold run. unfold bind at 1, self. cbn [fst snd].
  rewrite Ha, Hb. unfold show_ready. unfold bind at 1, lift at 1. cbn [fst snd].
  rewrite lcd_write_run. reflexivity.
Qed.

End Release.

(** When [run], entered with languages selected, ends otherwise than still
    waiting for a reading, by Ctrl-C or by an exception out of the loop, the
    recorder is idle, the languages are still selected, and the last things
    done are [gpio.cleanup()] and then the shutdown of the display. *)
Theorem run_cleans_up (a : AppController.t) (w : World) :
  selected a ->
  fst (AppController.run (a, w)) <> Blocked ->
  let s' := snd (AppController.run (a, w)) in
  recording (fst s') = false
  /\ selected (fst s')
  /\ exists evs w1,
       trace w1 = trace w ++ evs ++ [GpioCleanup]
       /\ snd s' = snd (LCD.shutdown (Py.lit "Shutting down") [] 5000000 w1).
Proof.
  intros Hsel. pose proof Hsel as (Ha & Hb).
  destruct (AppController.lang_a_to_b a) as [pa |] eqn:Ea; [| congruence].
  destruct (AppController.lang_b_to_a a) as [pb |] eqn:Eb'; [| congruence].
  rewrite (run_selected a w pa pb Ea Eb').
  set (w0 := log (LcdWrite (Py.lit "Ready") (Py.lit "Hold button")
                  :: lcd_hw (display w) (Py.lit "Ready") (Py.lit "Hold button")) w).
  set (body := except_KeyboardInterrupt
                 (fuel <- AppController.lift readings_left ;;
                  AppController.main_loop fuel) (ret tt)).
  assert (Hbody : orderly_at body (a, w0)).
  { subst body. apply orderly_at_except; [| intros s2; apply orderly_at_ret].
    apply orderly_at_bind; [apply orderly_at_lift; apply polite_readings_left |].
    intros fuel s2 _. apply orderly_main_loop. }
  unfold try_finally.
  destruct (body (a, w0)) as [r [a1 w1]] eqn:Eb.
  unfold orderly_at in Hbody. rewrite Eb in Hbody. cbn [fst snd] in Hbody.
  destruct Hbody as (_ & Hsel1 & evs1 & Ht1 & _).
  destruct (cleanup_run a1 w1 (Hsel1 Hsel)) as (a' & evs2 & w2 & Hc & Hrec & Hsel' & Ht2).
  assert (Htr : trace w2
                = trace w
                  ++ ((LcdWrite (Py.lit "Ready") (Py.lit "Hold button")
                       :: lcd_hw (display w) (Py.lit "Ready") (Py.lit "Hold button"))
                      ++ evs1 ++ evs2)
                  ++ [GpioCleanup]).
  { rewrite Ht2, Ht1. subst w0. cbn [trace log].
    repeat rewrite <- app_assoc. reflexivity. }
  destruct r as [[] | e |]; rewrite ?Hc; cbn [fst snd]; intros Hnb;
    try (split; [exact Hrec |]; split; [exact Hsel' |];
         eexists _, w2; split; [exact Htr | reflexivity]).
  now elim Hnb.
Qed.

Lemma run_cleans_up_witness :
  selected app_selected
  /\ fst (AppController.run (app_selected, world_interrupted)) <> Blocked
  /\ recording (fst (snd (AppController.run (app_selected, world_interrupted)))) = false.
Proof.
  assert (Hsel : selected app_selected) by (split; discriminate).
  assert (Hnb : fst (AppController.run (app_selected, world_interrupted)) <> Blocked).
  { intros H. vm_compute in H. discriminate H. }
  split; [exact Hsel |]. split; [exact Hnb |].
  exact (proj1 (run_cleans_up app_selected world_interrupted Hsel Hnb)).
Defined.



(** ** The player: the choice of the PulseAudio sink *)

Section Strings.

Lemma pystr_eqb_eq (a b : str) : PyStr.eqb a b = true <-> a = b.
Proof.
  unfold PyStr.eqb. destruct (list_eq_dec N.eq_dec a b); split; auto; discriminate.
Qed.

Lemma startswith_spec (a s : str) :
  PyStr.startswith a s = true <-> exists post, s = a ++ post.
Proof.
  revert s. induction a as [| x a IH]; intros s; cbn.
  - split; [intros _; now exists s | reflexivity].
  - destruct s as [| y s]; cbn.
    + split; [discriminate | intros (post & H); discriminate].
    + rewrite andb_true_iff, N.eqb_eq, IH. split.
      * intros (-> & (post & ->)). now exists post.
      * intros (post & H). injection H as -> ->. split; [reflexivity | now exists post].
Qed.

(** [a in s] holds exactly when [a] occurs in [s]. *)
Lemma contains_spec (a s : str) : PyStr.contains a s = true <-> occurs_in a s.
Proof.
  induction s as [| y s IH].
  - cbn. rewrite orb_false_r, startswith_spec. split.
    + intros (post & H). exists [], post. exact H.
    + intros (pre & post & H). destruct pre; [| discriminate].
      cbn in H. now exists post.
  - cbn [PyStr.contains]. rewrite orb_true_iff, startswith_spec, IH. split.
    + intros [(post & H) | (pre & post & H)].
      * exists [], post. exact H.
      * exists (y :: pre), post. cbn. now rewrite H.
    + intros ([| z pre] & post & H).
      * left. now exists post.
      * right. cbn in H. injection H as _ H. now exists pre, post.
Qed.

Lemma contains_false (a s : str) : PyStr.contains a s = false <-> ~ occurs_in a s.
Proof.
  rewrite <- contains_spec. destruct (PyStr.contains a s); split; congruence.
Qed.

Lemma existsb_eqb_in (want : str) (l : list str) :
  existsb (PyStr.eqb want) l = true <-> In want l.
Proof.
  rewrite existsb_exists. split.
  - intros (x & Hin & E). apply pystr_eqb_eq in E. now subst.
  - intros H. exists want. split; [exact H | now apply pystr_eqb_eq].
Qed.

(** What [find] finds is the first. *)
Lemma find_first {A : Type} (f : A -> bool) (l : list A) (x : A) :
  find f l = Some x ->
  f x = true
  /\ exists l1 l2, l = l1 ++ x :: l2 /\ Forall (fun y => f y = false) l1.
Proof.
  induction l as [| y l IH]; cbn; [discriminate |].
  destruct (f y) eqn:E.
  - intros H. injection H as ->. split; [exact E |]. exists [], l. auto.
  - intros H. destruct (IH H) as (Hx & l1 & l2 & -> & Hl1).
    split; [exact Hx |]. exists (y :: l1), l2. auto.
Qed.

(** A line without a line boundary, before a line feed. *)
Lemma splitlines_from_line (line cur more : str) :
  forallb (fun c => negb (PyStr.is_linebreak c)) line = true ->
  PyStr.splitlines_from cur (line ++ 10%N :: more)
  = (rev cur ++ line) :: PyStr.splitlines_from [] more.
Proof.
  revert cur. induction line as [| c line IH]; intros cur H.
  - cbn. now rewrite app_nil_r.
  - cbn in H. apply andb_true_iff in H. destruct H as (Hc & Hl).
    cbn [app PyStr.splitlines_from].
    destruct (PyStr.is_linebreak c); [discriminate |].
    rewrite (IH (c :: cur) Hl). cbn [rev]. now rewrite <- app_assoc.
Qed.

(** A field without a tab, before a tab. *)
Lemma split_from_field (field cur more : str) :
  forallb (fun c => negb (N.eqb c 9%N)) field = true ->
  PyStr.split_from 9%N cur (field ++ 9%N :: more)
  = (rev cur ++ field) :: PyStr.split_from 9%N [] more.
Proof.
  revert cur. induction field as [| c field IH]; intros cur H.
  - cbn. now rewrite app_nil_r.
  - cbn in H. apply andb_true_iff in H. destruct H as (Hc & Hl).
    cbn [app PyStr.split_from].
    destruct (N.eqb c 9%N); [discriminate |].
    rewrite (IH (c :: cur) Hl). cbn [rev]. now rewrite <- app_assoc.
Qed.

Lemma plain_no_linebreak (s : str) :
  forallb plain_char s = true ->
  forallb (fun c => negb (PyStr.is_linebreak c)) s = true.
Proof.
  rewrite !forallb_forall. intros H c Hc. specialize (H c Hc).
  unfold plain_char in H. apply andb_true_iff in H. tauto.
Qed.

Lemma plain_no_tab (s : str) :
  forallb plain_char s = true ->
  forallb (fun c => negb (N.eqb c 9%N)) s = true.
Proof.
  rewrite !forallb_forall. intros H c Hc. specialize (H c Hc).
  unfold plain_char in H. apply andb_true_iff in H. tauto.
Qed.

End Strings.

(** [_resolve_pulse_sink] with a name configured and a listing read. *)
Lemma resolve_listed (p : AudioPlayer.t) (want stdout : str) :
  AudioPlayer.pulse_sink p = Some want -> want <> [] ->
  let sinks := AudioPlayer.sink_names stdout in
  let result := AudioPlayer._resolve_pulse_sink p (Some (0, stdout)) in
  (In want sinks -> result = Some (Some want))
  /\ (forall s, result = Some (Some s) ->
        In s sinks /\ occurs_in want s
        /\ (s = want
            \/ exists l1 l2,
                 sinks = l1 ++ s :: l2
                 /\ Forall (fun x => ~ occurs_in want x) l1))
  /\ (result = Some None <-> forall s, In s sinks -> ~ occurs_in want s).
Proof.
  intros H Hne sinks result.
  assert (Hres : result
                 = if existsb (PyStr.eqb want) sinks then Some (Some want)
                   else Some (find (PyStr.contains want) sinks)).
  { subst result. unfold AudioPlayer._resolve_pulse_sink.
    rewrite H, (truthy_nonempty want Hne). reflexivity. }
  assert (Hself : occurs_in want want).
  { exists [], []. cbn. now rewrite app_nil_r. }
  destruct (existsb (PyStr.eqb want) sinks) eqn:Ex.
  + apply existsb_eqb_in in Ex. rewrite Hres. split; [reflexivity |]. split.
    * intros s Hs. injection Hs as <-. auto.
    * split; [discriminate |]. intros Hnone. elim (Hnone want Ex). exact Hself.
  + assert (Hnot : ~ In want sinks).
    { intros Hin. apply existsb_eqb_in in Hin. congruence. }
    rewrite Hres. split; [contradiction |]. split.
    * intros s Hs. injection Hs as Hs.
      destruct (find_first _ _ _ Hs) as (Hc & l1 & l2 & Hl & Hl1).
      split; [rewrite Hl; apply in_elt |].
      split; [now apply contains_spec |].
      right. exists l1, l2. split; [exact Hl |].
      eapply Forall_impl; [| exact Hl1]. intros x. apply contains_false.
    * split.
      -- intros Hnone. injection Hnone as Hnone. intros s Hin.
         apply contains_false. exact (find_none _ _ Hnone s Hin).
      -- intros Hall.
         destruct (find (PyStr.contains want) sinks) as [s |] eqn:Ef; [| reflexivity].
         apply find_some in Ef. destruct Ef as (Hin & Hc).
         apply contains_spec in Hc. elim (Hall s Hin Hc).
Qed.

(** [_resolve_pulse_sink] returns [None] without running [pactl] when no
    sink name is configured, and [None] when [pactl] fails.  Otherwise, with
    the names listed by [pactl]: a configured name that is listed is
    returned as it is, even if a sink listed before it contains it; what is
    returned is always a listed name in which the configured name occurs,
    and, unless it is the configured name itself, the first such; and
    [None] is returned exactly when the configured name occurs in no listed
    name. *)
Theorem resolve_pulse_sink_spec :
  (forall (p : AudioPlayer.t) (pactl : option (Z * str)),
      AudioPlayer.pulse_sink p = None \/ AudioPlayer.pulse_sink p = Some [] ->
      AudioPlayer._resolve_pulse_sink p pactl = Some None)
  /\ (forall (p : AudioPlayer.t) (want : str) (returncode : Z) (stdout : str),
        AudioPlayer.pulse_sink p = Some want -> returncode <> 0 ->
        AudioPlayer._resolve_pulse_sink p (Some (returncode, stdout)) = Some None)
  /\ (forall (p : AudioPlayer.t) (want stdout : str),
        AudioPlayer.pulse_sink p = Some want -> want <> [] ->
        let sinks := AudioPlayer.sink_names stdout in
        let result := AudioPlayer._resolve_pulse_sink p (Some (0, stdout)) in
        (In want sinks -> result = Some (Some want))
        /\ (forall s, result = Some (Some s) ->
              In s sinks /\ occurs_in want s
              /\ (s = want
                  \/ exists l1 l2,
                       sinks = l1 ++ s :: l2
                       /\ Forall (fun x => ~ occurs_in want x) l1))
        /\ (result = Some None <-> forall s, In s sinks -> ~ occurs_in want s)).
Proof.
  split; [| split].
  - intros p pactl [H | H]; unfold AudioPlayer._resolve_pulse_sink; now rewrite H.
  - intros p want returncode stdout H Hrc. unfold AudioPlayer._resolve_pulse_sink.
    rewrite H. destruct (Py.truthy want); [| reflexivity].
    cbn [negb]. now rewrite (proj2 (Z.eqb_neq _ _) Hrc).
  - exact resolve_listed.
Qed.

Lemma resolve_pulse_sink_spec_witness :
  AudioPlayer.pulse_sink player_pulse = Some (Py.lit "usb")
  /\ AudioPlayer._resolve_pulse_sink player_pulse (Some (0, print_sinks two_sinks))
     = Some (Some (Py.lit "alsa_output.usb-speaker"))
  /\ occurs_in (Py.lit "usb") (Py.lit "alsa_output.usb-speaker").
Proof.
  split; [reflexivity |].
  assert (E : AudioPlayer._resolve_pulse_sink player_pulse
                (Some (0, print_sinks two_sinks))
              = Some (Some (Py.lit "alsa_output.usb-speaker")))
    by (vm_compute; reflexivity).
  split; [exact E |].
  destruct resolve_pulse_sink_spec as (_ & _ & H).
  destruct (H player_pulse (Py.lit "usb") (print_sinks two_sinks) eq_refl)
    as (_ & Hs & _); [discriminate |].
  exact (proj1 (proj2 (Hs _ E))).
Defined.

(** Reading the listing of [pactl list short sinks] gives back the names of
    the sinks, in order: for rows whose index and name contain neither a tab
    nor a line boundary and whose remaining fields contain no line boundary,
    the names read from the printed rows are the names of the rows. *)
Theorem sink_names_of_listing (rows : list SinkRow) :
  Forall well_formed rows ->
  AudioPlayer.sink_names (print_sinks rows) = map row_name rows.
Proof.
  induction 1 as [| r rows (Hi & Hn & Hr) _ IH]; [reflexivity |].
  unfold AudioPlayer.sink_names, PyStr.splitlines in *.
  cbn [print_sinks flat_map]. unfold print_row at 1.
  assert (Hline : forallb (fun c => negb (PyStr.is_linebreak c))
                    (row_index r ++ 9%N :: row_name r ++ 9%N :: row_rest r) = true).
  { rewrite forallb_app. cbn [forallb]. rewrite forallb_app. cbn [forallb].
    rewrite (plain_no_linebreak _ Hi), (plain_no_linebreak _ Hn), Hr. reflexivity. }
  replace ((row_index r ++ 9%N :: row_name r ++ 9%N :: row_rest r ++ [10%N])
           ++ flat_map print_row rows)
    with ((row_index r ++ 9%N :: row_name r ++ 9%N :: row_rest r)
          ++ 10%N :: flat_map print_row rows).
  2:{ rewrite <- !app_assoc. cbn [app]. rewrite <- !app_assoc. cbn [app].
      rewrite <- app_assoc. reflexivity. }
  rewrite (splitlines_from_line _ [] _ Hline). cbn [rev app flat_map map].
  unfold print_sinks in IH. rewrite IH.
  unfold PyStr.split.
  rewrite (split_from_field (row_index r) [] _ (plain_no_tab _ Hi)).
  rewrite (split_from_field (row_name r) [] _ (plain_no_tab _ Hn)).
  reflexivity.
Qed.

Lemma sink_names_of_listing_witness :
  Forall well_formed two_sinks
  /\ AudioPlayer.sink_names (print_sinks two_sinks)
     = [Py.lit "alsa_output.platform-sound"; Py.lit "alsa_output.usb-speaker"].
Proof.
  assert (H : Forall well_formed two_sinks).
  { repeat (apply Forall_cons; [repeat split; vm_compute; reflexivity |]).
    apply Forall_nil. }
  split; [exact H |]. exact (sink_names_of_listing two_sinks H).
Defined.

(** Whatever the configuration, the command [play_wav] runs ends with the
    file to play.  [play_wav] assigns [PULSE_SINK] only for the device
    "pulse", and then a sink that [pactl] lists and in which the configured
    name occurs; the command for the device "pulse" is never wrapped in
    [pasuspender]; and for any other device [pactl] is not run, so that its
    absence breaks nothing and no [PULSE_SINK] is assigned. *)
Theorem play_wav_command (p : AudioPlayer.t) (wav_path : str)
    (pactl : option (Z * str)) (pasuspender : bool) :
  (forall cmd env,
      AudioPlayer.play_wav p wav_path pactl pasuspender = Some (cmd, env) ->
      last cmd [] = wav_path
      /\ (AudioPlayer.is_pulse p = true -> hd [] cmd = Py.lit "aplay")
      /\ (forall sink, env = Some sink ->
            AudioPlayer.is_pulse p = true
            /\ exists want stdout,
                 AudioPlayer.pulse_sink p = Some want
                 /\ pactl = Some (0, stdout)
                 /\ In sink (AudioPlayer.sink_names stdout)
                 /\ occurs_in want sink))
  /\ (AudioPlayer.is_pulse p = false ->
      exists cmd, AudioPlayer.play_wav p wav_path pactl pasuspender = Some (cmd, None)).
Proof.
  split.
  - intros cmd env H. unfold AudioPlayer.play_wav in H.
    destruct (if AudioPlayer.is_pulse p
              then AudioPlayer._resolve_pulse_sink p pactl else Some None)
      as [resolved |] eqn:Er; [| discriminate].
    cbv zeta in H. injection H as Hcmd Henv. split; [| split].
    + subst cmd.
      destruct (pasuspender && negb (AudioPlayer.is_pulse p));
        destruct (AudioPlayer.spk_device p) as [d |]; try destruct (Py.truthy d);
        cbn [app]; reflexivity.
    + intros Hp. subst cmd. rewrite Hp, andb_false_r.
      destruct (AudioPlayer.spk_device p) as [d |]; try destruct (Py.truthy d);
        reflexivity.
    + intros sink Hs. subst env.
      destruct resolved as [sink' |]; [| discriminate].
      destruct (Py.truthy sink'); [| discriminate]. injection Hs as ->.
      destruct (AudioPlayer.is_pulse p); [| discriminate].
      split; [reflexivity |].
      unfold AudioPlayer._resolve_pulse_sink in Er.
      destruct (AudioPlayer.pulse_sink p) as [want |] eqn:Ew; [| discriminate].
      destruct want as [| c want]; [discriminate |]. cbn [Py.truthy negb] in Er.
      destruct pactl as [[returncode stdout] |]; [| discriminate].
      destruct (Z.eqb_spec returncode 0) as [-> | _]; [| discriminate].
      cbn [negb] in Er.
      destruct (resolve_listed p (c :: want) stdout Ew) as (_ & Hs & _);
        [discriminate |].
      assert (Eres : AudioPlayer._resolve_pulse_sink p (Some (0, stdout))
                     = Some (Some sink)).
      { unfold AudioPlayer._resolve_pulse_sink. rewrite Ew. exact Er. }
      destruct (Hs sink Eres) as (Hin & Hocc & _).
      exists (c :: want), stdout. auto.
  - intros Hp. unfold AudioPlayer.play_wav. rewrite Hp. cbv zeta.
    eexists. reflexivity.
Qed.

Lemma play_wav_command_witness :
  AudioPlayer.play_wav player_pulse (Py.lit "out.wav")
    (Some (0, print_sinks two_sinks)) true
  = Some ([Py.lit "aplay"; Py.lit "-D"; Py.lit "pulse"; Py.lit "out.wav"],
          Some (Py.lit "alsa_output.usb-speaker"))
  /\ AudioPlayer.is_pulse player_pulse = true
  /\ In (Py.lit "alsa_output.usb-speaker")
        (AudioPlayer.sink_names (print_sinks two_sinks)).
Proof.
  assert (E : AudioPlayer.play_wav player_pulse (Py.lit "out.wav")
                (Some (0, print_sinks two_sinks)) true
              = Some ([Py.lit "aplay"; Py.lit "-D"; Py.lit "pulse"; Py.lit "out.wav"],
                      Some (Py.lit "alsa_output.usb-speaker")))
    by (vm_compute; reflexivity).
  split; [exact E |].
  destruct (proj1 (play_wav_command player_pulse (Py.lit "out.wav")
                     (Some (0, print_sinks two_sinks)) true) _ _ E)
    as (_ & _ & Henv).
  destruct (Henv _ eq_refl) as (Hp & want & stdout & _ & Hpactl & Hin & _).
  split; [exact Hp |].
  injection Hpactl as <-. exact Hin.
Defined.
